(** * Identity resolution, guest provisioning and payload binding

    A shallow embedding of [authHelper-old-complex.js]: the session lookup
    [getCurrentUserId], the identifier and payload binders built on it, the
    guest-provisioning fallback chain [getOrCreateAnonymousProfile], and
    [signOut].

    The JavaScript is asynchronous but single threaded; every [await] is a
    sequencing point, so an [async function] is a computation over the page
    state that either returns or throws.  The page state holds the two
    session flags, the single storage slot kept under the key
    ['anon_profile_id'], and three journals: the remote calls issued, the
    console lines and the records handed to [window.errorHandler].  What the
    remote service, the [window.enhancedDB] wrappers and [fetch] answer is
    not decided by this file: those answers are fields of [Window], and every
    theorem quantifies over them.

    After the claims about these, the file goes on to the rest of the helper
    ([isAuthenticated], [getAuthState], [debugAuthState],
    [upgradeAnonymousUser]), to the console loggers that the helper writes
    through (console-manager.js and simple-logger.js), and to the sign-in
    modal that shares the helper's file. *)

From stdpp Require Import base option list strings pretty gmap.
From Stdlib Require Import ZArith Lia.

Local Open Scope string_scope.
Local Open Scope Z_scope.

(** ** JavaScript values *)

Inductive JsVal : Type :=
  | JUndefined
  | JNull
  | JBool (b : bool)
  | JNum (n : Z)
  | JStr (s : string).

#[global] Instance JsVal_eq_dec : EqDecision JsVal.
Proof. solve_decision. Defined.

(** [if (v)], [!v], [a && b] test truthiness. *)
Definition truthy (v : JsVal) : bool :=
  match v with
  | JUndefined | JNull => false
  | JBool b => b
  | JNum n => negb (n =? 0)
  | JStr s => negb (String.eqb s "")
  end.

(** [v ?? d] tests for [null] and [undefined] only. *)
Definition nullish (v : JsVal) : bool :=
  match v with
  | JUndefined | JNull => true
  | _ => false
  end.

(** An object literal is a finite map from property names to values; reading
    a property that was never written gives [undefined]. *)
Definition prop (o : gmap string JsVal) (k : string) : JsVal :=
  default JUndefined (o !! k).

(** [new Error(message)] and the error objects of the remote service. *)
Record Error : Type := mkError { message : string }.

#[global] Instance Error_eq_dec : EqDecision Error.
Proof. solve_decision. Defined.

(** [hay.includes(needle)]. *)
Fixpoint includes (needle hay : string) : bool :=
  if String.prefix needle hay then true
  else match hay with
       | EmptyString => false
       | String _ rest => includes needle rest
       end.

(** [error?.message?.includes(needle)] on a possibly absent error. *)
Definition mentions (needle : string) (e : option Error) : bool :=
  match e with
  | Some err => includes needle (message err)
  | None => false
  end.

(** ** Remote calls and their answers *)

(** [profileDataOptions]: the three record shapes of a guest profile. *)
Inductive Shape : Type :=
  | WithExpiresAt   (* { display_name: 'Guest User', expires_at: now + 30 days } *)
  | Minimal         (* { display_name: 'Guest User' } *)
  | Empty.          (* {} *)

#[global] Instance Shape_eq_dec : EqDecision Shape.
Proof. solve_decision. Defined.

Definition profileDataOptions : list Shape := [WithExpiresAt; Minimal; Empty].

Definition THIRTY_DAYS_MS : Z := 30 * 24 * 60 * 60 * 1000.

(** The literal that a shape posts, at clock reading [now] (milliseconds). *)
Definition profileData (now : Z) (sh : Shape) : gmap string JsVal :=
  match sh with
  | WithExpiresAt =>
      <["expires_at" := JNum (now + THIRTY_DAYS_MS)]> {["display_name" := JStr "Guest User"]}
  | Minimal => {["display_name" := JStr "Guest User"]}
  | Empty => ∅
  end.

(** The four ways the helper reaches the record store. *)
Inductive Transport : Type :=
  | Enhanced       (* window.enhancedDB.enhancedSupabaseOperation(() => supabaseClient...) *)
  | Sdk            (* window.supabaseClient.from('anonymous_profiles')... *)
  | EnhancedRest   (* window.enhancedDB.enhancedNetworkOperation(() => fetch(...)) *)
  | Rest.          (* fetch('tables/anonymous_profiles...') *)

#[global] Instance Transport_eq_dec : EqDecision Transport.
Proof. solve_decision. Defined.

Inductive Call : Type :=
  | GetUser                                   (* auth.getUser() *)
  | SignOutCall (t : Transport)               (* auth.signOut() *)
  | Verify (t : Transport) (id : string)      (* select('id').eq('id', id).single() / GET tables/anonymous_profiles/id *)
  | Create (t : Transport) (sh : Shape).      (* insert([shape]).select('id').single() / POST tables/anonymous_profiles *)

#[global] Instance Call_eq_dec : EqDecision Call.
Proof. solve_decision. Defined.

(** How a JavaScript computation completes. *)
Inductive Completion (A : Type) : Type :=
  | Return (a : A)
  | Throw (e : Error).
Arguments Return {A} a.
Arguments Throw {A} e.

(** How a promise settles, and after how many milliseconds. *)
Inductive Settled (A : Type) : Type :=
  | Resolves (ms : Z) (a : A)
  | Rejects (ms : Z) (e : Error)
  | Pending.
Arguments Resolves {A} ms a.
Arguments Rejects {A} ms e.
Arguments Pending {A}.

(** [Promise.race([p, new Promise((_, reject) => setTimeout(() =>
    reject(new Error(msg)), limit))])]. *)
Definition race {A : Type} (p : Settled A) (limit : Z) (msg : string) : Completion A :=
  match p with
  | Resolves ms a => if ms <? limit then Return a else Throw (mkError msg)
  | Rejects ms e => if ms <? limit then Throw e else Throw (mkError msg)
  | Pending => Throw (mkError msg)
  end.

(** [{ data, error }] of [auth.getUser()]; [reply_user] is [data?.user?.id]. *)
Record AuthReply : Type := mkAuthReply {
  reply_user : option string;
  reply_error : option Error }.

(** A row of [anonymous_profiles] as far as the helper reads it: [row?.id]. *)
Record Row : Type := mkRow { row_id : option string }.

(** [{ data, error }] of a structured query. *)
Record SdkResult : Type := mkSdkResult {
  data : option Row;
  error : option Error }.

(** [{ success, data, error }] of [enhancedSupabaseOperation]. *)
Record OpResult : Type := mkOpResult {
  success : bool;
  op_data : option Row;
  op_error : option Error }.

(** A [fetch] response: [ok], [status] and what parsing its body gives
    ([None] is a body that parses to [null]). *)
Record HttpResponse : Type := mkHttpResponse {
  ok : bool;
  status : Z;
  json : Completion (option Row) }.

(** [{ success, data, error }] of [enhancedNetworkOperation]. *)
Record NetResult : Type := mkNetResult {
  net_success : bool;
  net_data : option HttpResponse;
  net_error : option Error }.

(** The answers of everything outside the helper.  Each answer may depend on
    the calls issued so far. *)
Record Remote : Type := mkRemote {
  getUser : list Call -> Completion (Settled AuthReply);
  authSignOut : list Call -> Completion (Settled SdkResult);
  enhancedSupabaseOperation : list Call -> Call -> Completion OpResult;
  from_anonymous_profiles : list Call -> Call -> Completion SdkResult;
  enhancedNetworkOperation : list Call -> Call -> Completion NetResult;
  fetch : list Call -> Call -> Completion HttpResponse }.

(** What is installed on [window]. *)
Record Window : Type := mkWindow {
  supabaseClient : bool;          (* window.supabaseClient *)
  hasEnhancedOperation : bool;    (* window.enhancedDB?.enhancedSupabaseOperation *)
  hasEnhancedNetwork : bool;      (* window.enhancedDB?.enhancedNetworkOperation *)
  errorHandler : bool;            (* window.errorHandler *)
  remote : Remote }.

(** ** Page state *)

Inductive Level : Type := LevelDebug | LevelLog | LevelWarn | LevelError.

Inductive Severity : Type := low | medium | high | critical.

Inductive HandlerEntry : Type :=
  | LoggedError (code : string) (e : Error) (sev : Severity)   (* errorHandler.logError *)
  | LoggedInfo (code : string).                                (* errorHandler.logInfo *)

Record Session : Type := mkSession {
  authTimeoutLogged : bool;            (* window.authTimeoutLogged *)
  authErrorCount : Z;                  (* window.authErrorCount *)
  anon_profile_id : option string;     (* the storage slot 'anon_profile_id' *)
  calls : list Call;                   (* remote calls issued, oldest first *)
  console : list (Level * string);     (* console lines, oldest first *)
  handled : list HandlerEntry }.       (* errorHandler records, oldest first *)

(** The state right after the script has loaded (lines 12-13). *)
Definition fresh (slot : option string) : Session :=
  {| authTimeoutLogged := false; authErrorCount := 0; anon_profile_id := slot;
     calls := []; console := []; handled := [] |}.

(** ** Computations *)

Definition M (A : Type) : Type := Session -> Completion A * Session.

Definition ret {A} (a : A) : M A := fun s => (Return a, s).

Definition throw {A} (e : Error) : M A := fun s => (Throw e, s).

Definition bind {A B} (m : M A) (k : A -> M B) : M B :=
  fun s => match m s with
           | (Return a, s') => k a s'
           | (Throw e, s') => (Throw e, s')
           end.

(** [try { m } catch (e) { h e }]. *)
Definition try_catch {A} (m : M A) (h : Error -> M A) : M A :=
  fun s => match m s with
           | (Return a, s') => (Return a, s')
           | (Throw e, s') => h e s'
           end.

Notation "x <- m ;; k" := (bind m (fun x => k))
  (at level 100, m at next level, right associativity, only parsing).
Notation "m ;;; k" := (bind m (fun _ => k))
  (at level 100, right associativity, only parsing).

Definition when (b : bool) (m : M unit) : M unit := if b then m else ret tt.

Definition log (lvl : Level) (line : string) : M unit :=
  fun s => (Return tt,
            {| authTimeoutLogged := authTimeoutLogged s; authErrorCount := authErrorCount s;
               anon_profile_id := anon_profile_id s; calls := calls s;
               console := console s ++ [(lvl, line)]; handled := handled s |}).

Definition record (entry : HandlerEntry) : M unit :=
  fun s => (Return tt,
            {| authTimeoutLogged := authTimeoutLogged s; authErrorCount := authErrorCount s;
               anon_profile_id := anon_profile_id s; calls := calls s;
               console := console s; handled := handled s ++ [entry] |}).

Definition set_authTimeoutLogged (b : bool) : M unit :=
  fun s => (Return tt,
            {| authTimeoutLogged := b; authErrorCount := authErrorCount s;
               anon_profile_id := anon_profile_id s; calls := calls s;
               console := console s; handled := handled s |}).

Definition get_authTimeoutLogged : M bool := fun s => (Return (authTimeoutLogged s), s).

(** Issue a remote call: journal it, then complete as the remote decides. *)
Definition issue {A} (c : Call) (answer : list Call -> Completion A) : M A :=
  fun s => (answer (calls s),
            {| authTimeoutLogged := authTimeoutLogged s; authErrorCount := authErrorCount s;
               anon_profile_id := anon_profile_id s; calls := calls s ++ [c];
               console := console s; handled := handled s |}).

(** Modelled from the spec: the Session/Storage Bridge ([localStorage] and
    [window.enhancedDB.enhancedLocalStorage]), which is not part of the
    helper.  The spec gives it one slot with [get], [set] and [remove], none
    of which throws; both backends are this slot. *)
Definition getStoredId : M (option string) := fun s => (Return (anon_profile_id s), s).

Definition setStoredId (id : string) : M unit :=
  fun s => (Return tt,
            {| authTimeoutLogged := authTimeoutLogged s; authErrorCount := authErrorCount s;
               anon_profile_id := Some id; calls := calls s;
               console := console s; handled := handled s |}).

Definition removeStoredId : M unit :=
  fun s => (Return tt,
            {| authTimeoutLogged := authTimeoutLogged s; authErrorCount := authErrorCount s;
               anon_profile_id := None; calls := calls s;
               console := console s; handled := handled s |}).

(** A stored or returned id is used only when it is a non-empty string. *)
Definition usable (id : string) : bool := negb (String.eqb id "").

Section Helper.

Variable W : Window.

(** [if (window.errorHandler) window.errorHandler.logError(code, e, sev)]. *)
Definition logError (code : string) (e : Error) (sev : Severity) : M unit :=
  when (errorHandler W) (record (LoggedError code e sev)).

(** [if (window.errorHandler) window.errorHandler.logInfo(code, ...)]. *)
Definition logInfo (code : string) : M unit :=
  when (errorHandler W) (record (LoggedInfo code)).

Definition AUTH_TIMEOUT_MS : Z := 5000.

(** Lines 28-34: start [auth.getUser()], then await the race with the timer. *)
Definition startGetUser : M (Settled AuthReply) := issue GetUser (getUser (remote W)).

Definition awaitRace {A} (p : Settled A) (limit : Z) (msg : string) : M A :=
  fun s => (race p limit msg, s).

(** Lines 19-78. *)
Definition getCurrentUserId : M JsVal :=
  try_catch
    (if negb (supabaseClient W) then
       log LevelWarn "Supabase client not available" ;;;
       ret JNull
     else
       authPromise <- startGetUser ;;
       try_catch
         (reply <- awaitRace authPromise AUTH_TIMEOUT_MS "Authentication timeout" ;;
          match reply_error reply with
          | Some err =>
              log LevelWarn "Error getting current user:" ;;;
              logged <- get_authTimeoutLogged ;;
              when (errorHandler W && negb logged)
                (record (LoggedError "AUTH_GET_USER" err medium) ;;;
                 set_authTimeoutLogged true) ;;;
              ret JNull
          | None =>
              ret (match reply_user reply with Some id => JStr id | None => JNull end)
          end)
         (fun timeoutError =>
            if includes "timeout" (message timeoutError) then
              log LevelDebug "Authentication timeout - using anonymous mode" ;;;
              logged <- get_authTimeoutLogged ;;
              when (errorHandler W && negb logged)
                (record (LoggedError "AUTH_TIMEOUT" timeoutError low) ;;;
                 set_authTimeoutLogged true) ;;;
              ret JNull
            else throw timeoutError))
    (fun error =>
       when (negb (includes "timeout" (message error)))
         (log LevelError "Error in getCurrentUserId:" ;;;
          logError "AUTH_GET_USER_ID" error high) ;;;
       ret JNull).

(** Lines 85-119. *)
Definition getCurrentUserIdentifier : M (gmap string JsVal) :=
  try_catch
    (userId <- getCurrentUserId ;;
     if truthy userId then
       ret (<["is_authenticated" := JBool true]> {["user_id" := userId]})
     else
       log LevelWarn "User not authenticated - redirecting to login" ;;;
       ret (<["requires_login" := JBool true]>
              (<["is_authenticated" := JBool false]> {["user_id" := JNull]})))
    (fun error =>
       log LevelError "Error in getCurrentUserIdentifier:" ;;;
       logError "AUTH_GET_IDENTIFIER" error high ;;;
       ret (<["requires_login" := JBool true]>
              (<["is_authenticated" := JBool false]> {["user_id" := JNull]}))).

(** ** Guest provisioning (lines 127-521)

    The backup file keeps the body of [getOrCreateAnonymousProfile] but has
    its [async function] line commented out; the body is embedded here as the
    function that the rest of the file calls and exports. *)

(** An object-or-null is truthy when it is an object. *)
Definition present {A} (o : option A) : bool :=
  match o with Some _ => true | None => false end.

(** [d?.id] when that is a truthy id. *)
Definition row_ident (d : option Row) : option string :=
  match d with
  | Some r => match row_id r with
              | Some id => if usable id then Some id else None
              | None => None
              end
  | None => None
  end.

(** Reading a property of [undefined]. *)
Definition typeError : Error := mkError "Cannot read properties of undefined".

Definition enhancedOp (c : Call) : M OpResult :=
  issue c (fun h => enhancedSupabaseOperation (remote W) h c).

Definition sdkQuery (c : Call) : M SdkResult :=
  if supabaseClient W then issue c (fun h => from_anonymous_profiles (remote W) h c)
  else throw typeError.

Definition netOp (c : Call) : M NetResult :=
  issue c (fun h => enhancedNetworkOperation (remote W) h c).

Definition doFetch (c : Call) : M HttpResponse :=
  issue c (fun h => fetch (remote W) h c).

(** [await response.json()]. *)
Definition awaitJson (resp : HttpResponse) : M (option Row) := fun s => (json resp, s).

(** Modelled from the spec: [window.enhancedDB.safeJSONParse(await
    response.text(), { fallback: null, ... })], a wrapper that is not part of
    the helper; from its call sites, it gives the parsed body, or the
    fallback [null] when the body does not parse. *)
Definition safeJSONParse (resp : HttpResponse) : M (option Row) :=
  ret (match json resp with Return v => v | Throw _ => None end).

(** Lines 149-182; [Some id] stands for [return anonProfileId]. *)
Definition verifyStored (anonProfileId : option string) : M (option string) :=
  match anonProfileId with
  | Some id =>
      if usable id then
        if hasEnhancedOperation W then
          result <- enhancedOp (Verify Enhanced id) ;;
          if success result && present (op_data result) then ret (Some id)
          else removeStoredId ;;; ret None
        else
          result <- sdkQuery (Verify Sdk id) ;;
          if negb (present (error result)) && present (data result) then ret (Some id)
          else removeStoredId ;;; ret None
      else ret None
  | None => ret None
  end.

(** Lines 185-251; [Some id] stands for [return anonProfileId], [None] for
    falling through to the legacy method. *)
Definition createEnhanced : M (option string) :=
  result <- enhancedOp (Create Enhanced WithExpiresAt) ;;
  result <- (if negb (success result) && mentions "expires_at" (op_error result) then
               log LevelDebug "expires_at column not found, trying minimal anonymous profile..." ;;;
               enhancedOp (Create Enhanced Minimal)
             else ret result) ;;
  result <- (if negb (success result) then
               log LevelDebug "Trying empty anonymous profile..." ;;;
               enhancedOp (Create Enhanced Empty)
             else ret result) ;;
  match (if success result then row_ident (op_data result) else None) with
  | Some id =>
      setStoredId id ;;;
      logInfo "AUTH_ANON_PROFILE_CREATED" ;;;
      log LevelDebug "Created new anonymous profile:" ;;;
      ret (Some id)
  | None =>
      logError "AUTH_ANON_PROFILE_CREATE_FAILED"
        (default (mkError "Failed to create anonymous profile") (op_error result)) high ;;;
      log LevelError "Enhanced operation failed to create anonymous profile:" ;;;
      ret None
  end.

(** One [try { result = await insert...; data = result.data; error =
    result.error } catch (insertError) { error = insertError }]; [prev] is
    what [data] held before. *)
Definition insertSdk (sh : Shape) (prev : option Row) : M (option Row * option Error) :=
  try_catch
    (result <- sdkQuery (Create Sdk sh) ;;
     ret (data result, error result))
    (fun insertError => ret (prev, Some insertError)).

(** Lines 253-329; falling off the end of the [try] returns [undefined]. *)
Definition createSdk : M JsVal :=
  de <- insertSdk WithExpiresAt None ;;
  de <- (if mentions "expires_at" (snd de) then
           log LevelDebug "Fallback: expires_at column not found, trying minimal profile..." ;;;
           insertSdk Minimal (fst de)
         else ret de) ;;
  de <- (if present (snd de) && negb (present (fst de)) then
           log LevelDebug "Fallback: trying empty anonymous profile..." ;;;
           insertSdk Empty (fst de)
         else ret de) ;;
  match snd de with
  | Some error =>
      log LevelError "Error creating anonymous profile:" ;;;
      logError "AUTH_ANON_PROFILE_SUPABASE_FAILED" error high ;;;
      throw error
  | None =>
      match row_ident (fst de) with
      | Some id =>
          setStoredId id ;;;
          logInfo "AUTH_ANON_PROFILE_FALLBACK_CREATED" ;;;
          log LevelDebug "Created new anonymous profile (fallback):" ;;;
          ret (JStr id)
      | None => ret JUndefined
      end
  end.

(** Lines 127-329: the body of the outer [try]. *)
Definition provisionStructured : M JsVal :=
  anonProfileId <- getStoredId ;;
  hit <- verifyStored anonProfileId ;;
  match hit with
  | Some id => ret (JStr id)
  | None =>
      created <- (if hasEnhancedOperation W then createEnhanced else ret None) ;;
      match created with
      | Some id => ret (JStr id)
      | None => createSdk
      end
  end.

(** The [else if (response?.status === 404)] arm of lines 370-378 and 389-397. *)
Definition evictIf404 (resp : option HttpResponse) : M (option string) :=
  match resp with
  | Some r =>
      if status r =? 404 then
        removeStoredId ;;;
        log LevelLog "Anonymous profile not found, removed from storage" ;;;
        ret None
      else ret None
  | None => ret None
  end.

(** Lines 351-399; [Some id] stands for [return anonProfileId]. *)
Definition verifyRest (anonProfileId : option string) : M (option string) :=
  match anonProfileId with
  | Some id =>
      if usable id then
        if hasEnhancedNetwork W then
          verifyResult <- netOp (Verify EnhancedRest id) ;;
          match net_success verifyResult, net_data verifyResult with
          | true, None => throw typeError
          | true, Some resp =>
              if ok resp then
                profileData <- safeJSONParse resp ;;
                if present profileData then
                  log LevelDebug "Anonymous profile verified via enhanced RESTful API:" ;;;
                  ret (Some id)
                else ret None
              else evictIf404 (Some resp)
          | false, resp => evictIf404 resp
          end
        else
          checkResponse <- doFetch (Verify Rest id) ;;
          if ok checkResponse then
            profileData <- awaitJson checkResponse ;;
            if present profileData then
              log LevelLog "Anonymous profile verified via RESTful API:" ;;;
              ret (Some id)
            else ret None
          else evictIf404 (Some checkResponse)
      else ret None
  | None => ret None
  end.

(** [i === profileDataOptions.length - 1]. *)
Definition is_last (rest : list Shape) : bool :=
  match rest with [] => true | _ => false end.

(** [createResult.error?.message || 'Unknown error']. *)
Definition error_text (e : option Error) : string :=
  match e with
  | Some err => if String.eqb (message err) "" then "Unknown error" else message err
  | None => "Unknown error"
  end.

(** Lines 416-465, the loop over the remaining shapes; [Some id] stands for
    [return anonProfileId], [None] for the loop running out. *)
Fixpoint createViaNetwork (shapes : list Shape) : M (option string) :=
  match shapes with
  | [] => ret None
  | sh :: rest =>
      r <- try_catch
             (createResult <- netOp (Create EnhancedRest sh) ;;
              match net_success createResult, net_data createResult with
              | true, None => throw typeError
              | true, Some resp =>
                  if ok resp then
                    newProfile <- safeJSONParse resp ;;
                    match row_ident newProfile with
                    | Some id =>
                        setStoredId id ;;;
                        logInfo "AUTH_ANON_PROFILE_REST_CREATED" ;;;
                        log LevelLog "Created new anonymous profile via enhanced RESTful API:" ;;;
                        ret (Some id)
                    | None => ret None
                    end
                  else if is_last rest then
                    throw (mkError (String.append "Enhanced RESTful API failed: "
                                      (error_text (net_error createResult))))
                  else
                    log LevelLog "Profile format failed, trying next format..." ;;;
                    ret None
              | false, _ =>
                  if is_last rest then
                    throw (mkError (String.append "Enhanced RESTful API failed: "
                                      (error_text (net_error createResult))))
                  else
                    log LevelLog "Profile format failed, trying next format..." ;;;
                    ret None
              end)
             (fun formatError =>
                if is_last rest then throw formatError
                else
                  log LevelLog "Profile format failed, trying next format..." ;;;
                  ret None) ;;
      match r with
      | Some id => ret (Some id)
      | None => createViaNetwork rest
      end
  end.

(** Lines 468-508, the same loop over plain [fetch]. *)
Fixpoint createViaFetch (shapes : list Shape) : M (option string) :=
  match shapes with
  | [] => ret None
  | sh :: rest =>
      r <- try_catch
             (createResponse <- doFetch (Create Rest sh) ;;
              if ok createResponse then
                newProfile <- awaitJson createResponse ;;
                match row_ident newProfile with
                | Some id =>
                    setStoredId id ;;;
                    logInfo "AUTH_ANON_PROFILE_REST_FALLBACK_CREATED" ;;;
                    log LevelLog "Created new anonymous profile via RESTful API fallback:" ;;;
                    ret (Some id)
                | None => ret None
                end
              else if is_last rest then
                throw (mkError (String.append "RESTful API failed with status "
                                  (pretty (status createResponse))))
              else
                log LevelLog "REST API format failed, trying next format..." ;;;
                ret None)
             (fun formatError =>
                if is_last rest then throw formatError
                else
                  log LevelLog "REST API format failed, trying next format..." ;;;
                  ret None) ;;
      match r with
      | Some id => ret (Some id)
      | None => createViaFetch rest
      end
  end.

(** Lines 340-510: the body of the inner [try]. *)
Definition provisionRest : M JsVal :=
  log LevelDebug "Attempting RESTful API fallback for anonymous profiles..." ;;;
  anonProfileId <- getStoredId ;;
  hit <- verifyRest anonProfileId ;;
  match hit with
  | Some id => ret (JStr id)
  | None =>
      created <- (if hasEnhancedNetwork W then createViaNetwork profileDataOptions
                  else createViaFetch profileDataOptions) ;;
      ret (match created with Some id => JStr id | None => JUndefined end)
  end.

(** Lines 331-521: the handler of the outer [try]. *)
Definition restFallback (error : Error) : M JsVal :=
  log LevelError "Supabase anonymous profile operation failed:" ;;;
  logError "AUTH_ANON_PROFILE_SUPABASE_OPERATION_FAILED" error high ;;;
  try_catch provisionRest
    (fun restfulError =>
       log LevelError "RESTful API fallback also failed:" ;;;
       logError "AUTH_ANON_PROFILE_ALL_METHODS_FAILED" restfulError critical ;;;
       ret JNull).

(** Lines 127-521. *)
Definition getOrCreateAnonymousProfile : M JsVal :=
  try_catch provisionStructured restFallback.

(** ** Binders *)

(** Lines 581-587. *)
Definition requireAuthentication : M JsVal :=
  userId <- getCurrentUserId ;;
  if negb (truthy userId) then throw (mkError "User not authenticated")
  else ret userId.

(** Lines 595-603. *)
Definition requireUserIdentifier : M (gmap string JsVal) :=
  identifier <- getCurrentUserIdentifier ;;
  if negb (truthy (prop identifier "user_id")) && negb (truthy (prop identifier "anon_profile_id"))
  then throw (mkError "No valid user identifier available")
  else ret identifier.

(** Lines 610-618: [{ ...data, user_id: identifier.user_id, anon_profile_id:
    identifier.anon_profile_id }]. *)
Definition addUserIdentifierToData (data : gmap string JsVal) : M (gmap string JsVal) :=
  identifier <- getCurrentUserIdentifier ;;
  ret (<["anon_profile_id" := prop identifier "anon_profile_id"]>
         (<["user_id" := prop identifier "user_id"]> data)).

(** Lines 626-637. *)
Definition createInsertPayload (data : gmap string JsVal) (requireAuth : bool)
  : M (gmap string JsVal) :=
  if requireAuth then
    userId <- requireAuthentication ;;
    ret (<["anon_profile_id" := JNull]> (<["user_id" := userId]> data))
  else addUserIdentifierToData data.

(** Lines 644-660. *)
Definition getUserQueryFilter (allowAnonymous : bool) : M (gmap string JsVal) :=
  let no_user : gmap string JsVal :=
    <["anon_profile_id" := JStr "no-user"]> {["user_id" := JStr "no-user"]} in
  userId <- getCurrentUserId ;;
  if truthy userId then ret {["user_id" := userId]}
  else if allowAnonymous then
    anonProfileId <- getOrCreateAnonymousProfile ;;
    if truthy anonProfileId then ret {["anon_profile_id" := anonProfileId]}
    else ret no_user
  else ret no_user.

(** ** Sign-out *)

(** Lines 665-689. *)
Definition clearAnonymousProfile : M unit :=
  try_catch
    (removeStoredId ;;;
     log LevelLog "Anonymous profile cleared" ;;;
     logInfo "AUTH_ANON_PROFILE_CLEARED")
    (fun error =>
       log LevelError "Error clearing anonymous profile:" ;;;
       logError "AUTH_CLEAR_ANON_PROFILE_ERROR" error low).

Definition SIGN_OUT_TIMEOUT_MS : Z := 5000.

(** Lines 694-743. *)
Definition signOut : M unit :=
  try_catch
    (when (supabaseClient W)
       (if hasEnhancedOperation W then
          result <- enhancedOp (SignOutCall Enhanced) ;;
          when (negb (success result))
            (log LevelWarn "Enhanced sign out failed, but continuing with cleanup:")
        else
          signOutPromise <- issue (SignOutCall Sdk) (authSignOut (remote W)) ;;
          _ <- awaitRace signOutPromise SIGN_OUT_TIMEOUT_MS "Sign out timeout" ;;
          ret tt) ;;;
     clearAnonymousProfile ;;;
     logInfo "AUTH_SIGN_OUT_SUCCESS" ;;;
     log LevelLog "User signed out successfully")
    (fun error =>
       log LevelError "Error during sign out:" ;;;
       logError "AUTH_SIGN_OUT_ERROR" error medium ;;;
       try_catch clearAnonymousProfile
         (fun cleanupError =>
            log LevelError "Error during cleanup after failed sign out:")).

End Helper.

(** ** Sessions and the vocabulary of the properties *)

(** The exported operations of [window.authHelper] that are embedded here.
    Of the others, [isAuthenticated], [getAuthState] and [debugAuthState]
    change the page state only through [getCurrentUserId]. *)
Inductive Op : Type :=
  | CallGetCurrentUserId
  | CallGetCurrentUserIdentifier
  | CallGetOrCreateAnonymousProfile
  | CallRequireAuthentication
  | CallRequireUserIdentifier
  | CallAddUserIdentifierToData (data : gmap string JsVal)
  | CallCreateInsertPayload (data : gmap string JsVal) (requireAuth : bool)
  | CallGetUserQueryFilter (allowAnonymous : bool)
  | CallClearAnonymousProfile
  | CallSignOut.

(** The page state after one operation has settled, whatever it returned. *)
Definition step (W : Window) (s : Session) (o : Op) : Session :=
  match o with
  | CallGetCurrentUserId => snd (getCurrentUserId W s)
  | CallGetCurrentUserIdentifier => snd (getCurrentUserIdentifier W s)
  | CallGetOrCreateAnonymousProfile => snd (getOrCreateAnonymousProfile W s)
  | CallRequireAuthentication => snd (requireAuthentication W s)
  | CallRequireUserIdentifier => snd (requireUserIdentifier W s)
  | CallAddUserIdentifierToData data => snd (addUserIdentifierToData W data s)
  | CallCreateInsertPayload data requireAuth => snd (createInsertPayload W data requireAuth s)
  | CallGetUserQueryFilter allowAnonymous => snd (getUserQueryFilter W allowAnonymous s)
  | CallClearAnonymousProfile => snd (clearAnonymousProfile W s)
  | CallSignOut => snd (signOut W s)
  end.

(** A session: operations awaited one after the other. *)
Definition run (W : Window) (ops : list Op) (s : Session) : Session :=
  fold_left (step W) ops s.

(** Hoare triples over computations; the postcondition sees how the
    computation completed. *)
Definition hoare {A} (P : Session -> Prop) (m : M A)
    (Q : Completion A -> Session -> Prop) : Prop :=
  forall s, P s -> Q (fst (m s)) (snd (m s)).

Definition preserves {A} (I : Session -> Prop) (m : M A) : Prop :=
  hoare I m (fun _ => I).

Definition returns {A} (c : Completion A) : Prop :=
  match c with Return _ => True | Throw _ => False end.

(** The promise settles before the timer of [limit] milliseconds fires. *)
Definition answers_within {A} (limit : Z) (p : Settled A) : bool :=
  match p with
  | Resolves ms _ | Rejects ms _ => ms <? limit
  | Pending => false
  end.

(** The caller is authenticated as [u]: the session lookup answers in time,
    without error, with the user id [u]. *)
Definition signed_in (W : Window) (s : Session) (u : string) : Prop :=
  supabaseClient W = true /\ usable u = true /\
  exists ms, ms < AUTH_TIMEOUT_MS /\
    getUser (remote W) (calls s) = Return (Resolves ms (mkAuthReply (Some u) None)).

Definition unauthenticated (W : Window) (s : Session) : Prop :=
  forall u, ~ signed_in W s u.

Definition has_code (code : string) (entry : HandlerEntry) : bool :=
  match entry with
  | LoggedError c _ _ => String.eqb c code
  | LoggedInfo c => String.eqb c code
  end.

(** How many records with this code the error handler holds. *)
Definition diagnostics (code : string) (s : Session) : nat :=
  length (filter (fun entry => has_code code entry = true) (handled s)).

(** Timeout diagnostics already emitted plus the one the flag still allows. *)
Definition timeout_budget (s : Session) : nat :=
  (diagnostics "AUTH_TIMEOUT" s + (if authTimeoutLogged s then 0 else 1))%nat.

Definition is_creation (c : Call) : bool :=
  match c with Create _ _ => true | _ => false end.

(** How many remote creation calls have been issued. *)
Definition creations (s : Session) : nat :=
  length (filter (fun c => is_creation c = true) (calls s)).

(** The calls that [m] issues when started in [s]. *)
Definition issued {A} (m : M A) (s : Session) : list Call :=
  drop (length (calls s)) (calls (snd (m s))).

(** A computation that never throws. *)
Definition total {A} (m : M A) : Prop := forall s, returns (fst (m s)).

(** At most [k] timeout diagnostics can ever have been emitted. *)
Definition within_budget (k : nat) (s : Session) : Prop :=
  (timeout_budget s <= k)%nat.

(** The two identifier objects of [getCurrentUserIdentifier]. *)
Definition authenticated_identifier (userId : JsVal) : gmap string JsVal :=
  <["is_authenticated" := JBool true]> {["user_id" := userId]}.

Definition login_identifier : gmap string JsVal :=
  <["requires_login" := JBool true]>
    (<["is_authenticated" := JBool false]> {["user_id" := JNull]}).

(** Who the caller is when an operation starts in [s]: [Some u] for a caller
    authenticated as [u], [None] for an unauthenticated one. *)
Definition identity (W : Window) (s : Session) (who : option string) : Prop :=
  match who with
  | Some u => signed_in W s u
  | None => unauthenticated W s
  end.

(** [{ user_id: 'no-user', anon_profile_id: 'no-user' }]. *)
Definition no_user_filter : gmap string JsVal :=
  <["anon_profile_id" := JStr "no-user"]> {["user_id" := JStr "no-user"]}.

(** Modelled from the spec: the target store, which is outside the helper.
    A filter object selects the rows whose columns equal each of its fields,
    and an ownership column holds [null] or a UUID in its 36-character
    textual form. *)
Definition selects (filter row : gmap string JsVal) : Prop :=
  map_Forall (fun k v => prop row k = v) filter.

Definition is_uuid (id : string) : bool := (String.length id =? 36)%nat.

Definition owner_column (v : JsVal) : bool :=
  match v with
  | JNull => true
  | JStr id => is_uuid id
  | _ => false
  end.

(** The remote store confirms that the guest profile [id] exists, on the
    transport that [getOrCreateAnonymousProfile] verifies a stored id with. *)
Definition verifies_existing (W : Window) (id : string) : Prop :=
  if hasEnhancedOperation W then
    forall h, exists r,
      enhancedSupabaseOperation (remote W) h (Verify Enhanced id) = Return r /\
      success r = true /\ present (op_data r) = true
  else
    supabaseClient W = true /\
    forall h, exists r,
      from_anonymous_profiles (remote W) h (Verify Sdk id) = Return r /\
      present (error r) = false /\ present (data r) = true.

(** The transport on which a stored id is verified first. *)
Definition verifying_transport (W : Window) : Transport :=
  if hasEnhancedOperation W then Enhanced else Sdk.

(** How one creation attempt ended. *)
Inductive Attempt : Type :=
  | Succeeded
  | MissingColumn    (* failed with a message that mentions expires_at *)
  | Failed           (* failed otherwise *)
  | Escaped          (* threw where the stage has no handler: the enhanced wrapper rejected *)
  | Unsent.          (* was not sent: there is no client *)

Definition failure_of (e : option Error) : Attempt :=
  if mentions "expires_at" e then MissingColumn else Failed.

(** The attempt to create shape [sh] on transport [t] after the calls [h], as
    the stage on that transport reads the answer.  The stage over the
    enhanced wrapper (lines 187-228) has no handler of its own, so a
    rejecting wrapper leaves it; the stage over the plain client (lines
    253-304) catches what the call throws and takes it as the error, and
    sends nothing when there is no client; the HTTP loops catch everything. *)
Definition attempt_outcome (W : Window) (t : Transport) (h : list Call) (sh : Shape)
  : Attempt :=
  match t with
  | Enhanced =>
      match enhancedSupabaseOperation (remote W) h (Create Enhanced sh) with
      | Return r => if success r then Succeeded else failure_of (op_error r)
      | Throw _ => Escaped
      end
  | Sdk =>
      if supabaseClient W then
        match from_anonymous_profiles (remote W) h (Create Sdk sh) with
        | Return r =>
            match error r with
            | None => Succeeded
            | Some e => failure_of (Some e)
            end
        | Throw e => failure_of (Some e)
        end
      else Unsent
  | EnhancedRest =>
      match enhancedNetworkOperation (remote W) h (Create EnhancedRest sh) with
      | Return r =>
          match net_success r, net_data r with
          | true, Some resp =>
              if ok resp && present (row_ident (match json resp with
                                                | Return v => v
                                                | Throw _ => None
                                                end))
              then Succeeded
              else failure_of (net_error r)
          | _, _ => failure_of (net_error r)
          end
      | Throw e => failure_of (Some e)
      end
  | Rest =>
      match fetch (remote W) h (Create Rest sh) with
      | Return resp =>
          if ok resp then
            match json resp with
            | Return v => if present (row_ident v) then Succeeded else Failed
            | Throw e => failure_of (Some e)
            end
          else Failed
      | Throw e => failure_of (Some e)
      end
  end.

(** Whether the stage holds a row in [data] after the attempt, given whether
    it held one before.  Only the stage over the plain client looks at this
    (line 291, [error && !data]): an answer sets [data], a call that throws
    leaves it as it was (lines 268-270, 284-286). *)
Definition row_after (W : Window) (t : Transport) (h : list Call) (sh : Shape) (prev : bool)
  : bool :=
  match t with
  | Sdk =>
      if supabaseClient W then
        match from_anonymous_profiles (remote W) h (Create Sdk sh) with
        | Return r => present (data r)
        | Throw _ => prev
        end
      else prev
  | _ => false
  end.

(** The amended ordering rule.  After a failure of shape (a), shape (b) is
    tried on the structured transports only when the failure mentions the
    missing column, and on the HTTP transports always; otherwise the stage
    goes straight to (c).  Shape (c) follows a failure of (b).  Nothing is
    tried after a success, nothing after an attempt that left the stage by
    exception, nothing at all without a client, and shape (c) is skipped
    when the failure came with a row. *)
Definition tries_minimal (t : Transport) (a : Attempt) : bool :=
  match a with
  | MissingColumn => true
  | Failed => match t with
              | Enhanced | Sdk => false
              | EnhancedRest | Rest => true
              end
  | Succeeded | Escaped | Unsent => false
  end.

Definition prescribed_order (t : Transport) (a b : Attempt) (row_a row_b : bool)
  : list Shape :=
  match a with
  | Unsent => []
  | Succeeded | Escaped => [WithExpiresAt]
  | MissingColumn | Failed =>
      if tries_minimal t a then
        match b with
        | MissingColumn | Failed =>
            if row_b then [WithExpiresAt; Minimal] else [WithExpiresAt; Minimal; Empty]
        | Succeeded | Escaped | Unsent => [WithExpiresAt; Minimal]
        end
      else if row_a then [WithExpiresAt] else [WithExpiresAt; Empty]
  end.

(** The calls that the creation stage on transport [t] issues from [s]. *)
Definition stage_calls (W : Window) (t : Transport) (s : Session) : list Call :=
  match t with
  | Enhanced => issued (createEnhanced W) s
  | Sdk => issued (createSdk W) s
  | EnhancedRest => issued (createViaNetwork W profileDataOptions) s
  | Rest => issued (createViaFetch W profileDataOptions) s
  end.

(** The body that [safeJSONParse] or [response.json()] reads off a response. *)
Definition body_row (resp : HttpResponse) : option Row :=
  match json resp with Return v => v | Throw _ => None end.

(** The remote store never hands out [old] as the id of a created profile. *)
Definition never_issues (W : Window) (old : string) : Prop :=
  (forall h c r, enhancedSupabaseOperation (remote W) h c = Return r ->
                 row_ident (op_data r) <> Some old) /\
  (forall h c r, from_anonymous_profiles (remote W) h c = Return r ->
                 row_ident (data r) <> Some old) /\
  (forall h c r resp, enhancedNetworkOperation (remote W) h c = Return r ->
                      net_data r = Some resp -> row_ident (body_row resp) <> Some old) /\
  (forall h c resp, fetch (remote W) h c = Return resp ->
                    row_ident (body_row resp) <> Some old).

(** The structured check of a stored id comes back without the record. *)
Definition structured_check_empty (W : Window) (old : string) : Prop :=
  if hasEnhancedOperation W then
    forall h, exists r,
      enhancedSupabaseOperation (remote W) h (Verify Enhanced old) = Return r /\
      success r && present (op_data r) = false
  else
    supabaseClient W = true /\
    forall h, exists r,
      from_anonymous_profiles (remote W) h (Verify Sdk old) = Return r /\
      negb (present (error r)) && present (data r) = false.

(** The structured check cannot be made at all: it throws. *)
Definition structured_check_throws (W : Window) (old : string) : Prop :=
  if hasEnhancedOperation W then
    forall h, exists e,
      enhancedSupabaseOperation (remote W) h (Verify Enhanced old) = Throw e
  else
    supabaseClient W = false \/
    forall h, exists e, from_anonymous_profiles (remote W) h (Verify Sdk old) = Throw e.

(** The HTTP check of a stored id answers 404. *)
Definition http_check_404 (W : Window) (old : string) : Prop :=
  if hasEnhancedNetwork W then
    forall h, exists r resp,
      enhancedNetworkOperation (remote W) h (Verify EnhancedRest old) = Return r /\
      net_data r = Some resp /\ status resp = 404 /\
      net_success r && ok resp = false
  else
    forall h, exists resp,
      fetch (remote W) h (Verify Rest old) = Return resp /\
      ok resp = false /\ status resp = 404.

(** The remote store reports the guest profile [old] as not found: an empty
    result of the structured check or, when that check cannot be made, a 404
    of the HTTP check. *)
Definition reports_not_found (W : Window) (old : string) : Prop :=
  structured_check_empty W old \/
  (structured_check_throws W old /\ http_check_404 W old).

(** The storage slot does not hold [old]. *)
Definition forgotten (old : string) (s : Session) : Prop :=
  anon_profile_id s <> Some old.

(** The storage slot holds exactly the id that was returned, if any. *)
Definition slot_agrees (c : Completion JsVal) (s : Session) : Prop :=
  match c with
  | Return (JStr id) => anon_profile_id s = Some id
  | _ => anon_profile_id s = None
  end.

Definition slot_agrees_opt (c : Completion (option string)) (s : Session) : Prop :=
  match c with
  | Return (Some id) => anon_profile_id s = Some id
  | _ => anon_profile_id s = None
  end.

(** At least [k] creation calls have been issued; more than [k] have. *)
Definition at_least (k : nat) (s : Session) : Prop := (k <= creations s)%nat.

Definition attempted (k : nat) (s : Session) : Prop := (k < creations s)%nat.

(** What a provisioning run must establish, counted from [k] earlier
    creation calls: the slot holds what is returned, a creation call has gone
    out, and the slot does not hold [old]. *)
Definition provisioned (k : nat) (old : string) (c : Completion JsVal) (s : Session) : Prop :=
  slot_agrees c s /\ attempted k s /\ forgotten old s.

Definition emptied (k : nat) (s : Session) : Prop :=
  anon_profile_id s = None /\ at_least k s.

(** The remote store creates the full guest profile, with id [new], on
    whichever transport it is asked. *)
Definition accepts (W : Window) (new : string) : Prop :=
  (forall h, exists r,
     enhancedSupabaseOperation (remote W) h (Create Enhanced WithExpiresAt) = Return r /\
     success r = true /\ row_ident (op_data r) = Some new) /\
  (forall h, exists r,
     from_anonymous_profiles (remote W) h (Create Sdk WithExpiresAt) = Return r /\
     error r = None /\ row_ident (data r) = Some new) /\
  (forall h, exists r resp,
     enhancedNetworkOperation (remote W) h (Create EnhancedRest WithExpiresAt) = Return r /\
     net_success r = true /\ net_data r = Some resp /\ ok resp = true /\
     row_ident (body_row resp) = Some new) /\
  (forall h, exists resp v,
     fetch (remote W) h (Create Rest WithExpiresAt) = Return resp /\
     ok resp = true /\ json resp = Return v /\ row_ident v = Some new).

(** ** Example pages *)

Definition denied : Error := mkError "permission denied".

Definition unreachable : Error := mkError "Failed to fetch".

(** A remote that never answers the session lookup and is unreachable
    otherwise. *)
Definition silent : Remote :=
  {| getUser := fun _ => Return Pending;
     authSignOut := fun _ => Return Pending;
     enhancedSupabaseOperation := fun _ _ => Throw unreachable;
     from_anonymous_profiles := fun _ _ => Throw unreachable;
     enhancedNetworkOperation := fun _ _ => Throw unreachable;
     fetch := fun _ _ => Throw unreachable |}.

(** A remote that answers every request at once with a service error that
    has nothing to do with the [expires_at] column. *)
Definition refusing : Remote :=
  {| getUser := fun _ => Return (Resolves 20 (mkAuthReply None (Some denied)));
     authSignOut := fun _ => Return (Resolves 20 (mkSdkResult None (Some denied)));
     enhancedSupabaseOperation := fun _ _ => Return (mkOpResult false None (Some denied));
     from_anonymous_profiles := fun _ _ => Return (mkSdkResult None (Some denied));
     enhancedNetworkOperation :=
       fun _ _ => Return (mkNetResult false (Some (mkHttpResponse false 403 (Return None)))
                            (Some denied));
     fetch := fun _ _ => Return (mkHttpResponse false 403 (Return None)) |}.

(** A remote on which [u] is signed in and the store holds exactly the guest
    profiles listed in [known]; it creates the profile [made] on request. *)
Definition serving (u : option string) (known : list string) (made : string) : Remote :=
  let find (c : Call) : option Row :=
    match c with
    | Verify _ id => if bool_decide (id ∈ known) then Some (mkRow (Some id)) else None
    | Create _ _ => Some (mkRow (Some made))
    | _ => None
    end in
  {| getUser := fun _ => Return (Resolves 20 (mkAuthReply u None));
     authSignOut := fun _ => Return (Resolves 20 (mkSdkResult None None));
     enhancedSupabaseOperation :=
       fun _ c => Return (mkOpResult (present (find c)) (find c)
                            (if present (find c) then None else Some (mkError "no rows")));
     from_anonymous_profiles :=
       fun _ c => Return (mkSdkResult (find c)
                            (if present (find c) then None else Some (mkError "no rows")));
     enhancedNetworkOperation :=
       fun _ c => Return (mkNetResult (present (find c))
                            (Some (mkHttpResponse (present (find c))
                                     (if present (find c) then 200 else 404)
                                     (Return (find c))))
                            None);
     fetch :=
       fun _ c => Return (mkHttpResponse (present (find c))
                            (if present (find c) then 200 else 404)
                            (Return (find c))) |}.

(** A remote whose store holds no guest profile and refuses to create one:
    every check comes back empty, with 404 over HTTP, and every creation is
    denied. *)
Definition barren : Remote :=
  {| getUser := fun _ => Return (Resolves 20 (mkAuthReply None None));
     authSignOut := fun _ => Return (Resolves 20 (mkSdkResult None None));
     enhancedSupabaseOperation :=
       fun _ c => Return (mkOpResult false None
                            (Some (if is_creation c then denied else mkError "no rows")));
     from_anonymous_profiles :=
       fun _ c => Return (mkSdkResult None
                            (Some (if is_creation c then denied else mkError "no rows")));
     enhancedNetworkOperation :=
       fun _ c => Return (mkNetResult false
                            (Some (mkHttpResponse false (if is_creation c then 403 else 404)
                                     (Return None)))
                            (if is_creation c then Some denied else None));
     fetch :=
       fun _ c => Return (mkHttpResponse false (if is_creation c then 403 else 404)
                            (Return None)) |}.

(** A remote whose structured interface is unreachable and whose HTTP
    interface answers the check of any id with 200 and an empty body, and
    denies every creation. *)
Definition hollow : Remote :=
  {| getUser := fun _ => Return (Resolves 20 (mkAuthReply None None));
     authSignOut := fun _ => Return (Resolves 20 (mkSdkResult None None));
     enhancedSupabaseOperation := fun _ _ => Throw unreachable;
     from_anonymous_profiles := fun _ _ => Throw unreachable;
     enhancedNetworkOperation :=
       fun _ c => Return (if is_creation c
                          then mkNetResult false
                                 (Some (mkHttpResponse false 403 (Return None))) (Some denied)
                          else mkNetResult true
                                 (Some (mkHttpResponse true 200 (Return None))) None);
     fetch :=
       fun _ c => Return (if is_creation c then mkHttpResponse false 403 (Return None)
                          else mkHttpResponse true 200 (Return None)) |}.

(** Pages with everything installed, and bare pages with only the client. *)
Definition full_page (r : Remote) : Window := mkWindow true true true true r.

Definition bare_page (r : Remote) : Window := mkWindow true false false false r.

(** ** The rest of [window.authHelper] *)

(** [v !== null]. *)
Definition not_null (v : JsVal) : bool :=
  match v with JNull => false | _ => true end.

(** What [getItem('anon_profile_id')] hands back: the stored string or [null]. *)
Definition stored_value (o : option string) : JsVal :=
  match o with Some id => JStr id | None => JNull end.

(** [{ isAuthenticated, isAnonymous, userId, anonProfileId }]. *)
Definition auth_state (isAuth isAnon : bool) (userId anonProfileId : JsVal)
  : gmap string JsVal :=
  <["anonProfileId" := anonProfileId]>
    (<["userId" := userId]>
       (<["isAnonymous" := JBool isAnon]> {["isAuthenticated" := JBool isAuth]})).

(** [if (id)] on a string that may be [null] or [undefined]. *)
Definition given (id : option string) : bool :=
  match id with Some i => usable i | None => false end.

(** [{ isValid, error }] of [window.enhancedDB.validateInput]. *)
Record Validation : Type := mkValidation {
  isValid : bool;
  validation_error : string }.

(** [{ data, error }] of [auth.signUp()]; [signup_user] is [data?.user?.id]. *)
Record SignUpReply : Type := mkSignUpReply {
  signup_user : option string;
  signup_error : option Error }.

(** [{ success, data, error }] of the wrapped sign-up; [wrapped_user] is
    [data?.user?.id]. *)
Record SignUpResult : Type := mkSignUpResult {
  wrapped_success : bool;
  wrapped_user : option string;
  wrapped_error : option Error }.

(** What [upgradeAnonymousUser] reaches beyond [Window]: the input validator
    of [window.enhancedDB], absent on a page that does not install it and
    asked with a value, its type and its field name; and the answers of the
    sign-up, wrapped and plain, to an email and a password.  The sign-up is
    not a call to the guest-profile store and has no entry in [calls]. *)
Record Enrolment : Type := mkEnrolment {
  validateInput : option (string -> string -> string -> Validation);
  enhancedSignUp : list Call -> string -> string -> Completion SignUpResult;
  authSignUp : list Call -> string -> string -> Completion SignUpReply }.

(** Await an answer that depends on the calls issued so far. *)
Definition ask {A} (answer : list Call -> Completion A) : M A :=
  fun s => (answer (calls s), s).

Section Snapshot.

Variable W : Window.

(** Lines 528-531. *)
Definition isAuthenticated : M bool :=
  userId <- getCurrentUserId W ;;
  ret (not_null userId).

(** Lines 537-574. *)
Definition getAuthState : M (gmap string JsVal) :=
  try_catch
    (userId <- getCurrentUserId W ;;
     let isAuth := not_null userId in
     anonProfileId <- (if negb isAuth then
                         stored <- getStoredId ;;
                         ret (stored_value stored)
                       else ret JNull) ;;
     ret (auth_state isAuth (negb isAuth) userId anonProfileId))
    (fun error =>
       log LevelError "Error in getAuthState:" ;;;
       logError W "AUTH_GET_STATE" error medium ;;;
       ret (auth_state false true JNull JNull)).

(** Lines 848-863; [Some state] stands for [return state], [None] for
    [return null]. *)
Definition debugAuthState : M (option (gmap string JsVal)) :=
  try_catch
    (state <- getAuthState ;;
     log LevelLog "Auth State Debug:" ;;;
     ret (Some state))
    (fun error =>
       log LevelError "Error in debugAuthState:" ;;;
       ret None).

Variable E : Enrolment.

(** Lines 755-766. *)
Definition validateInputs (email password : string) : M unit :=
  match validateInput E with
  | Some validate =>
      let emailValidation := validate email "email" "user email" in
      if negb (isValid emailValidation) then
        throw (mkError (String.append "Invalid email: " (validation_error emailValidation)))
      else
        let passwordValidation := validate password "string" "password" in
        if negb (isValid passwordValidation) then
          throw (mkError (String.append "Invalid password: "
                            (validation_error passwordValidation)))
        else ret tt
  | None => ret tt
  end.

(** Lines 776-804; the value is [signUpResult.data?.user?.id]. *)
Definition signUp (email password : string) : M (option string) :=
  if hasEnhancedOperation W then
    signUpResult <- ask (fun h => enhancedSignUp E h email password) ;;
    if negb (wrapped_success signUpResult) then
      throw (default (mkError "Sign up operation failed") (wrapped_error signUpResult))
    else ret (wrapped_user signUpResult)
  else if supabaseClient W then
    reply <- ask (fun h => authSignUp E h email password) ;;
    match signup_error reply with
    | Some error => throw error
    | None => ret (signup_user reply)
    end
  else throw typeError.

(** Lines 752-843. *)
Definition upgradeAnonymousUser (email password : string) : M bool :=
  try_catch
    (validateInputs email password ;;;
     currentAnonId <- getStoredId ;;
     newUserId <- signUp email password ;;
     if negb (given newUserId) then
       throw (mkError "Failed to get new user ID from signup response")
     else
       when (given currentAnonId)
         (log LevelLog "Migration needed: Update all records" ;;;
          logInfo W "AUTH_UPGRADE_MIGRATION_NEEDED") ;;;
       clearAnonymousProfile W ;;;
       logInfo W "AUTH_UPGRADE_SUCCESS" ;;;
       log LevelLog "Successfully upgraded anonymous user to authenticated user" ;;;
       ret true)
    (fun error =>
       log LevelError "Error upgrading anonymous user:" ;;;
       logError W "AUTH_UPGRADE_ERROR" error high ;;;
       ret false).

End Snapshot.

(** Every operation that [window.authHelper] exports (lines 866-883). *)
Inductive Exported : Type :=
  | Embedded (o : Op)
  | CallIsAuthenticated
  | CallGetAuthState
  | CallDebugAuthState
  | CallUpgradeAnonymousUser (E : Enrolment) (email password : string).

Definition step_exported (W : Window) (s : Session) (o : Exported) : Session :=
  match o with
  | Embedded o => step W s o
  | CallIsAuthenticated => snd (isAuthenticated W s)
  | CallGetAuthState => snd (getAuthState W s)
  | CallDebugAuthState => snd (debugAuthState W s)
  | CallUpgradeAnonymousUser E email password =>
      snd (upgradeAnonymousUser W E email password s)
  end.

Definition run_exported (W : Window) (ops : list Exported) (s : Session) : Session :=
  fold_left (step_exported W) ops s.

(** ** More vocabulary *)

(** The session lookup fails with [e]: [auth.getUser()] throws it, or its
    promise rejects with it before the timer fires. *)
Definition lookup_fails (W : Window) (s : Session) (e : Error) : Prop :=
  supabaseClient W = true /\
  (getUser (remote W) (calls s) = Throw e \/
   exists ms, ms < AUTH_TIMEOUT_MS /\
     getUser (remote W) (calls s) = Return (Rejects ms e)).

(** What is returned is [null], [undefined] or an id, and a returned id is
    usable and is what the storage slot holds. *)
Definition holds_returned (c : Completion JsVal) (s : Session) : Prop :=
  match c with
  | Return (JStr id) => usable id = true /\ anon_profile_id s = Some id
  | Return (JBool _) | Return (JNum _) => False
  | _ => True
  end.

Definition holds_returned_opt (c : Completion (option string)) (s : Session) : Prop :=
  match c with
  | Return (Some id) => usable id = true /\ anon_profile_id s = Some id
  | _ => True
  end.

(** The call that is still due for checking a usable stored id over HTTP. *)
Definition verification_due (s : Session) : nat :=
  if given (anon_profile_id s) then 1 else 0.

(** How a computation that is given [n] calls in all has spent them: when it
    hands back an id, only the calls count; otherwise the check that is still
    due counts as well. *)
Definition spent {A} (found : A -> bool) (n : nat) (c : Completion A) (s : Session) : Prop :=
  match c with
  | Return a => if found a then (length (calls s) <= n)%nat
                else (length (calls s) + verification_due s <= n)%nat
  | Throw _ => (length (calls s) + verification_due s <= n)%nat
  end.

(** No more than [k] creation calls have been issued. *)
Definition created_within (k : nat) (s : Session) : Prop :=
  (creations s <= k)%nat.

(** [v] is an id. *)
Definition is_id (v : JsVal) : bool :=
  match v with JStr _ => true | _ => false end.

(** How the check of a stored id has spent its [n] calls: when it finds
    nothing, the HTTP check that may still be due counts as well. *)
Definition checked (n : nat) (c : Completion (option string)) (s : Session) : Prop :=
  match c with
  | Return None => (length (calls s) + verification_due s <= n)%nat
  | _ => (length (calls s) <= n)%nat
  end.

(** The record store cannot be reached on any transport: every call throws. *)
Definition unreachable_store (W : Window) : Prop :=
  (forall h c, exists e, enhancedSupabaseOperation (remote W) h c = Throw e) /\
  (forall h c, exists e, from_anonymous_profiles (remote W) h c = Throw e) /\
  (forall h c, exists e, enhancedNetworkOperation (remote W) h c = Throw e) /\
  (forall h c, exists e, fetch (remote W) h c = Throw e).

(** A remote on which every call throws, the session lookup included. *)
Definition broken : Remote :=
  {| getUser := fun _ => Throw unreachable;
     authSignOut := fun _ => Throw unreachable;
     enhancedSupabaseOperation := fun _ _ => Throw unreachable;
     from_anonymous_profiles := fun _ _ => Throw unreachable;
     enhancedNetworkOperation := fun _ _ => Throw unreachable;
     fetch := fun _ _ => Throw unreachable |}.

(** A remote whose store lacks the [expires_at] column and refuses every
    other shape as well. *)
Definition missing_column : Error := mkError "column expires_at does not exist".

Definition rejecting : Remote :=
  {| getUser := fun _ => Return Pending;
     authSignOut := fun _ => Return Pending;
     enhancedSupabaseOperation := fun _ _ => Return (mkOpResult false None (Some missing_column));
     from_anonymous_profiles := fun _ _ => Return (mkSdkResult None (Some missing_column));
     enhancedNetworkOperation := fun _ _ => Return (mkNetResult false None (Some missing_column));
     fetch := fun _ _ => Return (mkHttpResponse false 400 (Return None)) |}.

(** The error, if any, that the remote part of [signOut] raises from [s]: a
    throwing wrapper, a throwing or rejecting [auth.signOut()], or the
    5000 ms timer.  An answer that reports a failure raises nothing. *)
Definition sign_out_raises (W : Window) (s : Session) : option Error :=
  if supabaseClient W then
    if hasEnhancedOperation W then
      match enhancedSupabaseOperation (remote W) (calls s) (SignOutCall Enhanced) with
      | Throw e => Some e
      | Return _ => None
      end
    else
      match authSignOut (remote W) (calls s) with
      | Throw e => Some e
      | Return p =>
          match race p SIGN_OUT_TIMEOUT_MS "Sign out timeout" with
          | Throw e => Some e
          | Return _ => None
          end
      end
  else None.

(** ** The console loggers

    The helper writes its console lines through [console.logError],
    [console.logWarn] and [console.logDebug].  console-manager.js installs
    them and routes [console.log], [console.warn] and [console.error] the
    same way; simple-logger.js installs them and leaves the native methods
    alone.  Both decide by one table of levels what reaches the native
    console. *)

(** What the loggers take from the JavaScript runtime: the property names
    that [Object.prototype] defines, which the level table inherits as every
    object literal does; how two inherited members compare under [<=]; and
    [String.prototype.toUpperCase]. *)
Record Runtime : Type := mkRuntime {
  inherited : string -> bool;
  inherited_le : string -> string -> bool;
  toUpperCase : string -> string }.

(** [{ SILENT: 0, ERROR: 1, WARN: 2, INFO: 3, DEBUG: 4 }], the own
    properties of the table (console-manager.js lines 30-36, simple-logger.js
    lines 25-31). *)
Definition LOG_LEVELS (name : string) : option Z :=
  if String.eqb name "SILENT" then Some 0
  else if String.eqb name "ERROR" then Some 1
  else if String.eqb name "WARN" then Some 2
  else if String.eqb name "INFO" then Some 3
  else if String.eqb name "DEBUG" then Some 4
  else None.

(** What reading [table[name]] gives. *)
Inductive Read : Type :=
  | Num (n : Z)               (* an own property *)
  | Member (name : string)    (* a function or object inherited from Object.prototype *)
  | Undefined.

Definition read (R : Runtime) (name : string) : Read :=
  match LOG_LEVELS name with
  | Some n => Num n
  | None => if inherited R name then Member name else Undefined
  end.

(** [v || 1]: [0] and [undefined] are falsy, an inherited member is not. *)
Definition or_one (v : Read) : Read :=
  match v with
  | Num n => if n =? 0 then Num 1 else Num n
  | Member name => Member name
  | Undefined => Num 1
  end.

(** [a <= b].  [undefined] converts to NaN, and so does an inherited member
    against a number; a comparison with NaN is false. *)
Definition js_le (R : Runtime) (a b : Read) : bool :=
  match a, b with
  | Num m, Num n => m <=? n
  | Member j, Member k => inherited_le R j k
  | _, _ => false
  end.

(** The methods of the native console. *)
Inductive Method : Type :=
  | ConsoleLog | ConsoleInfo | ConsoleWarn | ConsoleError | ConsoleDebug.

(** [window.location] as the loggers read it; [param name] is
    [new URLSearchParams(window.location.search).get(name)]. *)
Record Location : Type := mkLocation {
  hostname : string;
  search : string;
  param : string -> option string }.

(** [a || b] on strings that may be [null]. *)
Definition or_else (a b : option string) : option string :=
  if given a then a else b.

Module ConsoleManager.

(** The manager: its level and what it has written to the native console,
    oldest first. *)
Record t : Type := mk {
  logLevel : string;
  originalConsole : list (Method * string) }.

Definition write (method : Method) (line : string) (m : t) : t :=
  {| logLevel := logLevel m; originalConsole := originalConsole m ++ [(method, line)] |}.

Section Manager.

Variable R : Runtime.

(** Lines 45-60. *)
Definition getLogLevelFromEnv (loc : Location) : string :=
  let urlLogLevel := or_else (param loc "loglevel") (param loc "debug") in
  match (if given urlLogLevel then urlLogLevel else None) with
  | Some level => toUpperCase R level
  | None =>
      let isDev := String.eqb (hostname loc) "localhost"
                   || String.eqb (hostname loc) "127.0.0.1"
                   || includes "debug=true" (search loc) in
      if isDev then "INFO" else "ERROR"
  end.

(** Lines 128-132. *)
Definition shouldLog (m : t) (level : string) : bool :=
  let currentLevel := or_one (read R (logLevel m)) in
  let messageLevel := or_one (read R level) in
  js_le R messageLevel currentLevel.

(** Lines 137-156. *)
Definition log (m : t) (level : string) (line : string) : t :=
  if negb (shouldLog m level) then m
  else if String.eqb level "ERROR" then write ConsoleError line m
  else if String.eqb level "WARN" then write ConsoleWarn line m
  else if String.eqb level "DEBUG" then write ConsoleDebug line m
  else write ConsoleLog line m.

(** Lines 16-40 and 65-76: the constructor and [init], on a console that
    has [native] written to it. *)
Definition constructor (loc : Location) (native : list (Method * string)) : t :=
  let level := getLogLevelFromEnv loc in
  let m := {| logLevel := if usable level then level else "ERROR";
              originalConsole := native |} in
  if shouldLog m "INFO" then write ConsoleInfo "Console Manager initialized" m else m.

(** Lines 161-171. *)
Definition setLogLevel (m : t) (level : string) : t :=
  let upperLevel := toUpperCase R level in
  if present (LOG_LEVELS upperLevel) then
    let m' := {| logLevel := upperLevel; originalConsole := originalConsole m |} in
    if shouldLog m' "INFO" then write ConsoleInfo "Log level changed to:" m' else m'
  else write ConsoleWarn "Invalid log level:" m.

(** Lines 176-178. *)
Definition getLogLevel (m : t) : string := logLevel m.

(** Lines 183-185. *)
Definition enableProductionMode (m : t) : t := setLogLevel m "SILENT".

(** Lines 190-192. *)
Definition enableDevelopmentMode (m : t) : t := setLogLevel m "DEBUG".

End Manager.

End ConsoleManager.

Module SimpleLogger.

Section Logger.

Variable R : Runtime.

(** Lines 10-23. *)
Definition getLogLevel (loc : Location) : string :=
  let urlLogLevel := or_else (param loc "loglevel") (param loc "debug") in
  match (if given urlLogLevel then urlLogLevel else None) with
  | Some level => toUpperCase R level
  | None =>
      let isDev := String.eqb (hostname loc) "localhost"
                   || String.eqb (hostname loc) "127.0.0.1"
                   || includes "debug=true" (search loc) in
      if isDev then "INFO" else "ERROR"
  end.

(** Line 33: [LOG_LEVELS[getLogLevel()] || LOG_LEVELS.ERROR]. *)
Definition currentLogLevel (loc : Location) : Read :=
  or_one (read R (getLogLevel loc)).

(** Lines 36-38. *)
Definition shouldLog (loc : Location) (level : string) : bool :=
  js_le R (read R level) (currentLogLevel loc).

(** Lines 41-63: the four methods, on a native console that has [native]
    written to it. *)
Definition logError (loc : Location) (line : string) (native : list (Method * string))
  : list (Method * string) :=
  if shouldLog loc "ERROR" then (native ++ [(ConsoleError, line)])%list else native.

Definition logWarn (loc : Location) (line : string) (native : list (Method * string))
  : list (Method * string) :=
  if shouldLog loc "WARN" then (native ++ [(ConsoleWarn, line)])%list else native.

Definition logInfo (loc : Location) (line : string) (native : list (Method * string))
  : list (Method * string) :=
  if shouldLog loc "INFO" then (native ++ [(ConsoleLog, line)])%list else native.

Definition logDebug (loc : Location) (line : string) (native : list (Method * string))
  : list (Method * string) :=
  if shouldLog loc "DEBUG" then (native ++ [(ConsoleLog, line)])%list else native.

End Logger.

End SimpleLogger.

(** The level under which the manager passes on a console line of the
    helper: [console.logDebug] is ['DEBUG'], [console.log] is ['INFO'],
    [console.logWarn] and [console.warn] are ['WARN'], [console.logError] and
    [console.error] are ['ERROR'] (console-manager.js lines 85-122). *)
Definition level_name (lvl : Level) : string :=
  match lvl with
  | LevelDebug => "DEBUG"
  | LevelLog => "INFO"
  | LevelWarn => "WARN"
  | LevelError => "ERROR"
  end.

(** The console lines that [m] adds to what [s] holds. *)
Definition printed {A} (m : M A) (s : Session) : list (Level * string) :=
  drop (length (console s)) (console (snd (m s))).

(** The manager after the helper has written [lines] through it. *)
Definition pass_on (R : Runtime) (m : ConsoleManager.t) (lines : list (Level * string))
  : ConsoleManager.t :=
  fold_left (fun m l => ConsoleManager.log R m (level_name (fst l)) (snd l)) lines m.

(** A runtime for examples: [Object.prototype] as the language defines it,
    and upper-casing of the letters a to z. *)
Definition upper_ascii (c : Ascii.ascii) : Ascii.ascii :=
  let n := Ascii.nat_of_ascii c in
  if ((97 <=? n)%nat && (n <=? 122)%nat)%bool then Ascii.ascii_of_nat (n - 32) else c.

Fixpoint upper (s : string) : string :=
  match s with
  | EmptyString => EmptyString
  | String c rest => String (upper_ascii c) (upper rest)
  end.

Definition prototype_names : list string :=
  ["constructor"; "hasOwnProperty"; "isPrototypeOf"; "propertyIsEnumerable";
   "toLocaleString"; "toString"; "valueOf"; "__proto__"; "__defineGetter__";
   "__defineSetter__"; "__lookupGetter__"; "__lookupSetter__"].

Definition browser : Runtime :=
  {| inherited := fun name => bool_decide (name ∈ prototype_names);
     inherited_le := fun _ _ => false;
     toUpperCase := upper |}.

(** A page opened on localhost with [?debug=true]. *)
Definition debug_true : Location :=
  {| hostname := "localhost"; search := "?debug=true";
     param := fun name => if String.eqb name "debug" then Some "true" else None |}.

(** ** The sign-in modal

    The second script of the file, lines 886-1113.  The modal is its two
    fields [isOpen] and [callbacks] together with the parts of the page it
    reads and writes: the class [hidden] of the dialog, the two inputs, the
    error box and the loading state of the button.  A success callback is a
    function of the caller; it is identified by a number, its calls are
    journalled, and it is taken not to reach back into the modal. *)
Module SimpleAuthModal.

Definition Callback : Type := nat.

(** [{ data, error }] of [auth.signInWithPassword]; [signin_user] is
    [data.user], by id. *)
Record SignInReply : Type := mkSignInReply {
  signin_user : option string;
  signin_error : option Error }.

Record t : Type := mk {
  isOpen : bool;
  callbacks : list Callback;
  hidden : bool;                           (* #simple-auth-modal has the class hidden *)
  email : string;                          (* #auth-email.value *)
  password : string;                       (* #auth-password.value *)
  errorText : string;                      (* #auth-error.textContent *)
  errorHidden : bool;                      (* #auth-error has the class hidden *)
  loading : bool;                          (* #auth-submit.disabled *)
  notified : list (Callback * string) }.   (* callback(user) calls, oldest first *)

(** Lines 889-893 and the markup of lines 897-937. *)
Definition constructor : t :=
  {| isOpen := false; callbacks := []; hidden := true; email := ""; password := "";
     errorText := ""; errorHidden := true; loading := false; notified := [] |}.

(** The user fills in the form. *)
Definition input (m : t) (e p : string) : t :=
  {| isOpen := isOpen m; callbacks := callbacks m; hidden := hidden m;
     email := e; password := p; errorText := errorText m;
     errorHidden := errorHidden m; loading := loading m; notified := notified m |}.

(** Lines 1033-1037. *)
Definition showError (m : t) (message : string) : t :=
  {| isOpen := isOpen m; callbacks := callbacks m; hidden := hidden m;
     email := email m; password := password m; errorText := message;
     errorHidden := false; loading := loading m; notified := notified m |}.

(** Lines 1039-1042. *)
Definition hideError (m : t) : t :=
  {| isOpen := isOpen m; callbacks := callbacks m; hidden := hidden m;
     email := email m; password := password m; errorText := errorText m;
     errorHidden := true; loading := loading m; notified := notified m |}.

(** Lines 1044-1058. *)
Definition setLoading (m : t) (isLoading : bool) : t :=
  {| isOpen := isOpen m; callbacks := callbacks m; hidden := hidden m;
     email := email m; password := password m; errorText := errorText m;
     errorHidden := errorHidden m; loading := isLoading; notified := notified m |}.

(** Lines 1060-1073; [None] is a call without a function. *)
Definition open (m : t) (successCallback : option Callback) : t :=
  {| isOpen := true;
     callbacks := match successCallback with
                  | Some cb => callbacks m ++ [cb]
                  | None => callbacks m
                  end;
     hidden := false; email := email m; password := password m;
     errorText := errorText m; errorHidden := errorHidden m; loading := loading m;
     notified := notified m |}.

(** Lines 1075-1087; [form.reset()] empties both inputs. *)
Definition close (m : t) : t :=
  {| isOpen := false; callbacks := []; hidden := true; email := ""; password := "";
     errorText := errorText m; errorHidden := true; loading := false;
     notified := notified m |}.

(** Lines 1090-1094. *)
Definition on (m : t) (event : string) (callback : Callback) : t :=
  if String.eqb event "login" then
    {| isOpen := isOpen m; callbacks := callbacks m ++ [callback]; hidden := hidden m;
       email := email m; password := password m; errorText := errorText m;
       errorHidden := errorHidden m; loading := loading m; notified := notified m |}
  else m.

(** Lines 1016-1031. *)
Definition getErrorMessage (error : Error) : string :=
  if usable (message error) then
    if includes "Invalid login credentials" (message error) then
      "Invalid email or password"
    else if includes "Email not confirmed" (message error) then
      "Please check your email and confirm your account"
    else if includes "Too many requests" (message error) then
      "Too many login attempts. Please wait a moment and try again"
    else message error
  else "Authentication failed. Please try again.".

(** Lines 996-1002: [this.callbacks.forEach(callback => { try {
    callback(user) } catch (callbackError) {} })].  A callback that throws is
    caught, so the loop goes on to the next one either way. *)
Definition notify (m : t) (user : string) : t :=
  {| isOpen := isOpen m; callbacks := callbacks m; hidden := hidden m;
     email := email m; password := password m; errorText := errorText m;
     errorHidden := errorHidden m; loading := loading m;
     notified := notified m ++ map (fun callback => (callback, user)) (callbacks m) |}.

Section Submit.

(** [String.prototype.trim]. *)
Variable trim : string -> string.

(** Lines 969-982, up to the [await]: [Some (email, password)] is the
    sign-in request that goes out, [None] the early [return]. *)
Definition handleSubmit_request (m : t) : t * option (string * string) :=
  let email := trim (email m) in
  let password := password m in
  if negb (usable email) || negb (usable password) then
    (showError m "Please enter both email and password", None)
  else (hideError (setLoading m true), Some (email, password)).

(** Lines 983-1014, from the [await] on; [answer] is how the sign-in
    settled. *)
Definition handleSubmit_settle (m : t) (answer : Completion SignInReply) : t :=
  let outcome : t + Error :=
    match answer with
    | Throw error => inr error
    | Return reply =>
        match signin_error reply with
        | Some error => inr error
        | None =>
            match signin_user reply with
            | Some user => inl (close (notify m user))
            | None => inr (mkError "Authentication failed - no user returned")
            end
        end
    end in
  setLoading (match outcome with
              | inl m' => m'
              | inr error => showError m (getErrorMessage error)
              end) false.

(** Lines 969-1014, when nothing else happens while the sign-in is awaited. *)
Definition handleSubmit (signInWithPassword : string -> string -> Completion SignInReply)
    (m : t) : t :=
  match handleSubmit_request m with
  | (m', Some (email, password)) => handleSubmit_settle m' (signInWithPassword email password)
  | (m', None) => m'
  end.

(** The error that a settled sign-in raises inside [handleSubmit], if any:
    a rejection, the [error] of the reply, or a reply without a user. *)
Definition sign_in_error (answer : Completion SignInReply) : option Error :=
  match answer with
  | Throw error => Some error
  | Return reply =>
      match signin_error reply with
      | Some error => Some error
      | None =>
          match signin_user reply with
          | Some _ => None
          | None => Some (mkError "Authentication failed - no user returned")
          end
      end
  end.

(** What can happen to the modal: the calls of its interface, the user's
    typing, the close button or a click on the backdrop, the Escape key
    (lines 953-965), and the two halves of a submission. *)
Inductive Event : Type :=
  | Open (successCallback : option Callback)
  | On (event : string) (callback : Callback)
  | Input (e p : string)
  | Close
  | Escape
  | Request
  | Settle (answer : Completion SignInReply).

Definition react (m : t) (ev : Event) : t :=
  match ev with
  | Open successCallback => open m successCallback
  | On event callback => on m event callback
  | Input e p => input m e p
  | Close => close m
  | Escape => if isOpen m then close m else m
  | Request => fst (handleSubmit_request m)
  | Settle answer => handleSubmit_settle m answer
  end.

Definition after (events : list Event) : t := fold_left react events constructor.

End Submit.

(** The event registers [callback]. *)
Definition registers (callback : Callback) (ev : Event) : bool :=
  match ev with
  | Open (Some cb) => Nat.eqb cb callback
  | On event cb => String.eqb event "login" && Nat.eqb cb callback
  | _ => false
  end.

(** How often [callback] has been registered in [events], how often it is
    waiting in [callbacks], and how often it has been called. *)
Definition registered (callback : Callback) (events : list Event) : nat :=
  length (filter (fun ev => registers callback ev = true) events).

Definition waiting (callback : Callback) (m : t) : nat :=
  length (filter (fun cb => Nat.eqb cb callback = true) (callbacks m)).

Definition called (callback : Callback) (m : t) : nat :=
  length (filter (fun call => Nat.eqb (fst call) callback = true) (notified m)).

End SimpleAuthModal.

(** [trim] on ASCII white space, for examples. *)
Definition is_space (c : Ascii.ascii) : bool :=
  bool_decide (Ascii.nat_of_ascii c ∈ [32; 9; 10; 13]%nat).

Fixpoint strip_left (s : string) : string :=
  match s with
  | String c rest => if is_space c then strip_left rest else s
  | EmptyString => EmptyString
  end.

Definition strip (s : string) : string :=
  String.rev (strip_left (String.rev (strip_left s))).



(** * Properties *)

(** ** Rules for computations *)

Ltac unfold_js :=
  unfold logError, logInfo, enhancedOp, sdkQuery, netOp, doFetch, startGetUser,
    awaitJson, safeJSONParse in *;
  unfold try_catch, bind, ret, throw, when, log, record, issue, awaitRace,
    get_authTimeoutLogged, set_authTimeoutLogged, getStoredId, setStoredId,
    removeStoredId in *;
  cbv beta in *.

(** Case analysis on the innermost scrutinee of the goal; a scrutinee whose
    value is already known is rewritten instead. *)
Ltac split_atom x :=
  lazymatch x with
  | negb ?y => split_atom y
  | ?y && _ => split_atom y
  | ?y || _ => split_atom y
  | _ =>
      first
        [ match goal with
          | H : ?y = _ |- _ =>
              lazymatch x with
              | context [y] => rewrite H
              end
          end
        | destruct x eqn:? ]
  end.

Ltac case_step :=
  match goal with
  | |- context [match ?x with _ => _ end] =>
      lazymatch x with
      | context [match _ with _ => _ end] => fail
      | _ => split_atom x
      end
  end.

Ltac cases := repeat (simpl; try case_step); simpl.

Lemma hoare_bind {A B} (P : Session -> Prop) (m : M A) (k : A -> M B)
    (Q : Completion A -> Session -> Prop) (R : Completion B -> Session -> Prop) :
  hoare P m Q ->
  (forall a, hoare (Q (Return a)) (k a) R) ->
  (forall e s, Q (Throw e) s -> R (Throw e) s) ->
  hoare P (bind m k) R.
Proof.
  intros Hm Hk He s HP. specialize (Hm s HP). unfold bind.
  destruct (m s) as [[a | e] s1]; simpl in *.
  - apply Hk, Hm.
  - apply He, Hm.
Qed.

Lemma hoare_try_catch {A} (P : Session -> Prop) (m : M A) (h : Error -> M A)
    (Q R : Completion A -> Session -> Prop) :
  hoare P m Q ->
  (forall a s, Q (Return a) s -> R (Return a) s) ->
  (forall e, hoare (Q (Throw e)) (h e) R) ->
  hoare P (try_catch m h) R.
Proof.
  intros Hm Hr Hh s HP. specialize (Hm s HP). unfold try_catch.
  destruct (m s) as [[a | e] s1]; simpl in *.
  - apply Hr, Hm.
  - apply Hh, Hm.
Qed.

Lemma hoare_weaken {A} (P P' : Session -> Prop) (m : M A)
    (Q Q' : Completion A -> Session -> Prop) :
  hoare P m Q ->
  (forall s, P' s -> P s) ->
  (forall c s, Q c s -> Q' c s) ->
  hoare P' m Q'.
Proof. intros Hm HP HQ s Hs. apply HQ, Hm, HP, Hs. Qed.

Lemma preserves_bind {A B} (I : Session -> Prop) (m : M A) (k : A -> M B) :
  preserves I m -> (forall a, preserves I (k a)) -> preserves I (bind m k).
Proof. intros Hm Hk. eapply hoare_bind; [exact Hm | exact Hk | auto]. Qed.

Lemma preserves_try_catch {A} (I : Session -> Prop) (m : M A) (h : Error -> M A) :
  preserves I m -> (forall e, preserves I (h e)) -> preserves I (try_catch m h).
Proof. intros Hm Hh. eapply hoare_try_catch; [exact Hm | auto | exact Hh]. Qed.

Lemma preserves_pure {A} (I : Session -> Prop) (m : M A) :
  (forall s, snd (m s) = s) -> preserves I m.
Proof. intros Hm s Hs. simpl. rewrite Hm. exact Hs. Qed.

Lemma preserves_run (I : Session -> Prop) (W : Window) :
  (forall o s, I s -> I (step W s o)) ->
  forall ops s, I s -> I (run W ops s).
Proof.
  intros Hstep ops. unfold run.
  induction ops as [| o ops IH]; intros s Hs; simpl; [exact Hs |].
  apply IH, Hstep, Hs.
Qed.

(** Walk a computation along its binds, handlers and branches; [leaf] closes
    what is left. *)
Ltac walk leaf :=
  lazymatch goal with
  | |- preserves _ (bind _ _) =>
      apply preserves_bind; [walk leaf | intros ?; walk leaf]
  | |- preserves _ (try_catch _ _) =>
      apply preserves_try_catch; [walk leaf | intros ?; walk leaf]
  | |- preserves _ (when _ _) => unfold when; walk leaf
  | |- preserves _ (logError _ _ _ _) => unfold logError; walk leaf
  | |- preserves _ (logInfo _ _) => unfold logInfo; walk leaf
  | |- preserves _ (enhancedOp _ _) => unfold enhancedOp; walk leaf
  | |- preserves _ (sdkQuery _ _) => unfold sdkQuery; walk leaf
  | |- preserves _ (netOp _ _) => unfold netOp; walk leaf
  | |- preserves _ (doFetch _ _) => unfold doFetch; walk leaf
  | |- preserves _ (match ?x with _ => _ end) => destruct x; walk leaf
  | |- _ => leaf
  end.

Ltac pure_leaf :=
  apply preserves_pure; intros ?; reflexivity.

Lemma total_try_catch {A} (m : M A) (h : Error -> M A) :
  (forall e, total (h e)) -> total (try_catch m h).
Proof.
  intros Hh s. unfold try_catch. destruct (m s) as [[a | e] s1]; simpl; [exact I |].
  apply Hh.
Qed.

Lemma total_bind {A B} (m : M A) (k : A -> M B) :
  total m -> (forall a, total (k a)) -> total (bind m k).
Proof.
  intros Hm Hk s. unfold bind. specialize (Hm s).
  destruct (m s) as [[a | e] s1]; simpl in *; [apply Hk | contradiction].
Qed.

Lemma total_log lvl line : total (log lvl line).
Proof. intros s. exact I. Qed.

Lemma total_ret {A} (a : A) : total (ret a).
Proof. intros s. exact I. Qed.

Lemma total_logError W code e sev : total (logError W code e sev).
Proof. intros s. unfold logError, when. destruct (errorHandler W); exact I. Qed.

Lemma returns_inv {A} (c : Completion A) : returns c -> exists a, c = Return a.
Proof. destruct c; simpl; [eauto | contradiction]. Qed.

(** ** The session lookup *)

Lemma race_unanswered {A} (p : Settled A) limit msg :
  answers_within limit p = false -> race p limit msg = Throw (mkError msg).
Proof. destruct p; simpl; intros H; rewrite ?H; reflexivity. Qed.

Lemma getCurrentUserId_total W : total (getCurrentUserId W).
Proof.
  intros s. unfold getCurrentUserId. unfold_js. cases; exact I.
Qed.

Lemma getCurrentUserId_value W s :
  fst (getCurrentUserId W s) = Return JNull \/
  exists id, fst (getCurrentUserId W s) = Return (JStr id).
Proof.
  unfold getCurrentUserId. unfold_js. cases; eauto.
Qed.

Lemma getCurrentUserId_slot W s :
  anon_profile_id (snd (getCurrentUserId W s)) = anon_profile_id s.
Proof.
  unfold getCurrentUserId. unfold_js. cases; reflexivity.
Qed.

Lemma getCurrentUserId_signed_in W s u :
  signed_in W s u ->
  fst (getCurrentUserId W s) = Return (JStr u) /\
  anon_profile_id (snd (getCurrentUserId W s)) = anon_profile_id s.
Proof.
  intros (Hc & Hu & ms & Hms & Hget). split; [| apply getCurrentUserId_slot].
  unfold getCurrentUserId. unfold_js. rewrite Hc. simpl. rewrite Hget. simpl.
  apply Z.ltb_lt in Hms. rewrite Hms. reflexivity.
Qed.

Lemma getCurrentUserId_truthy W s id :
  fst (getCurrentUserId W s) = Return (JStr id) ->
  usable id = true ->
  signed_in W s id.
Proof.
  intros H Hid. revert H.
  unfold signed_in, getCurrentUserId. unfold_js.
  destruct (supabaseClient W); simpl; [| discriminate].
  destruct (getUser (remote W) (calls s)) as [[ms [user err] | ms e | ] | e]; simpl.
  - destruct (ms <? AUTH_TIMEOUT_MS) eqn:Hms; simpl.
    + destruct err; simpl.
      { cases; discriminate. }
      destruct user; simpl; [| discriminate].
      intros [= ->]. repeat split; try assumption.
      exists ms. split; [apply Z.ltb_lt, Hms | reflexivity].
    + cases; discriminate.
  - cases; discriminate.
  - cases; discriminate.
  - cases; discriminate.
Qed.

Lemma getCurrentUserId_unauthenticated W s :
  unauthenticated W s ->
  exists v, fst (getCurrentUserId W s) = Return v /\ truthy v = false.
Proof.
  intros Hno.
  destruct (getCurrentUserId_value W s) as [H | [id H]].
  - exists JNull. split; [exact H | reflexivity].
  - exists (JStr id). split; [exact H |].
    destruct (usable id) eqn:Hid; [| unfold usable in Hid; simpl; exact Hid].
    exfalso. apply (Hno id), (getCurrentUserId_truthy W s id H Hid).
Qed.

(** Every caller is either authenticated as some user or unauthenticated. *)
Lemma identity_exists W s : exists who, identity W s who.
Proof.
  destruct (getCurrentUserId_value W s) as [H | [id H]].
  - exists None. intros u Hu.
    destruct (getCurrentUserId_signed_in W s u Hu) as [Hv _]. congruence.
  - destruct (usable id) eqn:Hid.
    + exists (Some id). apply (getCurrentUserId_truthy W s id H Hid).
    + exists None. intros u Hu.
      destruct (getCurrentUserId_signed_in W s u Hu) as [Hv _].
      destruct Hu as (_ & Hu & _). congruence.
Qed.

(** ** Timeout diagnostics never exceed their budget *)

Ltac budget_leaf :=
  first
    [ assumption
    | pure_leaf
    | let st := fresh "st" in
      let Hst := fresh "Hst" in
      intros st Hst; unfold within_budget, timeout_budget, diagnostics in *; simpl;
      rewrite ?filter_app, ?length_app; simpl; first [exact Hst | lia] ].

Create HintDb budget.

Ltac budget_block := walk ltac:(first [solve [auto with budget] | budget_leaf]).

Lemma getCurrentUserId_budget W k : preserves (within_budget k) (getCurrentUserId W).
Proof.
  intros s Hs. unfold within_budget, timeout_budget, diagnostics in *.
  unfold getCurrentUserId. unfold_js.
  destruct (authTimeoutLogged s) eqn:Hflag;
    cases;
    repeat match goal with
      | H : context [authTimeoutLogged s] |- _ =>
          lazymatch type of H with
          | authTimeoutLogged s = _ => fail
          | _ => rewrite Hflag in H
          end
      end;
    rewrite ?Hflag, ?filter_app, ?length_app; simpl; try lia;
    rewrite ?Bool.andb_false_r in *; try discriminate.
Qed.
#[local] Hint Resolve getCurrentUserId_budget : budget.

Lemma getCurrentUserIdentifier_budget W k :
  preserves (within_budget k) (getCurrentUserIdentifier W).
Proof. unfold getCurrentUserIdentifier. budget_block. Qed.

Lemma verifyStored_budget W k o : preserves (within_budget k) (verifyStored W o).
Proof. unfold verifyStored. budget_block. Qed.

Lemma createEnhanced_budget W k : preserves (within_budget k) (createEnhanced W).
Proof. unfold createEnhanced. budget_block. Qed.

Lemma insertSdk_budget W k sh prev : preserves (within_budget k) (insertSdk W sh prev).
Proof. unfold insertSdk. budget_block. Qed.
#[local] Hint Resolve getCurrentUserIdentifier_budget verifyStored_budget
  createEnhanced_budget insertSdk_budget : budget.

Lemma createSdk_budget W k : preserves (within_budget k) (createSdk W).
Proof. unfold createSdk. budget_block. Qed.
#[local] Hint Resolve createSdk_budget : budget.

Lemma provisionStructured_budget W k : preserves (within_budget k) (provisionStructured W).
Proof. unfold provisionStructured. budget_block. Qed.

Lemma evictIf404_budget k r : preserves (within_budget k) (evictIf404 r).
Proof. unfold evictIf404. budget_block. Qed.
#[local] Hint Resolve provisionStructured_budget evictIf404_budget : budget.

Lemma verifyRest_budget W k o : preserves (within_budget k) (verifyRest W o).
Proof. unfold verifyRest. budget_block. Qed.

Lemma createViaNetwork_budget W k shapes :
  preserves (within_budget k) (createViaNetwork W shapes).
Proof. induction shapes as [| sh rest IH]; simpl; budget_block. Qed.

Lemma createViaFetch_budget W k shapes :
  preserves (within_budget k) (createViaFetch W shapes).
Proof. induction shapes as [| sh rest IH]; simpl; budget_block. Qed.
#[local] Hint Resolve verifyRest_budget createViaNetwork_budget createViaFetch_budget : budget.

Lemma provisionRest_budget W k : preserves (within_budget k) (provisionRest W).
Proof. unfold provisionRest. budget_block. Qed.
#[local] Hint Resolve provisionRest_budget : budget.

Lemma restFallback_budget W k error : preserves (within_budget k) (restFallback W error).
Proof. unfold restFallback. budget_block. Qed.
#[local] Hint Resolve restFallback_budget : budget.

Lemma getOrCreateAnonymousProfile_budget W k :
  preserves (within_budget k) (getOrCreateAnonymousProfile W).
Proof. unfold getOrCreateAnonymousProfile. budget_block. Qed.

Lemma clearAnonymousProfile_budget W k :
  preserves (within_budget k) (clearAnonymousProfile W).
Proof. unfold clearAnonymousProfile. budget_block. Qed.
#[local] Hint Resolve getOrCreateAnonymousProfile_budget clearAnonymousProfile_budget : budget.

Lemma requireAuthentication_budget W k :
  preserves (within_budget k) (requireAuthentication W).
Proof. unfold requireAuthentication. budget_block. Qed.

Lemma requireUserIdentifier_budget W k :
  preserves (within_budget k) (requireUserIdentifier W).
Proof. unfold requireUserIdentifier. budget_block. Qed.

Lemma addUserIdentifierToData_budget W k data :
  preserves (within_budget k) (addUserIdentifierToData W data).
Proof. unfold addUserIdentifierToData. budget_block. Qed.
#[local] Hint Resolve requireAuthentication_budget addUserIdentifierToData_budget : budget.

Lemma createInsertPayload_budget W k data requireAuth :
  preserves (within_budget k) (createInsertPayload W data requireAuth).
Proof. unfold createInsertPayload. budget_block. Qed.

Lemma getUserQueryFilter_budget W k allowAnonymous :
  preserves (within_budget k) (getUserQueryFilter W allowAnonymous).
Proof. unfold getUserQueryFilter. budget_block. Qed.

Lemma signOut_budget W k : preserves (within_budget k) (signOut W).
Proof. unfold signOut. budget_block. Qed.

Lemma step_budget W k o s : within_budget k s -> within_budget k (step W s o).
Proof.
  destruct o; simpl.
  - apply getCurrentUserId_budget.
  - apply getCurrentUserIdentifier_budget.
  - apply getOrCreateAnonymousProfile_budget.
  - apply requireAuthentication_budget.
  - apply requireUserIdentifier_budget.
  - apply addUserIdentifierToData_budget.
  - apply createInsertPayload_budget.
  - apply getUserQueryFilter_budget.
  - apply clearAnonymousProfile_budget.
  - apply signOut_budget.
Qed.

Lemma session_budget W ops slot : within_budget 1 (run W ops (fresh slot)).
Proof.
  apply preserves_run.
  - intros o s. apply step_budget.
  - unfold within_budget, timeout_budget, diagnostics. simpl. lia.
Qed.

Lemma diagnostics_le_budget s : (diagnostics "AUTH_TIMEOUT" s <= timeout_budget s)%nat.
Proof. unfold timeout_budget. lia. Qed.

Lemma getCurrentUserId_on_timeout W s p :
  supabaseClient W = true ->
  getUser (remote W) (calls s) = Return p ->
  answers_within AUTH_TIMEOUT_MS p = false ->
  fst (getCurrentUserId W s) = Return JNull /\
  handled (snd (getCurrentUserId W s)) =
    (if errorHandler W && negb (authTimeoutLogged s)
     then (handled s ++ [LoggedError "AUTH_TIMEOUT" (mkError "Authentication timeout") low])%list
     else handled s).
Proof.
  intros Hc Hget Hlate.
  unfold getCurrentUserId. unfold_js. rewrite Hc. simpl. rewrite Hget. simpl.
  rewrite (race_unanswered _ _ _ Hlate). simpl.
  destruct (errorHandler W && negb (authTimeoutLogged s)); simpl; split; reflexivity.
Qed.

(** C3: at any point of any session, a session lookup that is not answered
    within the 5000 ms limit makes [getCurrentUserId] return [null] without
    throwing; once [authTimeoutLogged] is set it hands nothing more to the
    error handler, and the session as a whole never holds more than one
    [AUTH_TIMEOUT] diagnostic.  (The debug line on the console is written at
    every timeout; the diagnostic that the flag gates is the error-handler
    record.) *)
Theorem getCurrentUserId_timeout W ops slot p :
  let s := run W ops (fresh slot) in
  supabaseClient W = true ->
  getUser (remote W) (calls s) = Return p ->
  answers_within AUTH_TIMEOUT_MS p = false ->
  fst (getCurrentUserId W s) = Return JNull /\
  (authTimeoutLogged s = true -> handled (snd (getCurrentUserId W s)) = handled s) /\
  (diagnostics "AUTH_TIMEOUT" (snd (getCurrentUserId W s)) <= 1)%nat.
Proof.
  intros s Hc Hget Hlate.
  destruct (getCurrentUserId_on_timeout W s p Hc Hget Hlate) as [Hret Hlog].
  split; [exact Hret |]. split.
  - intros Hflag. rewrite Hlog, Hflag, Bool.andb_false_r. reflexivity.
  - pose proof (session_budget W (ops ++ [CallGetCurrentUserId]) slot) as Hb.
    unfold run in Hb. rewrite fold_left_app in Hb. simpl in Hb. fold (run W ops (fresh slot)) in Hb.
    pose proof (diagnostics_le_budget (snd (getCurrentUserId W s))).
    unfold within_budget in Hb. subst s. lia.
Qed.

Lemma getCurrentUserId_timeout_witness :
  let W := full_page silent in
  let s := run W [CallGetCurrentUserId; CallGetUserQueryFilter true] (fresh None) in
  fst (getCurrentUserId W s) = Return JNull /\
  (authTimeoutLogged s = true -> handled (snd (getCurrentUserId W s)) = handled s) /\
  (diagnostics "AUTH_TIMEOUT" (snd (getCurrentUserId W s)) <= 1)%nat.
Proof.
  apply (getCurrentUserId_timeout (full_page silent)
           [CallGetCurrentUserId; CallGetUserQueryFilter true] None Pending);
    reflexivity.
Defined.

(** ** Service errors of the session lookup *)

(** C4, as amended: on a service-reported error [getCurrentUserId] returns
    [null] and writes a console warning every time; the medium-severity
    [AUTH_GET_USER] record goes to the error handler only while
    [authTimeoutLogged] is still unset, and emitting it sets the flag, which
    the timeout diagnostic shares. *)
Theorem getCurrentUserId_service_error W s ms reply err :
  supabaseClient W = true ->
  getUser (remote W) (calls s) = Return (Resolves ms reply) ->
  ms < AUTH_TIMEOUT_MS ->
  reply_error reply = Some err ->
  fst (getCurrentUserId W s) = Return JNull /\
  console (snd (getCurrentUserId W s)) =
    (console s ++ [(LevelWarn, "Error getting current user:")])%list /\
  handled (snd (getCurrentUserId W s)) =
    (if errorHandler W && negb (authTimeoutLogged s)
     then (handled s ++ [LoggedError "AUTH_GET_USER" err medium])%list
     else handled s) /\
  authTimeoutLogged (snd (getCurrentUserId W s)) = authTimeoutLogged s || errorHandler W.
Proof.
  intros Hc Hget Hms Herr. apply Z.ltb_lt in Hms.
  unfold getCurrentUserId. unfold_js. rewrite Hc. simpl. rewrite Hget. simpl.
  rewrite Hms, Herr. simpl.
  destruct (errorHandler W), (authTimeoutLogged s); simpl; repeat split; reflexivity.
Qed.

Lemma getCurrentUserId_service_error_witness :
  let W := full_page refusing in
  let s := fresh None in
  fst (getCurrentUserId W s) = Return JNull /\
  console (snd (getCurrentUserId W s)) =
    (console s ++ [(LevelWarn, "Error getting current user:")])%list /\
  handled (snd (getCurrentUserId W s)) =
    (if errorHandler W && negb (authTimeoutLogged s)
     then (handled s ++ [LoggedError "AUTH_GET_USER" denied medium])%list
     else handled s) /\
  authTimeoutLogged (snd (getCurrentUserId W s)) = authTimeoutLogged s || errorHandler W.
Proof.
  apply (getCurrentUserId_service_error (full_page refusing) (fresh None) 20
           (mkAuthReply None (Some denied)) denied); reflexivity.
Defined.

(** C4 fails as stated: of two service errors in a row only the first
    reaches the error handler. *)
Lemma service_error_diagnostic_suppressed :
  let W := full_page refusing in
  let s1 := run W [CallGetCurrentUserId] (fresh None) in
  getUser (remote W) (calls s1) = Return (Resolves 20 (mkAuthReply None (Some denied))) /\
  handled s1 = [LoggedError "AUTH_GET_USER" denied medium] /\
  handled (snd (getCurrentUserId W s1)) = handled s1.
Proof. repeat split; reflexivity. Qed.

(** ** Identifier and payload binders *)

Lemma getCurrentUserIdentifier_cases W s :
  exists v s1, getCurrentUserId W s = (Return v, s1) /\
    ((truthy v = true /\
      fst (getCurrentUserIdentifier W s) = Return (authenticated_identifier v)) \/
     (truthy v = false /\
      fst (getCurrentUserIdentifier W s) = Return login_identifier)).
Proof.
  pose proof (getCurrentUserId_total W s) as Htot.
  unfold getCurrentUserIdentifier, try_catch, bind.
  destruct (getCurrentUserId W s) as [[v | e] s1]; simpl in Htot; [| contradiction].
  exists v, s1. split; [reflexivity |].
  destruct (truthy v); [left | right]; split; reflexivity.
Qed.

Lemma authenticated_identifier_user v : prop (authenticated_identifier v) "user_id" = v.
Proof.
  unfold prop, authenticated_identifier.
  rewrite lookup_insert_ne by discriminate. rewrite lookup_singleton_eq. reflexivity.
Qed.

Lemma authenticated_identifier_anon v :
  authenticated_identifier v !! "anon_profile_id" = None.
Proof.
  unfold authenticated_identifier.
  rewrite lookup_insert_ne by discriminate. rewrite lookup_singleton_ne by discriminate.
  reflexivity.
Qed.

Lemma login_identifier_user : prop login_identifier "user_id" = JNull.
Proof.
  unfold prop, login_identifier.
  rewrite !lookup_insert_ne by discriminate. rewrite lookup_singleton_eq. reflexivity.
Qed.

Lemma login_identifier_anon : login_identifier !! "anon_profile_id" = None.
Proof.
  unfold login_identifier.
  rewrite !lookup_insert_ne by discriminate. rewrite lookup_singleton_ne by discriminate.
  reflexivity.
Qed.

(** What [getCurrentUserIdentifier] gives to each kind of caller. *)
Lemma getCurrentUserIdentifier_identity W s who :
  identity W s who ->
  fst (getCurrentUserIdentifier W s) =
    Return (match who with
            | Some u => authenticated_identifier (JStr u)
            | None => login_identifier
            end).
Proof.
  intros Hwho.
  destruct (getCurrentUserIdentifier_cases W s) as (v & s1 & Hv & Hcases).
  destruct who as [u |]; simpl in Hwho.
  - destruct (getCurrentUserId_signed_in W s u Hwho) as [Hu _].
    rewrite Hv in Hu. simpl in Hu. injection Hu as ->.
    destruct Hcases as [[_ H] | [Hf _]]; [exact H |].
    destruct Hwho as (_ & Husable & _). unfold usable in Husable. simpl in Hf. congruence.
  - destruct (getCurrentUserId_unauthenticated W s Hwho) as (v' & Hv' & Hfalsy).
    rewrite Hv in Hv'. simpl in Hv'. injection Hv' as <-.
    destruct Hcases as [[Ht _] | [_ H]]; [congruence | exact H].
Qed.

Lemma prop_insert_eq (o : gmap string JsVal) k v : prop (<[k := v]> o) k = v.
Proof. unfold prop. rewrite lookup_insert_eq. reflexivity. Qed.

Lemma prop_insert_ne (o : gmap string JsVal) k k' v :
  k <> k' -> prop (<[k := v]> o) k' = prop o k'.
Proof. intros Hne. unfold prop. rewrite lookup_insert_ne by exact Hne. reflexivity. Qed.

(** C1, as amended: with [requireAuth = false] the payload never carries two
    non-null ownership fields.  [anon_profile_id] is always [undefined],
    because the identifier has no such property; [user_id] is the resolved id
    for an authenticated caller and [null] for an unauthenticated one; every
    other field is the input's. *)
Theorem createInsertPayload_optional_auth W s who (data : gmap string JsVal) :
  identity W s who ->
  exists payload,
    fst (createInsertPayload W data false s) = Return payload /\
    payload !! "anon_profile_id" = Some JUndefined /\
    payload !! "user_id" = Some (match who with Some u => JStr u | None => JNull end) /\
    (forall k, k <> "user_id" -> k <> "anon_profile_id" -> payload !! k = data !! k).
Proof.
  intros Hwho. pose proof (getCurrentUserIdentifier_identity W s who Hwho) as Hid.
  unfold createInsertPayload, addUserIdentifierToData, bind.
  destruct (getCurrentUserIdentifier W s) as [[identifier | e] s1]; simpl in Hid;
    [| discriminate].
  injection Hid as ->. simpl. eexists. split; [reflexivity |].
  split; [| split].
  - rewrite lookup_insert_eq. f_equal. unfold prop.
    destruct who; [rewrite authenticated_identifier_anon | rewrite login_identifier_anon];
      reflexivity.
  - rewrite lookup_insert_ne by discriminate. rewrite lookup_insert_eq. f_equal.
    destruct who; [apply authenticated_identifier_user | apply login_identifier_user].
  - intros k Hu Ha. rewrite !lookup_insert_ne by congruence. reflexivity.
Qed.

Lemma serving_signed_in u known made s :
  usable u = true -> signed_in (full_page (serving (Some u) known made)) s u.
Proof.
  intros Hu. repeat split; [exact Hu |]. exists 20. split; reflexivity.
Qed.

Lemma createInsertPayload_optional_auth_witness :
  let W := full_page (serving (Some "U1") [] "G1") in
  exists payload,
    fst (createInsertPayload W {["foo" := JNum 1]} false (fresh None)) = Return payload /\
    payload !! "anon_profile_id" = Some JUndefined /\
    payload !! "user_id" = Some (JStr "U1") /\
    (forall k, k <> "user_id" -> k <> "anon_profile_id" ->
               payload !! k = ({["foo" := JNum 1]} : gmap string JsVal) !! k).
Proof.
  apply (createInsertPayload_optional_auth (full_page (serving (Some "U1") [] "G1"))
           (fresh None) (Some "U1") {["foo" := JNum 1]}).
  apply serving_signed_in. reflexivity.
Defined.

(** C1 fails as stated: for an unauthenticated caller both ownership fields
    of the payload are null or undefined. *)
Lemma unauthenticated_payload_has_no_owner :
  exists payload,
    fst (createInsertPayload (full_page silent) {["foo" := JNum 1]} false (fresh None))
      = Return payload /\
    nullish (prop payload "user_id") = true /\
    nullish (prop payload "anon_profile_id") = true.
Proof.
  eexists. split; [reflexivity |].
  rewrite prop_insert_eq, prop_insert_ne, prop_insert_eq by discriminate.
  split; reflexivity.
Qed.

(** C7: with [requireAuth = true], [createInsertPayload] throws
    ['User not authenticated'] and yields no payload for an unauthenticated
    caller; for a caller authenticated as [u] it returns the input with
    [user_id = u] and [anon_profile_id = null], the other fields unchanged. *)
Theorem createInsertPayload_require_auth W s who (data : gmap string JsVal) :
  identity W s who ->
  match who with
  | None =>
      fst (createInsertPayload W data true s) = Throw (mkError "User not authenticated")
  | Some u =>
      fst (createInsertPayload W data true s) =
        Return (<["anon_profile_id" := JNull]> (<["user_id" := JStr u]> data)) /\
      (forall k, k <> "user_id" -> k <> "anon_profile_id" ->
         (<["anon_profile_id" := JNull]> (<["user_id" := JStr u]> data)) !! k = data !! k)
  end.
Proof.
  intros Hwho. unfold createInsertPayload, requireAuthentication, bind.
  destruct who as [u |]; simpl in Hwho.
  - destruct (getCurrentUserId_signed_in W s u Hwho) as [Hu _].
    destruct Hwho as (_ & Husable & _). unfold usable in Husable.
    destruct (getCurrentUserId W s) as [[v | e] s1]; simpl in Hu; [| discriminate].
    injection Hu as ->. simpl. rewrite Husable. simpl. split; [reflexivity |].
    intros k Hk Ha. rewrite !lookup_insert_ne by congruence. reflexivity.
  - destruct (getCurrentUserId_unauthenticated W s Hwho) as (v' & Hv' & Hfalsy).
    destruct (getCurrentUserId W s) as [[v | e] s1]; simpl in Hv'; [| discriminate].
    injection Hv' as ->. rewrite Hfalsy. reflexivity.
Qed.

Lemma silent_unauthenticated s : unauthenticated (full_page silent) s.
Proof. intros u (_ & _ & ms & _ & Hget). discriminate Hget. Qed.

Lemma createInsertPayload_require_auth_witness :
  fst (createInsertPayload (full_page silent) {["foo" := JNum 1]} true (fresh None))
    = Throw (mkError "User not authenticated") /\
  fst (createInsertPayload (full_page (serving (Some "U1") [] "G1"))
         {["foo" := JNum 1]} true (fresh None))
    = Return (<["anon_profile_id" := JNull]>
                (<["user_id" := JStr "U1"]> {["foo" := JNum 1]})).
Proof.
  split.
  - apply (createInsertPayload_require_auth (full_page silent) (fresh None) None
             {["foo" := JNum 1]}).
    apply silent_unauthenticated.
  - apply (createInsertPayload_require_auth (full_page (serving (Some "U1") [] "G1"))
             (fresh None) (Some "U1") {["foo" := JNum 1]}).
    apply serving_signed_in. reflexivity.
Defined.

(** C10: [requireUserIdentifier] throws ['No valid user identifier
    available'] for every unauthenticated caller, whatever the storage slot
    holds, and returns the identifier of an authenticated one, so it succeeds
    exactly when the caller is authenticated; the identifier never has an
    [anon_profile_id] property. *)
Theorem requireUserIdentifier_authenticated_only W s who :
  identity W s who ->
  (exists identifier,
     fst (getCurrentUserIdentifier W s) = Return identifier /\
     identifier !! "anon_profile_id" = None) /\
  match who with
  | None =>
      fst (requireUserIdentifier W s) =
        Throw (mkError "No valid user identifier available")
  | Some u =>
      fst (requireUserIdentifier W s) = Return (authenticated_identifier (JStr u))
  end /\
  (returns (fst (requireUserIdentifier W s)) <-> exists u, signed_in W s u).
Proof.
  intros Hwho. pose proof (getCurrentUserIdentifier_identity W s who Hwho) as Hid.
  assert (match who with
          | None =>
              fst (requireUserIdentifier W s) =
                Throw (mkError "No valid user identifier available")
          | Some u =>
              fst (requireUserIdentifier W s) = Return (authenticated_identifier (JStr u))
          end) as Hres.
  { unfold requireUserIdentifier, bind.
    destruct (getCurrentUserIdentifier W s) as [[identifier | e] s1]; simpl in Hid;
      [| discriminate].
    injection Hid as ->. destruct who as [u |]; simpl in Hwho.
    - rewrite authenticated_identifier_user.
      destruct Hwho as (_ & Husable & _). unfold usable in Husable. simpl.
      rewrite Husable. reflexivity.
    - rewrite login_identifier_user. unfold prop. rewrite login_identifier_anon.
      reflexivity. }
  split; [| split; [exact Hres |]].
  - eexists. split; [exact Hid |].
    destruct who; [apply authenticated_identifier_anon | apply login_identifier_anon].
  - destruct who as [u |]; simpl in Hwho; rewrite Hres; simpl.
    + split; [intros _; exists u; exact Hwho | intros _; exact I].
    + split; [contradiction | intros [u Hu]; exact (Hwho u Hu)].
Qed.

Lemma requireUserIdentifier_authenticated_only_witness :
  let W := full_page silent in
  let s := fresh (Some "cached-guest") in
  (exists identifier,
     fst (getCurrentUserIdentifier W s) = Return identifier /\
     identifier !! "anon_profile_id" = None) /\
  fst (requireUserIdentifier W s) = Throw (mkError "No valid user identifier available") /\
  (returns (fst (requireUserIdentifier W s)) <-> exists u, signed_in W s u).
Proof.
  apply (requireUserIdentifier_authenticated_only (full_page silent)
           (fresh (Some "cached-guest")) None).
  apply silent_unauthenticated.
Defined.

(** ** Sign-out *)

Lemma clearAnonymousProfile_clears W s :
  fst (clearAnonymousProfile W s) = Return tt /\
  anon_profile_id (snd (clearAnonymousProfile W s)) = None.
Proof.
  unfold clearAnonymousProfile. unfold_js. cases; split; reflexivity.
Qed.

(** C9: whatever the remote sign-out does (success, service error, timeout,
    a throwing wrapper, or no client at all), [signOut] returns without
    throwing and leaves the storage slot ['anon_profile_id'] empty. *)
Theorem signOut_clears_cache W s :
  fst (signOut W s) = Return tt /\ anon_profile_id (snd (signOut W s)) = None.
Proof.
  unfold signOut, clearAnonymousProfile. unfold_js. cases; split; reflexivity.
Qed.

(** ** Guest provisioning never throws *)

Lemma getOrCreateAnonymousProfile_total W : total (getOrCreateAnonymousProfile W).
Proof.
  unfold getOrCreateAnonymousProfile, restFallback.
  apply total_try_catch. intros error.
  apply total_bind; [apply total_log | intros _].
  apply total_bind; [apply total_logError | intros _].
  apply total_try_catch. intros restfulError.
  apply total_bind; [apply total_log | intros _].
  apply total_bind; [apply total_logError | intros _].
  apply total_ret.
Qed.

Lemma getUserQueryFilter_total W allowAnonymous : total (getUserQueryFilter W allowAnonymous).
Proof.
  unfold getUserQueryFilter.
  apply total_bind; [apply getCurrentUserId_total | intros userId].
  destruct (truthy userId); [apply total_ret |].
  destruct allowAnonymous; [| apply total_ret].
  apply total_bind; [apply getOrCreateAnonymousProfile_total | intros anonProfileId].
  destruct (truthy anonProfileId); apply total_ret.
Qed.

Lemma no_user_filter_selects_nothing row :
  owner_column (prop row "user_id") = true -> ~ selects no_user_filter row.
Proof.
  intros Hcol Hsel.
  assert (prop row "user_id" = JStr "no-user") as Hrow.
  { apply (Hsel "user_id"). unfold no_user_filter.
    rewrite lookup_insert_ne by discriminate. apply lookup_singleton_eq. }
  rewrite Hrow in Hcol. discriminate Hcol.
Qed.

(** C8: when the caller is unauthenticated and guest provisioning, if it is
    allowed at all, yields no usable id, [getUserQueryFilter] returns the
    filter [{ user_id: 'no-user', anon_profile_id: 'no-user' }]: an object,
    not [null], not [undefined], not a thrown error.  That filter selects no
    row whose [user_id] column is [null] or a UUID. *)
Theorem getUserQueryFilter_no_identity W s allowAnonymous :
  unauthenticated W s ->
  (allowAnonymous = true ->
   forall v, fst (getOrCreateAnonymousProfile W (snd (getCurrentUserId W s))) = Return v ->
             truthy v = false) ->
  fst (getUserQueryFilter W allowAnonymous s) = Return no_user_filter /\
  (forall row, owner_column (prop row "user_id") = true -> ~ selects no_user_filter row).
Proof.
  intros Hno Hguest. split; [| apply no_user_filter_selects_nothing].
  destruct (getCurrentUserId_unauthenticated W s Hno) as (v & Hv & Hfalsy).
  unfold getUserQueryFilter, bind.
  destruct (getCurrentUserId W s) as [[userId | e] s1]; simpl in Hv; [| discriminate].
  injection Hv as ->. rewrite Hfalsy. simpl in Hguest.
  destruct allowAnonymous; [| reflexivity].
  pose proof (getOrCreateAnonymousProfile_total W s1) as Htot.
  specialize (Hguest eq_refl).
  destruct (getOrCreateAnonymousProfile W s1) as [[anonProfileId | e] s2];
    simpl in *; [| contradiction].
  rewrite (Hguest anonProfileId eq_refl). reflexivity.
Qed.

Lemma getUserQueryFilter_no_identity_witness :
  fst (getUserQueryFilter (full_page silent) true (fresh None)) = Return no_user_filter /\
  (forall row, owner_column (prop row "user_id") = true -> ~ selects no_user_filter row).
Proof.
  apply (getUserQueryFilter_no_identity (full_page silent) (fresh None) true).
  - apply silent_unauthenticated.
  - intros _ v Hv. vm_compute in Hv. injection Hv as <-. reflexivity.
Defined.

(** ** A stored id that the remote confirms *)

Lemma getOrCreateAnonymousProfile_hit W s id :
  anon_profile_id s = Some id ->
  usable id = true ->
  verifies_existing W id ->
  fst (getOrCreateAnonymousProfile W s) = Return (JStr id) /\
  anon_profile_id (snd (getOrCreateAnonymousProfile W s)) = Some id /\
  calls (snd (getOrCreateAnonymousProfile W s)) =
    (calls s ++ [Verify (verifying_transport W) id])%list.
Proof.
  intros Hslot Husable Hver.
  unfold verifies_existing, verifying_transport in *.
  unfold getOrCreateAnonymousProfile, restFallback, provisionStructured, verifyStored.
  unfold_js.
  rewrite Hslot, Husable.
  destruct (hasEnhancedOperation W).
  - destruct (Hver (calls s)) as (r & Hr & Hok & Hdata).
    simpl. rewrite Hr. simpl. rewrite Hok, Hdata. simpl. rewrite Hslot. auto.
  - destruct Hver as [Hc Hver].
    destruct (Hver (calls s)) as (r & Hr & Herr & Hdata).
    rewrite Hc. simpl. rewrite Hr. simpl. rewrite Herr, Hdata. simpl. rewrite Hslot. auto.
Qed.

Lemma creations_app s c :
  is_creation c = false ->
  forall s', calls s' = (calls s ++ [c])%list -> creations s' = creations s.
Proof.
  intros Hc s' Hs'. unfold creations. rewrite Hs', filter_app, length_app.
  destruct c; try discriminate Hc; simpl; lia.
Qed.

(** C5: when the storage slot holds an id that the remote store confirms,
    two calls of [getOrCreateAnonymousProfile] in a row both return that id,
    and together they issue at most one remote creation call: in fact none,
    only the two verifications. *)
Theorem getOrCreateAnonymousProfile_idempotent W s id :
  anon_profile_id s = Some id ->
  usable id = true ->
  verifies_existing W id ->
  let first := getOrCreateAnonymousProfile W s in
  let second := getOrCreateAnonymousProfile W (snd first) in
  fst first = Return (JStr id) /\
  fst second = Return (JStr id) /\
  creations (snd second) = creations s /\
  (creations (snd second) <= creations s + 1)%nat.
Proof.
  intros Hslot Husable Hver first second.
  destruct (getOrCreateAnonymousProfile_hit W s id Hslot Husable Hver)
    as (Hr1 & Hslot1 & Hcalls1).
  destruct (getOrCreateAnonymousProfile_hit W (snd first) id Hslot1 Husable Hver)
    as (Hr2 & _ & Hcalls2).
  assert (creations (snd second) = creations s) as Hsame.
  { transitivity (creations (snd first)).
    - apply (creations_app (snd first) (Verify (verifying_transport W) id) eq_refl _ Hcalls2).
    - apply (creations_app s (Verify (verifying_transport W) id) eq_refl _ Hcalls1). }
  repeat split; [exact Hr1 | exact Hr2 | exact Hsame | lia].
Qed.

Lemma serving_verifies u id made : verifies_existing (full_page (serving u [id] made)) id.
Proof.
  intros h. eexists. split; [reflexivity |]. simpl.
  rewrite bool_decide_eq_true_2 by apply list_elem_of_singleton, eq_refl.
  split; reflexivity.
Qed.

Lemma serving_verifies_bare u id made :
  verifies_existing (bare_page (serving u [id] made)) id.
Proof.
  split; [reflexivity |]. intros h. eexists. split; [reflexivity |]. simpl.
  rewrite bool_decide_eq_true_2 by apply list_elem_of_singleton, eq_refl.
  split; reflexivity.
Qed.

Lemma getOrCreateAnonymousProfile_idempotent_witness :
  (let W := full_page (serving None ["G0"] "G1") in
   let s := fresh (Some "G0") in
   let first := getOrCreateAnonymousProfile W s in
   let second := getOrCreateAnonymousProfile W (snd first) in
   fst first = Return (JStr "G0") /\
   fst second = Return (JStr "G0") /\
   creations (snd second) = creations s /\
   (creations (snd second) <= creations s + 1)%nat) /\
  (let W := bare_page (serving None ["G0"] "G1") in
   let s := fresh (Some "G0") in
   let first := getOrCreateAnonymousProfile W s in
   let second := getOrCreateAnonymousProfile W (snd first) in
   fst first = Return (JStr "G0") /\
   fst second = Return (JStr "G0") /\
   creations (snd second) = creations s /\
   (creations (snd second) <= creations s + 1)%nat).
Proof.
  split.
  - apply (getOrCreateAnonymousProfile_idempotent (full_page (serving None ["G0"] "G1"))
             (fresh (Some "G0")) "G0"); [reflexivity | reflexivity |].
    apply serving_verifies.
  - apply (getOrCreateAnonymousProfile_idempotent (bare_page (serving None ["G0"] "G1"))
             (fresh (Some "G0")) "G0"); [reflexivity | reflexivity |].
    apply serving_verifies_bare.
Defined.

(** ** Order of the creation attempts *)

Lemma issued_eq {A} (m : M A) s l :
  calls (snd (m s)) = (calls s ++ l)%list -> issued m s = l.
Proof. intros H. unfold issued. rewrite H. apply drop_app_length. Qed.

Ltac hyp_step :=
  match goal with
  | H : Some _ = Some _ |- _ => injection H as <-
  | H : None = Some _ |- _ => discriminate H
  | H : ?a = ?a -> _ |- _ => specialize (H eq_refl)
  | H : false = true -> _ |- _ => clear H
  | H : context [match ?x with _ => _ end] |- _ =>
      lazymatch x with
      | context [match _ with _ => _ end] => fail
      | _ => first [ match goal with
                     | E : ?y = _ |- _ =>
                         lazymatch x with
                         | context [y] => rewrite E in H
                         end
                     end
                   | destruct x eqn:? ]
      end
  end.

Ltac finish_order := cases; rewrite <- ?app_assoc; try reflexivity; try discriminate.

(** One round of the loop over the enhanced network operation. *)
Lemma createViaNetwork_round W sh rest s :
  is_last rest = false ->
  match attempt_outcome W EnhancedRest (calls s) sh with
  | Succeeded =>
      calls (snd (createViaNetwork W (sh :: rest) s)) =
        (calls s ++ [Create EnhancedRest sh])%list
  | MissingColumn | Failed =>
      exists s1, calls s1 = (calls s ++ [Create EnhancedRest sh])%list /\
                 createViaNetwork W (sh :: rest) s = createViaNetwork W rest s1
  | Escaped | Unsent => False
  end.
Proof.
  intros Hlast. unfold attempt_outcome, failure_of.
  cbn [createViaNetwork]. rewrite Hlast.
  generalize (createViaNetwork W rest). intros continue.
  unfold_js. cases;
    try reflexivity; try discriminate; eexists; (split; [| reflexivity]); reflexivity.
Qed.

Lemma createViaNetwork_last W sh s :
  calls (snd (createViaNetwork W [sh] s)) = (calls s ++ [Create EnhancedRest sh])%list.
Proof. cbn [createViaNetwork is_last]. unfold_js. cases; reflexivity. Qed.

(** One round of the loop over plain [fetch]. *)
Lemma createViaFetch_round W sh rest s :
  is_last rest = false ->
  match attempt_outcome W Rest (calls s) sh with
  | Succeeded =>
      calls (snd (createViaFetch W (sh :: rest) s)) = (calls s ++ [Create Rest sh])%list
  | MissingColumn | Failed =>
      exists s1, calls s1 = (calls s ++ [Create Rest sh])%list /\
                 createViaFetch W (sh :: rest) s = createViaFetch W rest s1
  | Escaped | Unsent => False
  end.
Proof.
  intros Hlast. unfold attempt_outcome, failure_of.
  cbn [createViaFetch]. rewrite Hlast.
  generalize (createViaFetch W rest). intros continue.
  unfold_js. cases;
    try reflexivity; try discriminate; eexists; (split; [| reflexivity]); reflexivity.
Qed.

Lemma createViaFetch_last W sh s :
  calls (snd (createViaFetch W [sh] s)) = (calls s ++ [Create Rest sh])%list.
Proof. cbn [createViaFetch is_last]. unfold_js. cases; reflexivity. Qed.




(** ** A stale id is evicted and never comes back *)

Ltac forgotten_leaf :=
  first
    [ assumption
    | pure_leaf
    | let st := fresh "st" in
      let Hst := fresh "Hst" in
      intros st Hst; unfold forgotten in *; simpl; first [exact Hst | discriminate] ].

Create HintDb forgotten.

Ltac forgotten_block := walk ltac:(first [solve [auto with forgotten] | forgotten_leaf]).

Ltac read_body :=
  unfold body_row;
  repeat match goal with H : json _ = _ |- _ => rewrite H end;
  eassumption.

Ltac fresh_id Hnew :=
  unfold forgotten in *; simpl; try assumption; try discriminate;
  intros [= ->];
  destruct Hnew as (Hop & Hsdk & Hnet & Hfetch);
  first [ eapply Hop; eassumption
        | eapply Hsdk; eassumption
        | eapply Hnet; [eassumption | eassumption | read_body]
        | eapply Hfetch; [eassumption | read_body] ].

Lemma createEnhanced_forgotten W old :
  never_issues W old -> preserves (forgotten old) (createEnhanced W).
Proof.
  intros Hnew s Hs. unfold createEnhanced. unfold_js. cases; fresh_id Hnew.
Qed.

Lemma createSdk_forgotten W old :
  never_issues W old -> preserves (forgotten old) (createSdk W).
Proof.
  intros Hnew s Hs. unfold createSdk, insertSdk. unfold_js. cases; fresh_id Hnew.
Qed.

Lemma createViaNetwork_forgotten W old shapes :
  never_issues W old -> preserves (forgotten old) (createViaNetwork W shapes).
Proof.
  intros Hnew. induction shapes as [| sh rest IH]; [forgotten_leaf |].
  cbn [createViaNetwork]. apply preserves_bind.
  - intros s Hs. unfold_js. cases; fresh_id Hnew.
  - intros [id |]; [forgotten_leaf | exact IH].
Qed.

Lemma createViaFetch_forgotten W old shapes :
  never_issues W old -> preserves (forgotten old) (createViaFetch W shapes).
Proof.
  intros Hnew. induction shapes as [| sh rest IH]; [forgotten_leaf |].
  cbn [createViaFetch]. apply preserves_bind.
  - intros s Hs. unfold_js. cases; fresh_id Hnew.
  - intros [id |]; [forgotten_leaf | exact IH].
Qed.

Section Forgotten.

Variable W : Window.
Variable old : string.
Hypothesis Hnew : never_issues W old.

#[local] Hint Resolve createEnhanced_forgotten createSdk_forgotten
  createViaNetwork_forgotten createViaFetch_forgotten : forgotten.

Lemma getCurrentUserId_forgotten : preserves (forgotten old) (getCurrentUserId W).
Proof.
  intros s Hs. unfold forgotten in *. rewrite getCurrentUserId_slot. exact Hs.
Qed.
#[local] Hint Resolve getCurrentUserId_forgotten : forgotten.

Lemma getCurrentUserIdentifier_forgotten :
  preserves (forgotten old) (getCurrentUserIdentifier W).
Proof. unfold getCurrentUserIdentifier. forgotten_block. Qed.

Lemma verifyStored_forgotten o : preserves (forgotten old) (verifyStored W o).
Proof. unfold verifyStored. forgotten_block. Qed.

Lemma evictIf404_forgotten r : preserves (forgotten old) (evictIf404 r).
Proof. unfold evictIf404. forgotten_block. Qed.
#[local] Hint Resolve getCurrentUserIdentifier_forgotten verifyStored_forgotten
  evictIf404_forgotten : forgotten.

Lemma verifyRest_forgotten o : preserves (forgotten old) (verifyRest W o).
Proof. unfold verifyRest. forgotten_block. Qed.

Lemma provisionStructured_forgotten : preserves (forgotten old) (provisionStructured W).
Proof. unfold provisionStructured. forgotten_block. Qed.
#[local] Hint Resolve verifyRest_forgotten provisionStructured_forgotten : forgotten.

Lemma provisionRest_forgotten : preserves (forgotten old) (provisionRest W).
Proof. unfold provisionRest. forgotten_block. Qed.
#[local] Hint Resolve provisionRest_forgotten : forgotten.

Lemma restFallback_forgotten error : preserves (forgotten old) (restFallback W error).
Proof. unfold restFallback. forgotten_block. Qed.
#[local] Hint Resolve restFallback_forgotten : forgotten.

Lemma getOrCreateAnonymousProfile_forgotten :
  preserves (forgotten old) (getOrCreateAnonymousProfile W).
Proof. unfold getOrCreateAnonymousProfile. forgotten_block. Qed.

Lemma clearAnonymousProfile_forgotten : preserves (forgotten old) (clearAnonymousProfile W).
Proof. unfold clearAnonymousProfile. forgotten_block. Qed.
#[local] Hint Resolve getOrCreateAnonymousProfile_forgotten
  clearAnonymousProfile_forgotten : forgotten.

Lemma requireAuthentication_forgotten :
  preserves (forgotten old) (requireAuthentication W).
Proof. unfold requireAuthentication. forgotten_block. Qed.

Lemma requireUserIdentifier_forgotten :
  preserves (forgotten old) (requireUserIdentifier W).
Proof. unfold requireUserIdentifier. forgotten_block. Qed.

Lemma addUserIdentifierToData_forgotten data :
  preserves (forgotten old) (addUserIdentifierToData W data).
Proof. unfold addUserIdentifierToData. forgotten_block. Qed.
#[local] Hint Resolve requireAuthentication_forgotten
  addUserIdentifierToData_forgotten : forgotten.

Lemma createInsertPayload_forgotten data requireAuth :
  preserves (forgotten old) (createInsertPayload W data requireAuth).
Proof. unfold createInsertPayload. forgotten_block. Qed.

Lemma getUserQueryFilter_forgotten allowAnonymous :
  preserves (forgotten old) (getUserQueryFilter W allowAnonymous).
Proof. unfold getUserQueryFilter. forgotten_block. Qed.

Lemma signOut_forgotten : preserves (forgotten old) (signOut W).
Proof. unfold signOut. forgotten_block. Qed.

Lemma step_forgotten o s : forgotten old s -> forgotten old (step W s o).
Proof.
  destruct o; simpl.
  - apply getCurrentUserId_forgotten.
  - apply getCurrentUserIdentifier_forgotten.
  - apply getOrCreateAnonymousProfile_forgotten.
  - apply requireAuthentication_forgotten.
  - apply requireUserIdentifier_forgotten.
  - apply addUserIdentifierToData_forgotten.
  - apply createInsertPayload_forgotten.
  - apply getUserQueryFilter_forgotten.
  - apply clearAnonymousProfile_forgotten.
  - apply signOut_forgotten.
Qed.

Lemma run_forgotten ops s : forgotten old s -> forgotten old (run W ops s).
Proof. apply preserves_run. intros o st. apply step_forgotten. Qed.

Lemma isAuthenticated_forgotten : preserves (forgotten old) (isAuthenticated W).
Proof. unfold isAuthenticated. forgotten_block. Qed.

Lemma getAuthState_forgotten : preserves (forgotten old) (getAuthState W).
Proof. unfold getAuthState. forgotten_block. Qed.

#[local] Hint Resolve getAuthState_forgotten : forgotten.

Lemma debugAuthState_forgotten : preserves (forgotten old) (debugAuthState W).
Proof. unfold debugAuthState. forgotten_block. Qed.

Lemma upgradeAnonymousUser_forgotten E email password :
  preserves (forgotten old) (upgradeAnonymousUser W E email password).
Proof. unfold upgradeAnonymousUser, validateInputs, signUp, ask. forgotten_block. Qed.

Lemma step_exported_forgotten o s : forgotten old s -> forgotten old (step_exported W s o).
Proof.
  destruct o as [o | | | | E email password]; simpl.
  - apply step_forgotten.
  - apply isAuthenticated_forgotten.
  - apply getAuthState_forgotten.
  - apply debugAuthState_forgotten.
  - apply upgradeAnonymousUser_forgotten.
Qed.

Lemma run_exported_forgotten ops s :
  forgotten old s -> forgotten old (run_exported W ops s).
Proof.
  unfold run_exported. revert s.
  induction ops as [| o ops IH]; intros s Hs; simpl; [exact Hs |].
  apply IH, step_exported_forgotten, Hs.
Qed.

End Forgotten.

(** ** The call after a stale id *)

Ltac slot_done :=
  simpl in *; unfold slot_agrees, slot_agrees_opt in *; simpl in *;
  first [reflexivity | assumption | congruence].

Lemma createEnhanced_agrees W :
  hoare (fun s => anon_profile_id s = None) (createEnhanced W) slot_agrees_opt.
Proof. intros s Hs. unfold createEnhanced. unfold_js. cases; slot_done. Qed.

Lemma createSdk_agrees W :
  hoare (fun s => anon_profile_id s = None) (createSdk W) slot_agrees.
Proof. intros s Hs. unfold createSdk, insertSdk. unfold_js. cases; slot_done. Qed.

Lemma createViaNetwork_agrees W shapes :
  hoare (fun s => anon_profile_id s = None) (createViaNetwork W shapes) slot_agrees_opt.
Proof.
  induction shapes as [| sh rest IH]; [intros s Hs; exact Hs |].
  cbn [createViaNetwork].
  eapply hoare_bind with (Q := slot_agrees_opt).
  - intros s Hs. unfold_js. cases; slot_done.
  - intros [id |]; [intros s Hs; exact Hs | exact IH].
  - intros e s Hs. exact Hs.
Qed.

Lemma createViaFetch_agrees W shapes :
  hoare (fun s => anon_profile_id s = None) (createViaFetch W shapes) slot_agrees_opt.
Proof.
  induction shapes as [| sh rest IH]; [intros s Hs; exact Hs |].
  cbn [createViaFetch].
  eapply hoare_bind with (Q := slot_agrees_opt).
  - intros s Hs. unfold_js. cases; slot_done.
  - intros [id |]; [intros s Hs; exact Hs | exact IH].
  - intros e s Hs. exact Hs.
Qed.

(** Lines 184-329, entered with an empty slot. *)
Lemma structured_creation_agrees W :
  hoare (fun s => anon_profile_id s = None)
    (created <- (if hasEnhancedOperation W then createEnhanced W else ret None) ;;
     match created with
     | Some id => ret (JStr id)
     | None => createSdk W
     end)
    slot_agrees.
Proof.
  eapply hoare_bind with (Q := slot_agrees_opt).
  - destruct (hasEnhancedOperation W); [apply createEnhanced_agrees |].
    intros s Hs. exact Hs.
  - intros [id |]; [intros s Hs; exact Hs | apply createSdk_agrees].
  - intros e s Hs. exact Hs.
Qed.

(** Lines 401-510, entered with an empty slot. *)
Lemma rest_creation_agrees W :
  hoare (fun s => anon_profile_id s = None)
    (created <- (if hasEnhancedNetwork W then createViaNetwork W profileDataOptions
                 else createViaFetch W profileDataOptions) ;;
     ret (match created with Some id => JStr id | None => JUndefined end))
    slot_agrees.
Proof.
  eapply hoare_bind with (Q := slot_agrees_opt).
  - destruct (hasEnhancedNetwork W);
      [apply createViaNetwork_agrees | apply createViaFetch_agrees].
  - intros [id |]; intros s Hs; exact Hs.
  - intros e s Hs. exact Hs.
Qed.

Lemma bind_return {A B} (m : M A) (k : A -> M B) s a s1 :
  m s = (Return a, s1) -> bind m k s = k a s1.
Proof. intros H. unfold bind. rewrite H. reflexivity. Qed.

Lemma bind_throw {A B} (m : M A) (k : A -> M B) s e s1 :
  m s = (Throw e, s1) -> bind m k s = (Throw e, s1).
Proof. intros H. unfold bind. rewrite H. reflexivity. Qed.

Lemma try_catch_return {A} (m : M A) (h : Error -> M A) s a s1 :
  m s = (Return a, s1) -> try_catch m h s = (Return a, s1).
Proof. intros H. unfold try_catch. rewrite H. reflexivity. Qed.

Lemma try_catch_throw {A} (m : M A) (h : Error -> M A) s e s1 :
  m s = (Throw e, s1) -> try_catch m h s = h e s1.
Proof. intros H. unfold try_catch. rewrite H. reflexivity. Qed.

Lemma bind_log {B} lvl line (k : unit -> M B) s :
  bind (log lvl line) k s = k tt (snd (log lvl line s)).
Proof. reflexivity. Qed.

Lemma bind_getStoredId {B} (k : option string -> M B) s :
  bind getStoredId k s = k (anon_profile_id s) s.
Proof. reflexivity. Qed.

Lemma slot_log lvl line s :
  anon_profile_id (snd (log lvl line s)) = anon_profile_id s.
Proof. reflexivity. Qed.

Ltac found_state :=
  eexists; split; [reflexivity |]; split; [reflexivity |];
  unfold creations; simpl; rewrite ?filter_app, ?length_app; simpl; lia.

Lemma verifyStored_empty W old s :
  usable old = true ->
  structured_check_empty W old ->
  exists s1, verifyStored W (Some old) s = (Return None, s1) /\
             anon_profile_id s1 = None /\ creations s1 = creations s.
Proof.
  intros Husable Hempty. unfold structured_check_empty in Hempty.
  unfold verifyStored. rewrite Husable.
  destruct (hasEnhancedOperation W).
  - destruct (Hempty (calls s)) as (r & Hr & Hnone).
    unfold_js. rewrite Hr. simpl. rewrite Hnone. simpl. found_state.
  - destruct Hempty as [Hc Hempty].
    destruct (Hempty (calls s)) as (r & Hr & Hnone).
    unfold_js. rewrite Hc. simpl. rewrite Hr. simpl. rewrite Hnone. simpl. found_state.
Qed.

Lemma verifyStored_throws W old s :
  usable old = true ->
  structured_check_throws W old ->
  exists e s1, verifyStored W (Some old) s = (Throw e, s1) /\
               anon_profile_id s1 = anon_profile_id s /\ creations s1 = creations s.
Proof.
  intros Husable Hthrows. unfold structured_check_throws in Hthrows.
  unfold verifyStored. rewrite Husable.
  destruct (hasEnhancedOperation W).
  - destruct (Hthrows (calls s)) as (e & He).
    unfold_js. rewrite He. simpl. eexists. found_state.
  - unfold_js. destruct (supabaseClient W) eqn:Hc.
    + destruct Hthrows as [Hno | Hthrows]; [discriminate |].
      destruct (Hthrows (calls s)) as (e & He). rewrite He. simpl. eexists. found_state.
    + simpl. eexists. found_state.
Qed.

Lemma verifyRest_404 W old s :
  usable old = true ->
  http_check_404 W old ->
  exists s1, verifyRest W (Some old) s = (Return None, s1) /\
             anon_profile_id s1 = None /\ creations s1 = creations s.
Proof.
  intros Husable H404. unfold http_check_404 in H404.
  unfold verifyRest, evictIf404. rewrite Husable.
  destruct (hasEnhancedNetwork W).
  - destruct (H404 (calls s)) as (r & resp & Hr & Hdata & Hstatus & Hok).
    unfold_js. rewrite Hr. simpl. rewrite Hdata.
    destruct (net_success r); simpl in Hok; rewrite ?Hok, Hstatus; simpl; found_state.
  - destruct (H404 (calls s)) as (resp & Hr & Hok & Hstatus).
    unfold_js. rewrite Hr. simpl. rewrite Hok, Hstatus. simpl. found_state.
Qed.

(** At least one creation call goes out once a stage starts. *)

Lemma creations_snoc s c s1 :
  calls s1 = (calls s ++ [c])%list ->
  creations s1 = (creations s + (if is_creation c then 1 else 0))%nat.
Proof.
  intros H. unfold creations. rewrite H, filter_app, length_app.
  destruct c; simpl; lia.
Qed.

Ltac count_leaf :=
  first
    [ assumption
    | pure_leaf
    | let st := fresh "st" in
      let Hst := fresh "Hst" in
      intros st Hst; unfold attempted, at_least, creations in *; simpl;
      rewrite ?filter_app, ?length_app; simpl; first [exact Hst | lia] ].

Create HintDb count.

Ltac as_preserves :=
  cbv beta;
  lazymatch goal with
  | |- hoare ?P ?m (fun _ => ?P) => change (preserves P m)
  | |- _ => idtac
  end.

Ltac count_block :=
  as_preserves; walk ltac:(first [solve [auto with count] | count_leaf]).

Section Counting.

Variable W : Window.
Variable k : nat.

Lemma issue_attempted {A} c (answer : list Call -> Completion A) :
  preserves (attempted k) (issue c answer).
Proof.
  intros s Hs. unfold attempted in *.
  rewrite (creations_snoc s c (snd (issue c answer s)) eq_refl). lia.
Qed.
#[local] Hint Resolve issue_attempted : count.

Lemma issue_create_attempts {A} t sh (answer : list Call -> Completion A) :
  hoare (at_least k) (issue (Create t sh) answer) (fun _ => attempted k).
Proof.
  intros s Hs. unfold attempted, at_least in *.
  rewrite (creations_snoc s (Create t sh) (snd (issue (Create t sh) answer s)) eq_refl).
  simpl. lia.
Qed.

Lemma createEnhanced_attempted : preserves (attempted k) (createEnhanced W).
Proof. unfold createEnhanced. count_block. Qed.

Lemma insertSdk_attempted sh prev : preserves (attempted k) (insertSdk W sh prev).
Proof. unfold insertSdk. count_block. Qed.
#[local] Hint Resolve createEnhanced_attempted insertSdk_attempted : count.

Lemma createSdk_attempted : preserves (attempted k) (createSdk W).
Proof. unfold createSdk. count_block. Qed.

Lemma createViaNetwork_attempted shapes : preserves (attempted k) (createViaNetwork W shapes).
Proof. induction shapes as [| sh rest IH]; simpl; count_block. Qed.

Lemma createViaFetch_attempted shapes : preserves (attempted k) (createViaFetch W shapes).
Proof. induction shapes as [| sh rest IH]; simpl; count_block. Qed.
#[local] Hint Resolve createSdk_attempted createViaNetwork_attempted
  createViaFetch_attempted : count.

Lemma createEnhanced_attempts :
  hoare (at_least k) (createEnhanced W) (fun _ => attempted k).
Proof.
  unfold createEnhanced.
  eapply hoare_bind with (Q := fun _ => attempted k);
    [apply issue_create_attempts | intros ra | auto].
  count_block.
Qed.

Lemma createSdk_attempts :
  supabaseClient W = true ->
  hoare (at_least k) (createSdk W) (fun _ => attempted k).
Proof.
  intros Hc. unfold createSdk.
  eapply hoare_bind with (Q := fun _ => attempted k); [| intros de; count_block | auto].
  unfold insertSdk.
  eapply hoare_try_catch with (Q := fun _ => attempted k); [| auto | intros e; count_block].
  eapply hoare_bind with (Q := fun _ => attempted k); [| intros r; count_block | auto].
  unfold sdkQuery. rewrite Hc. apply issue_create_attempts.
Qed.

Lemma createViaNetwork_attempts sh rest :
  hoare (at_least k) (createViaNetwork W (sh :: rest)) (fun _ => attempted k).
Proof.
  cbn [createViaNetwork].
  eapply hoare_bind with (Q := fun _ => attempted k); [| intros r; count_block | auto].
  eapply hoare_try_catch with (Q := fun _ => attempted k); [| auto | intros e; count_block].
  eapply hoare_bind with (Q := fun _ => attempted k);
    [apply issue_create_attempts | intros r; count_block | auto].
Qed.

Lemma createViaFetch_attempts sh rest :
  hoare (at_least k) (createViaFetch W (sh :: rest)) (fun _ => attempted k).
Proof.
  cbn [createViaFetch].
  eapply hoare_bind with (Q := fun _ => attempted k); [| intros r; count_block | auto].
  eapply hoare_try_catch with (Q := fun _ => attempted k); [| auto | intros e; count_block].
  eapply hoare_bind with (Q := fun _ => attempted k);
    [apply issue_create_attempts | intros r; count_block | auto].
Qed.

End Counting.

#[local] Hint Resolve createEnhanced_attempted createSdk_attempted
  createViaNetwork_attempted createViaFetch_attempted : count.

Lemma hoare_and {A} (P P' : Session -> Prop) (m : M A)
    (Q Q' : Completion A -> Session -> Prop) :
  hoare P m Q -> hoare P' m Q' ->
  hoare (fun s => P s /\ P' s) m (fun c s => Q c s /\ Q' c s).
Proof. intros H H' s [Hs Hs']. split; [apply H, Hs | apply H', Hs']. Qed.

Lemma provisioned_intro {k old} (P : Session -> Prop) (m : M JsVal) :
  hoare P m (fun c s => slot_agrees c s /\ attempted k s) ->
  preserves (forgotten old) m ->
  (forall s, P s -> forgotten old s) ->
  hoare P m (provisioned k old).
Proof.
  intros Hm Hold HP s Hs. destruct (Hm s Hs) as [Hslot Hk].
  repeat split; [exact Hslot | exact Hk | apply Hold, HP, Hs].
Qed.

Lemma emptied_forgotten k old s : emptied k s -> forgotten old s.
Proof. intros [Hs _]. unfold forgotten. rewrite Hs. discriminate. Qed.

Section AfterEviction.

Variable W : Window.
Variable old : string.
Variable k : nat.
Hypothesis Hnew : never_issues W old.

#[local] Hint Resolve createEnhanced_forgotten createSdk_forgotten
  createViaNetwork_forgotten createViaFetch_forgotten : forgotten.

Lemma structured_creation_provisions :
  hasEnhancedOperation W = true \/ supabaseClient W = true ->
  hoare (emptied k)
    (created <- (if hasEnhancedOperation W then createEnhanced W else ret None) ;;
     match created with
     | Some id => ret (JStr id)
     | None => createSdk W
     end)
    (provisioned k old).
Proof.
  intros Hcan. apply provisioned_intro;
    [| forgotten_block | intros s; apply emptied_forgotten].
  destruct (hasEnhancedOperation W).
  - eapply hoare_bind
      with (Q := fun c s => slot_agrees_opt c s /\ attempted k s).
    + apply hoare_and; [apply createEnhanced_agrees | apply createEnhanced_attempts].
    + intros [id |]; [intros s Hs; exact Hs |].
      apply hoare_and; [apply createSdk_agrees | apply createSdk_attempted].
    + intros e s Hs. exact Hs.
  - destruct Hcan as [Hcan | Hc]; [discriminate |].
    eapply hoare_bind with (Q := fun c s => c = Return None /\ emptied k s).
    + intros s Hs. split; [reflexivity | exact Hs].
    + intros a s [[= ->] [Hslot Hk]].
      apply (hoare_and _ _ _ _ _ (createSdk_agrees W) (createSdk_attempts W k Hc)).
      split; assumption.
    + intros e s [Habs _]. discriminate Habs.
Qed.

Lemma rest_creation_provisions :
  hoare (emptied k)
    (created <- (if hasEnhancedNetwork W then createViaNetwork W profileDataOptions
                 else createViaFetch W profileDataOptions) ;;
     ret (match created with Some id => JStr id | None => JUndefined end))
    (provisioned k old).
Proof.
  apply provisioned_intro; [| forgotten_block | intros s; apply emptied_forgotten].
  eapply hoare_bind with (Q := fun c s => slot_agrees_opt c s /\ attempted k s).
  - destruct (hasEnhancedNetwork W); apply hoare_and;
      first [ apply createViaNetwork_agrees | apply createViaFetch_agrees
            | apply createViaNetwork_attempts | apply createViaFetch_attempts ].
  - intros [id |]; intros s Hs; exact Hs.
  - intros e s Hs. exact Hs.
Qed.

Lemma provisionRest_attempted : preserves (attempted k) (provisionRest W).
Proof. unfold provisionRest, verifyRest, evictIf404. count_block. Qed.

Lemma provisionRest_empty_agrees :
  hoare (fun s => anon_profile_id s = None) (provisionRest W) slot_agrees.
Proof.
  intros s Hs. unfold provisionRest.
  rewrite bind_log, bind_getStoredId, slot_log, Hs.
  rewrite (bind_return (verifyRest W None) _ _ None _ eq_refl).
  apply rest_creation_agrees. rewrite slot_log. exact Hs.
Qed.

(** The HTTP stage entered after the structured stage has provisioned
    nothing and thrown. *)
Lemma provisionRest_retry_provisions e :
  hoare (provisioned k old (Throw e)) (provisionRest W) (provisioned k old).
Proof.
  apply provisioned_intro.
  - eapply hoare_weaken.
    + apply (hoare_and _ _ _ _ _ provisionRest_empty_agrees provisionRest_attempted).
    + intros s (Hslot & Hk & _). split; [exact Hslot | exact Hk].
    + intros c s H. exact H.
  - apply provisionRest_forgotten, Hnew.
  - intros s (_ & _ & Hold). exact Hold.
Qed.

Lemma provisionRest_404_provisions :
  usable old = true ->
  http_check_404 W old ->
  hoare (fun s => anon_profile_id s = Some old /\ at_least k s)
    (provisionRest W) (provisioned k old).
Proof.
  intros Husable H404 s [Hs Hk]. unfold provisionRest.
  rewrite bind_log, bind_getStoredId, slot_log, Hs.
  match goal with |- context [bind (verifyRest W (Some old)) _ ?st] =>
    destruct (verifyRest_404 W old st Husable H404) as (s1 & Hv & Hs1 & Hc1)
  end.
  rewrite (bind_return _ _ _ _ _ Hv).
  apply rest_creation_provisions. split; [exact Hs1 |].
  unfold at_least in *. rewrite Hc1. exact Hk.
Qed.

Lemma provisionStructured_empty_provisions :
  usable old = true ->
  structured_check_empty W old ->
  hoare (fun s => anon_profile_id s = Some old /\ at_least k s)
    (provisionStructured W) (provisioned k old).
Proof.
  intros Husable Hempty s [Hs Hk]. unfold provisionStructured.
  rewrite bind_getStoredId, Hs.
  destruct (verifyStored_empty W old s Husable Hempty) as (s1 & Hv & Hs1 & Hc1).
  rewrite (bind_return _ _ _ _ _ Hv).
  apply structured_creation_provisions.
  - unfold structured_check_empty in Hempty.
    destruct (hasEnhancedOperation W); [left; reflexivity | right; apply Hempty].
  - split; [exact Hs1 |]. unfold at_least in *. rewrite Hc1. exact Hk.
Qed.

Lemma logError_keeps code e sev (P : Session -> Prop) s :
  (forall st entry, P st -> P (snd (record entry st))) ->
  P s ->
  exists s1, logError W code e sev s = (Return tt, s1) /\ P s1.
Proof.
  intros Prec Hs. unfold logError, when. destruct (errorHandler W).
  - eexists. split; [reflexivity |]. apply Prec, Hs.
  - eexists. split; [reflexivity | exact Hs].
Qed.

(** The fallback establishes [provisioned] whenever the HTTP stage does; a
    failed HTTP stage ends in [null] with the slot as that stage left it. *)
Lemma restFallback_provisions error (P : Session -> Prop) :
  hoare P (provisionRest W) (provisioned k old) ->
  (forall s lvl line, P s -> P (snd (log lvl line s))) ->
  (forall s entry, P s -> P (snd (record entry s))) ->
  hoare P (restFallback W error) (provisioned k old).
Proof.
  intros Hrest Plog Prec s Hs. unfold restFallback.
  rewrite bind_log.
  destruct (logError_keeps "AUTH_ANON_PROFILE_SUPABASE_OPERATION_FAILED" error high P
              (snd (log LevelError "Supabase anonymous profile operation failed:" s))
              Prec (Plog _ _ _ Hs)) as (s2 & Hlog & Hs2).
  rewrite (bind_return _ _ _ _ _ Hlog).
  specialize (Hrest s2 Hs2). unfold try_catch.
  destruct (provisionRest W s2) as [[v | e] s3]; simpl in *; [exact Hrest |].
  rewrite bind_log.
  destruct (logError_keeps "AUTH_ANON_PROFILE_ALL_METHODS_FAILED" e critical
              (provisioned k old (Throw e))
              (snd (log LevelError "RESTful API fallback also failed:" s3)))
    as (s4 & Hlog4 & Hs4).
  - intros st entry Hst. exact Hst.
  - exact Hrest.
  - rewrite (bind_return _ _ _ _ _ Hlog4). exact Hs4.
Qed.

Lemma getOrCreateAnonymousProfile_after_stale s :
  anon_profile_id s = Some old ->
  usable old = true ->
  reports_not_found W old ->
  at_least k s ->
  provisioned k old (fst (getOrCreateAnonymousProfile W s))
    (snd (getOrCreateAnonymousProfile W s)).
Proof.
  intros Hslot Husable [Hempty | [Hthrows H404]] Hk; unfold getOrCreateAnonymousProfile.
  - pose proof (provisionStructured_empty_provisions Husable Hempty s
                  (conj Hslot Hk)) as H1.
    unfold try_catch.
    destruct (provisionStructured W s) as [[v | e] s1]; simpl in H1; [exact H1 |].
    apply (restFallback_provisions e (provisioned k old (Throw e))).
    + apply provisionRest_retry_provisions.
    + intros st lvl line Hst. exact Hst.
    + intros st entry Hst. exact Hst.
    + exact H1.
  - unfold try_catch, provisionStructured.
    rewrite bind_getStoredId, Hslot.
    destruct (verifyStored_throws W old s Husable Hthrows) as (e & s1 & Hv & Hs1 & Hc1).
    rewrite (bind_throw _ _ _ _ _ Hv).
    apply (restFallback_provisions e
             (fun st => anon_profile_id st = Some old /\ at_least k st)).
    + apply provisionRest_404_provisions; assumption.
    + intros st lvl line Hst. exact Hst.
    + intros st entry Hst. exact Hst.
    + split; [congruence |]. unfold at_least in *. rewrite Hc1. exact Hk.
Qed.

End AfterEviction.

Ltac accepted_state :=
  eexists; split; [reflexivity | reflexivity].

Section Accepted.

Variable W : Window.
Variable new : string.
Hypothesis Hacc : accepts W new.

Lemma createEnhanced_accepted s :
  exists s1, createEnhanced W s = (Return (Some new), s1) /\ anon_profile_id s1 = Some new.
Proof.
  destruct Hacc as (Hop & _). destruct (Hop (calls s)) as (r & Hr & Hok & Hid).
  unfold createEnhanced. unfold_js. rewrite Hr.
  repeat (first [rewrite Hok | rewrite Hid | progress simpl]).
  destruct (errorHandler W); simpl; accepted_state.
Qed.

Lemma createSdk_accepted s :
  supabaseClient W = true ->
  exists s1, createSdk W s = (Return (JStr new), s1) /\ anon_profile_id s1 = Some new.
Proof.
  intros Hc. destruct Hacc as (_ & Hsdk & _).
  destruct (Hsdk (calls s)) as (r & Hr & Herr & Hid).
  unfold createSdk, insertSdk. unfold_js. rewrite Hc. simpl. rewrite Hr.
  repeat (first [rewrite Herr | rewrite Hid | progress simpl]).
  destruct (errorHandler W); simpl; accepted_state.
Qed.

Lemma createViaNetwork_accepted s :
  exists s1, createViaNetwork W profileDataOptions s = (Return (Some new), s1) /\
             anon_profile_id s1 = Some new.
Proof.
  destruct Hacc as (_ & _ & Hnet & _).
  destruct (Hnet (calls s)) as (r & resp & Hr & Hok & Hdata & Hresp & Hid).
  unfold body_row in Hid.
  unfold profileDataOptions. cbn [createViaNetwork is_last]. unfold_js.
  rewrite Hr.
  repeat (first [rewrite Hok | rewrite Hdata | rewrite Hresp | rewrite Hid | progress simpl]).
  destruct (errorHandler W); simpl; accepted_state.
Qed.

Lemma createViaFetch_accepted s :
  exists s1, createViaFetch W profileDataOptions s = (Return (Some new), s1) /\
             anon_profile_id s1 = Some new.
Proof.
  destruct Hacc as (_ & _ & _ & Hfetch).
  destruct (Hfetch (calls s)) as (resp & v & Hr & Hok & Hjson & Hid).
  unfold profileDataOptions. cbn [createViaFetch is_last]. unfold_js.
  rewrite Hr.
  repeat (first [rewrite Hok | rewrite Hjson | rewrite Hid | progress simpl]).
  destruct (errorHandler W); simpl; accepted_state.
Qed.

Lemma rest_creation_accepted s :
  exists s1,
    (created <- (if hasEnhancedNetwork W then createViaNetwork W profileDataOptions
                 else createViaFetch W profileDataOptions) ;;
     ret (match created with Some id => JStr id | None => JUndefined end)) s
    = (Return (JStr new), s1) /\ anon_profile_id s1 = Some new.
Proof.
  destruct (hasEnhancedNetwork W).
  - destruct (createViaNetwork_accepted s) as (s1 & H & Hs1).
    exists s1. rewrite (bind_return _ _ _ _ _ H). split; [reflexivity | exact Hs1].
  - destruct (createViaFetch_accepted s) as (s1 & H & Hs1).
    exists s1. rewrite (bind_return _ _ _ _ _ H). split; [reflexivity | exact Hs1].
Qed.

Lemma structured_creation_accepted s :
  hasEnhancedOperation W = true \/ supabaseClient W = true ->
  exists s1,
    (created <- (if hasEnhancedOperation W then createEnhanced W else ret None) ;;
     match created with
     | Some id => ret (JStr id)
     | None => createSdk W
     end) s
    = (Return (JStr new), s1) /\ anon_profile_id s1 = Some new.
Proof.
  intros Hcan. destruct (hasEnhancedOperation W).
  - destruct (createEnhanced_accepted s) as (s1 & H & Hs1).
    exists s1. rewrite (bind_return _ _ _ _ _ H). split; [reflexivity | exact Hs1].
  - destruct Hcan as [Hcan | Hc]; [discriminate |].
    rewrite (bind_return (ret None) _ s None s eq_refl). apply createSdk_accepted, Hc.
Qed.

Lemma getOrCreateAnonymousProfile_accepted s old :
  anon_profile_id s = Some old ->
  usable old = true ->
  reports_not_found W old ->
  fst (getOrCreateAnonymousProfile W s) = Return (JStr new) /\
  anon_profile_id (snd (getOrCreateAnonymousProfile W s)) = Some new.
Proof.
  intros Hslot Husable [Hempty | [Hthrows H404]]; unfold getOrCreateAnonymousProfile.
  - unfold provisionStructured. 
    assert (exists s2, provisionStructured W s = (Return (JStr new), s2) /\
                       anon_profile_id s2 = Some new) as (s2 & H & Hs2).
    { unfold provisionStructured. rewrite bind_getStoredId, Hslot.
      destruct (verifyStored_empty W old s Husable Hempty) as (s1 & Hv & _).
      rewrite (bind_return _ _ _ _ _ Hv). apply structured_creation_accepted.
      unfold structured_check_empty in Hempty.
      destruct (hasEnhancedOperation W); [left; reflexivity | right; apply Hempty]. }
    fold (provisionStructured W). rewrite (try_catch_return _ _ _ _ _ H).
    split; [reflexivity | exact Hs2].
  - assert (exists e s1, provisionStructured W s = (Throw e, s1) /\
                         anon_profile_id s1 = Some old) as (e & s1 & H & Hs1).
    { unfold provisionStructured. rewrite bind_getStoredId, Hslot.
      destruct (verifyStored_throws W old s Husable Hthrows) as (e & s1 & Hv & Hs1 & _).
      exists e, s1. rewrite (bind_throw _ _ _ _ _ Hv). split; [reflexivity | congruence]. }
    rewrite (try_catch_throw _ _ _ _ _ H). unfold restFallback.
    rewrite bind_log.
    destruct (logError_keeps W "AUTH_ANON_PROFILE_SUPABASE_OPERATION_FAILED" e high
                (fun st => anon_profile_id st = Some old)
                (snd (log LevelError "Supabase anonymous profile operation failed:" s1)))
      as (s2 & Hlog & Hs2); [intros st entry Hst; exact Hst | exact Hs1 |].
    rewrite (bind_return _ _ _ _ _ Hlog).
    assert (exists s3, provisionRest W s2 = (Return (JStr new), s3) /\
                       anon_profile_id s3 = Some new) as (s3 & Hrest & Hs3).
    { unfold provisionRest. rewrite bind_log, bind_getStoredId, slot_log, Hs2.
      match goal with |- context [bind (verifyRest W (Some old)) _ ?st] =>
        destruct (verifyRest_404 W old st Husable H404) as (s3 & Hv & _)
      end.
      rewrite (bind_return _ _ _ _ _ Hv). apply rest_creation_accepted. }
    rewrite (try_catch_return _ _ _ _ _ Hrest). split; [reflexivity | exact Hs3].
Qed.

End Accepted.


Lemma serving_never_issues u made old :
  made <> old -> never_issues (full_page (serving u [] made)) old.
Proof.
  intros Hne. unfold never_issues, body_row. simpl.
  repeat split; intros h c; destruct c; simpl; intros;
    repeat (simplify_eq; simpl in * ); try discriminate;
    repeat match goal with
      | |- context [usable ?x] => destruct (usable x)
      end; congruence.
Qed.



(** * More of the helper *)

(** ** What no operation changes *)

(** An invariant that the primitive effects keep is kept by every operation
    of the helper, and so by every session. *)
Section Frame.

Variable I : Session -> Prop.
Hypothesis I_log : forall lvl line, preserves I (log lvl line).
Hypothesis I_record : forall entry, preserves I (record entry).
Hypothesis I_issue : forall A c (answer : list Call -> Completion A), preserves I (issue c answer).
Hypothesis I_flag : preserves I (set_authTimeoutLogged true).
Hypothesis I_set : forall id, preserves I (setStoredId id).
Hypothesis I_remove : preserves I removeStoredId.

Ltac frame_leaf :=
  first
    [ assumption
    | apply I_log | apply I_record | apply I_issue | apply I_flag | apply I_set
    | apply I_remove
    | pure_leaf ].

Create HintDb frame.

Ltac frame_block := walk ltac:(first [solve [auto with frame] | frame_leaf]).

Variable W : Window.

Lemma getCurrentUserId_frame : preserves I (getCurrentUserId W).
Proof. unfold getCurrentUserId, startGetUser. frame_block. Qed.

#[local] Hint Resolve getCurrentUserId_frame : frame.

Lemma getCurrentUserIdentifier_frame : preserves I (getCurrentUserIdentifier W).
Proof. unfold getCurrentUserIdentifier. frame_block. Qed.

Lemma verifyStored_frame o : preserves I (verifyStored W o).
Proof. unfold verifyStored. frame_block. Qed.

Lemma createEnhanced_frame : preserves I (createEnhanced W).
Proof. unfold createEnhanced. frame_block. Qed.

Lemma insertSdk_frame sh prev : preserves I (insertSdk W sh prev).
Proof. unfold insertSdk. frame_block. Qed.

#[local] Hint Resolve getCurrentUserIdentifier_frame verifyStored_frame
  createEnhanced_frame insertSdk_frame : frame.

Lemma createSdk_frame : preserves I (createSdk W).
Proof. unfold createSdk. frame_block. Qed.

#[local] Hint Resolve createSdk_frame : frame.

Lemma provisionStructured_frame : preserves I (provisionStructured W).
Proof. unfold provisionStructured. frame_block. Qed.

Lemma evictIf404_frame r : preserves I (evictIf404 r).
Proof. unfold evictIf404. frame_block. Qed.

#[local] Hint Resolve provisionStructured_frame evictIf404_frame : frame.

Lemma verifyRest_frame o : preserves I (verifyRest W o).
Proof. unfold verifyRest. frame_block. Qed.

Lemma createViaNetwork_frame shapes : preserves I (createViaNetwork W shapes).
Proof. induction shapes as [| sh rest IH]; cbn [createViaNetwork]; frame_block. Qed.

Lemma createViaFetch_frame shapes : preserves I (createViaFetch W shapes).
Proof. induction shapes as [| sh rest IH]; cbn [createViaFetch]; frame_block. Qed.

#[local] Hint Resolve verifyRest_frame createViaNetwork_frame createViaFetch_frame : frame.

Lemma provisionRest_frame : preserves I (provisionRest W).
Proof. unfold provisionRest. frame_block. Qed.

#[local] Hint Resolve provisionRest_frame : frame.

Lemma restFallback_frame error : preserves I (restFallback W error).
Proof. unfold restFallback. frame_block. Qed.

#[local] Hint Resolve restFallback_frame : frame.

Lemma getOrCreateAnonymousProfile_frame : preserves I (getOrCreateAnonymousProfile W).
Proof. unfold getOrCreateAnonymousProfile. frame_block. Qed.

Lemma clearAnonymousProfile_frame : preserves I (clearAnonymousProfile W).
Proof. unfold clearAnonymousProfile. frame_block. Qed.

#[local] Hint Resolve getOrCreateAnonymousProfile_frame clearAnonymousProfile_frame : frame.

Lemma requireAuthentication_frame : preserves I (requireAuthentication W).
Proof. unfold requireAuthentication. frame_block. Qed.

Lemma requireUserIdentifier_frame : preserves I (requireUserIdentifier W).
Proof. unfold requireUserIdentifier. frame_block. Qed.

Lemma addUserIdentifierToData_frame data : preserves I (addUserIdentifierToData W data).
Proof. unfold addUserIdentifierToData. frame_block. Qed.

#[local] Hint Resolve requireAuthentication_frame addUserIdentifierToData_frame : frame.

Lemma createInsertPayload_frame data requireAuth :
  preserves I (createInsertPayload W data requireAuth).
Proof. unfold createInsertPayload. frame_block. Qed.

Lemma getUserQueryFilter_frame allowAnonymous :
  preserves I (getUserQueryFilter W allowAnonymous).
Proof. unfold getUserQueryFilter. frame_block. Qed.

Lemma signOut_frame : preserves I (signOut W).
Proof. unfold signOut. frame_block. Qed.

Lemma isAuthenticated_frame : preserves I (isAuthenticated W).
Proof. unfold isAuthenticated. frame_block. Qed.

Lemma getAuthState_frame : preserves I (getAuthState W).
Proof. unfold getAuthState. frame_block. Qed.

#[local] Hint Resolve getAuthState_frame : frame.

Lemma debugAuthState_frame : preserves I (debugAuthState W).
Proof. unfold debugAuthState. frame_block. Qed.

Lemma upgradeAnonymousUser_frame E email password :
  preserves I (upgradeAnonymousUser W E email password).
Proof. unfold upgradeAnonymousUser, validateInputs, signUp, ask. frame_block. Qed.

Lemma step_frame o s : I s -> I (step W s o).
Proof.
  intros Hs. destruct o; simpl.
  - apply getCurrentUserId_frame, Hs.
  - apply getCurrentUserIdentifier_frame, Hs.
  - apply getOrCreateAnonymousProfile_frame, Hs.
  - apply requireAuthentication_frame, Hs.
  - apply requireUserIdentifier_frame, Hs.
  - apply addUserIdentifierToData_frame, Hs.
  - apply createInsertPayload_frame, Hs.
  - apply getUserQueryFilter_frame, Hs.
  - apply clearAnonymousProfile_frame, Hs.
  - apply signOut_frame, Hs.
Qed.

Lemma run_frame ops s : I s -> I (run W ops s).
Proof. apply preserves_run. intros o st. apply step_frame. Qed.

Lemma step_exported_frame o s : I s -> I (step_exported W s o).
Proof.
  intros Hs. destruct o as [o | | | | E email password]; simpl.
  - apply step_frame, Hs.
  - apply isAuthenticated_frame, Hs.
  - apply getAuthState_frame, Hs.
  - apply debugAuthState_frame, Hs.
  - apply upgradeAnonymousUser_frame, Hs.
Qed.

Lemma run_exported_frame ops s : I s -> I (run_exported W ops s).
Proof.
  unfold run_exported. revert s.
  induction ops as [| o ops IH]; intros s Hs; simpl; [exact Hs |].
  apply IH, step_exported_frame, Hs.
Qed.

End Frame.

(** X1: in any session of the operations that [window.authHelper] exports,
    whatever the remote answers, [window.authErrorCount] keeps the value it
    was loaded with, and [window.authTimeoutLogged], once set, is never
    reset. *)
Theorem session_flags_are_never_reset W ops s :
  authErrorCount (run_exported W ops s) = authErrorCount s /\
  implb (authTimeoutLogged s) (authTimeoutLogged (run_exported W ops s)) = true.
Proof.
  split.
  - apply (run_exported_frame (fun st => authErrorCount st = authErrorCount s));
      try reflexivity; intros; intros st Hst; exact Hst.
  - destruct (authTimeoutLogged s) eqn:Hflag; [| reflexivity]. simpl.
    apply (run_exported_frame (fun st => authTimeoutLogged st = true));
      try assumption; intros; intros st Hst; first [exact Hst | reflexivity].
Qed.

(** ** The session lookup, continued *)

(** X2: [getCurrentUserId] issues exactly one session lookup when the client
    is installed and no call at all when it is not, in which case it returns
    [null]; it never touches the storage slot. *)
Theorem getCurrentUserId_one_lookup W s :
  issued (getCurrentUserId W) s = (if supabaseClient W then [GetUser] else []) /\
  (supabaseClient W = false -> fst (getCurrentUserId W s) = Return JNull) /\
  anon_profile_id (snd (getCurrentUserId W s)) = anon_profile_id s.
Proof.
  split; [| split].
  - apply issued_eq. unfold getCurrentUserId. unfold_js.
    cases; rewrite ?app_nil_r; reflexivity.
  - intros Hc. unfold getCurrentUserId. unfold_js. rewrite Hc. reflexivity.
  - apply getCurrentUserId_slot.
Qed.

(** X3: when the session lookup fails with an error (thrown, or rejected
    before the timer fires), [getCurrentUserId] returns [null].  An error
    whose message mentions "timeout" adds no [AUTH_GET_USER_ID] record; any
    other error is handed to the error handler as [AUTH_GET_USER_ID] at high
    severity on every occurrence, whatever [authTimeoutLogged] says, and the
    flag keeps its value. *)
Theorem getCurrentUserId_failure_is_reported W s e :
  lookup_fails W s e ->
  errorHandler W = true ->
  fst (getCurrentUserId W s) = Return JNull /\
  if includes "timeout" (message e) then
    diagnostics "AUTH_GET_USER_ID" (snd (getCurrentUserId W s)) =
      diagnostics "AUTH_GET_USER_ID" s
  else
    handled (snd (getCurrentUserId W s)) =
      (handled s ++ [LoggedError "AUTH_GET_USER_ID" e high])%list /\
    authTimeoutLogged (snd (getCurrentUserId W s)) = authTimeoutLogged s.
Proof.
  intros [Hc Hfail] Hh. unfold getCurrentUserId. unfold_js. rewrite Hc, Hh. simpl.
  destruct Hfail as [Hget | (ms & Hms & Hget)]; rewrite Hget; simpl.
  - destruct (includes "timeout" (message e)); simpl; auto.
  - apply Z.ltb_lt in Hms. rewrite Hms. simpl.
    destruct (includes "timeout" (message e)) eqn:Hinc; simpl.
    + unfold diagnostics. destruct (authTimeoutLogged s); simpl;
        (split; [reflexivity |]); [reflexivity |].
      rewrite filter_app, length_app. simpl. lia.
    + rewrite Hinc. simpl. auto.
Qed.

Lemma getCurrentUserId_failure_is_reported_witness :
  fst (getCurrentUserId (full_page broken) (fresh None)) = Return JNull /\
  handled (snd (getCurrentUserId (full_page broken) (fresh None))) =
    [LoggedError "AUTH_GET_USER_ID" unreachable high] /\
  authTimeoutLogged (snd (getCurrentUserId (full_page broken) (fresh None))) = false.
Proof.
  apply (getCurrentUserId_failure_is_reported (full_page broken) (fresh None) unreachable).
  - split; [reflexivity | left; reflexivity].
  - reflexivity.
Defined.

(** ** The state snapshot *)

(** X4: [isAuthenticated] never throws.  It answers [true] for a signed-in
    caller, and whenever it answers [false], [requireAuthentication] throws
    ['User not authenticated'] from the same state. *)
Theorem isAuthenticated_and_requireAuthentication W s :
  exists b,
    fst (isAuthenticated W s) = Return b /\
    (forall u, signed_in W s u -> b = true) /\
    (b = false ->
     fst (requireAuthentication W s) = Throw (mkError "User not authenticated")).
Proof.
  unfold isAuthenticated, requireAuthentication, bind.
  destruct (getCurrentUserId_value W s) as [H | [id H]].
  - destruct (getCurrentUserId W s) as [[v | e] s1] eqn:Hrun; simpl in H; [| discriminate].
    injection H as ->. exists false. simpl. split; [reflexivity |]. split; [| reflexivity].
    intros u Hu. destruct (getCurrentUserId_signed_in W s u Hu) as [Hv _].
    rewrite Hrun in Hv. discriminate Hv.
  - destruct (getCurrentUserId W s) as [[v | e] s1] eqn:Hrun; simpl in H; [| discriminate].
    injection H as ->. exists true. simpl. split; [reflexivity |]. split; [reflexivity |].
    discriminate.
Qed.

Lemma getAuthState_run W s :
  exists userId,
    fst (getCurrentUserId W s) = Return userId /\
    getAuthState W s =
      (Return (auth_state (not_null userId) (negb (not_null userId)) userId
                 (if not_null userId then JNull else stored_value (anon_profile_id s))),
       snd (getCurrentUserId W s)).
Proof.
  pose proof (getCurrentUserId_slot W s) as Hslot.
  unfold getAuthState, try_catch, bind.
  destruct (getCurrentUserId_value W s) as [H | [id H]];
    destruct (getCurrentUserId W s) as [[v | e] s1]; simpl in H; try discriminate;
    injection H as ->; eexists; (split; [reflexivity |]); simpl in *.
  - unfold getStoredId. rewrite Hslot. reflexivity.
  - reflexivity.
Qed.

(** X5: [getAuthState] never throws and changes the page exactly as
    [getCurrentUserId] does, so it issues no call to the guest-profile store.
    [isAnonymous] is the negation of [isAuthenticated]; [anonProfileId] is
    [null] when the lookup gave a user id, even if a guest id is stored, and
    otherwise it is the content of the storage slot as found, unverified. *)
Theorem getAuthState_snapshot W s :
  exists userId,
    fst (getCurrentUserId W s) = Return userId /\
    getAuthState W s =
      (Return (auth_state (not_null userId) (negb (not_null userId)) userId
                 (if not_null userId then JNull else stored_value (anon_profile_id s))),
       snd (getCurrentUserId W s)).
Proof. apply getAuthState_run. Qed.

(** X6: [debugAuthState] never returns [null]: it returns the very snapshot
    that [getAuthState] gives from the same state, and adds one console line
    to what [getAuthState] does to the page. *)
Theorem debugAuthState_returns_the_snapshot W s :
  exists state,
    fst (getAuthState W s) = Return state /\
    debugAuthState W s =
      (Return (Some state), snd (log LevelLog "Auth State Debug:" (snd (getAuthState W s)))).
Proof.
  destruct (getAuthState_run W s) as (userId & _ & Hrun).
  unfold debugAuthState, try_catch, bind. rewrite Hrun. simpl. eexists. split; reflexivity.
Qed.

(** ** Upgrading a guest *)

(** X7: [upgradeAnonymousUser] never throws; it returns [true] or [false].
    When it returns [true] the storage slot is empty afterwards; when it
    returns [false] (invalid input, a failed or throwing sign-up, or no user
    id in the answer) the slot is untouched.  Either way it issues no call
    to the guest-profile store: the records of the guest are not migrated. *)
Theorem upgradeAnonymousUser_outcome W E email password s :
  calls (snd (upgradeAnonymousUser W E email password s)) = calls s /\
  ((fst (upgradeAnonymousUser W E email password s) = Return true /\
    anon_profile_id (snd (upgradeAnonymousUser W E email password s)) = None) \/
   (fst (upgradeAnonymousUser W E email password s) = Return false /\
    anon_profile_id (snd (upgradeAnonymousUser W E email password s)) = anon_profile_id s)).
Proof.
  unfold upgradeAnonymousUser, validateInputs, signUp, clearAnonymousProfile, ask.
  unfold_js. cases; (split; [reflexivity |]); first [left; split; reflexivity | right; split; reflexivity].
Qed.

(** ** Filters without provisioning *)

(** X8: with [allowAnonymous = false], [getUserQueryFilter] changes the page
    exactly as [getCurrentUserId] does: it never reads, verifies or creates
    a guest profile. *)
Theorem getUserQueryFilter_strict_never_provisions W s :
  snd (getUserQueryFilter W false s) = snd (getCurrentUserId W s).
Proof.
  unfold getUserQueryFilter, bind.
  destruct (getCurrentUserId W s) as [[v | e] s1]; simpl; [| reflexivity].
  destruct (truthy v); reflexivity.
Qed.

(** X9: for a caller authenticated as [u], [getUserQueryFilter] returns
    [{ user_id: u }] and nothing else, with either value of
    [allowAnonymous], and does to the page only what [getCurrentUserId]
    does: no guest profile is looked up or created. *)
Theorem getUserQueryFilter_authenticated W s allowAnonymous u :
  signed_in W s u ->
  getUserQueryFilter W allowAnonymous s =
    (Return {["user_id" := JStr u]}, snd (getCurrentUserId W s)).
Proof.
  intros Hu. destruct (getCurrentUserId_signed_in W s u Hu) as [Hv _].
  destruct Hu as (_ & Husable & _). unfold usable in Husable.
  unfold getUserQueryFilter, bind.
  destruct (getCurrentUserId W s) as [[v | e] s1]; simpl in *; [| discriminate].
  injection Hv as ->. simpl. rewrite Husable. reflexivity.
Qed.

Lemma getUserQueryFilter_authenticated_witness :
  getUserQueryFilter (full_page (serving (Some "u-1") [] "g-1")) true (fresh (Some "g-0")) =
    (Return {["user_id" := JStr "u-1"]},
     snd (getCurrentUserId (full_page (serving (Some "u-1") [] "g-1")) (fresh (Some "g-0")))).
Proof.
  apply (getUserQueryFilter_authenticated
           (full_page (serving (Some "u-1") [] "g-1")) (fresh (Some "g-0")) true "u-1").
  split; [reflexivity |]. split; [reflexivity |].
  exists 20. split; [reflexivity | reflexivity].
Defined.

(** ** What guest provisioning returns *)

Lemma row_ident_usable d id : row_ident d = Some id -> usable id = true.
Proof.
  unfold row_ident. destruct d as [[[i |]] |]; simpl; try (intros H; discriminate H).
  destruct (usable i) eqn:Hi; intros H; [| discriminate H]. injection H as <-. exact Hi.
Qed.

Ltac holds_leaf :=
  simpl in *; unfold holds_returned, holds_returned_opt in *; simpl in *;
  try exact I;
  repeat match goal with
         | H : row_ident _ = Some _ |- _ => apply row_ident_usable in H
         end;
  auto.

Lemma verifyStored_holds W o :
  hoare (fun s => anon_profile_id s = o) (verifyStored W o) holds_returned_opt.
Proof. intros s Hs. unfold verifyStored. unfold_js. cases; holds_leaf. Qed.

Lemma createEnhanced_holds W :
  hoare (fun _ => True) (createEnhanced W) holds_returned_opt.
Proof. intros s _. unfold createEnhanced. unfold_js. cases; holds_leaf. Qed.

Lemma createSdk_holds W : hoare (fun _ => True) (createSdk W) holds_returned.
Proof. intros s _. unfold createSdk, insertSdk. unfold_js. cases; holds_leaf. Qed.

Lemma verifyRest_holds W o :
  hoare (fun s => anon_profile_id s = o) (verifyRest W o) holds_returned_opt.
Proof. intros s Hs. unfold verifyRest, evictIf404. unfold_js. cases; holds_leaf. Qed.

Lemma createViaNetwork_holds W shapes :
  hoare (fun _ => True) (createViaNetwork W shapes) holds_returned_opt.
Proof.
  induction shapes as [| sh rest IH]; [intros s _; exact I |].
  cbn [createViaNetwork].
  eapply hoare_bind with (Q := holds_returned_opt).
  - intros s _. unfold_js. cases; holds_leaf.
  - intros [id |]; [intros s Hs; exact Hs |].
    intros s _. apply IH. exact I.
  - intros e s _. exact I.
Qed.

Lemma createViaFetch_holds W shapes :
  hoare (fun _ => True) (createViaFetch W shapes) holds_returned_opt.
Proof.
  induction shapes as [| sh rest IH]; [intros s _; exact I |].
  cbn [createViaFetch].
  eapply hoare_bind with (Q := holds_returned_opt).
  - intros s _. unfold_js. cases; holds_leaf.
  - intros [id |]; [intros s Hs; exact Hs |].
    intros s _. apply IH. exact I.
  - intros e s _. exact I.
Qed.

Lemma provisionStructured_holds W :
  hoare (fun _ => True) (provisionStructured W) holds_returned.
Proof.
  unfold provisionStructured.
  eapply hoare_bind with
    (Q := fun c s => match c with Return o => anon_profile_id s = o | Throw _ => True end).
  - intros s _. reflexivity.
  - intros o. eapply hoare_bind with (Q := holds_returned_opt).
    + apply verifyStored_holds.
    + intros [id |]; [intros s Hs; exact Hs |].
      eapply hoare_bind with (Q := holds_returned_opt).
      * destruct (hasEnhancedOperation W).
        -- intros s _. apply createEnhanced_holds. exact I.
        -- intros s _. exact I.
      * intros [id |]; [intros s Hs; exact Hs |].
        intros s _. apply createSdk_holds. exact I.
      * intros e s _. exact I.
    + intros e s _. exact I.
  - intros e s _. exact I.
Qed.

Lemma provisionRest_holds W :
  hoare (fun _ => True) (provisionRest W) holds_returned.
Proof.
  unfold provisionRest.
  eapply hoare_bind with (Q := fun _ _ => True); [intros s _; exact I | | auto].
  intros _.
  eapply hoare_bind with
    (Q := fun c s => match c with Return o => anon_profile_id s = o | Throw _ => True end).
  - intros s _. reflexivity.
  - intros o. eapply hoare_bind with (Q := holds_returned_opt).
    + apply verifyRest_holds.
    + intros [id |]; [intros s Hs; exact Hs |].
      eapply hoare_bind with (Q := holds_returned_opt).
      * destruct (hasEnhancedNetwork W); intros s _;
          [apply createViaNetwork_holds | apply createViaFetch_holds]; exact I.
      * intros [id |]; intros s Hs; exact Hs.
      * intros e s _. exact I.
    + intros e s _. exact I.
  - intros e s _. exact I.
Qed.

Lemma getOrCreateAnonymousProfile_holds W :
  hoare (fun _ => True) (getOrCreateAnonymousProfile W) holds_returned.
Proof.
  unfold getOrCreateAnonymousProfile.
  eapply hoare_try_catch with (Q := holds_returned).
  - apply provisionStructured_holds.
  - auto.
  - intros error. unfold restFallback.
    eapply hoare_bind with (Q := fun _ _ => True); [intros s _; exact I | | auto].
    intros _.
    eapply hoare_bind with (Q := fun _ _ => True); [intros s _; exact I | | auto].
    intros _.
    eapply hoare_try_catch with (Q := holds_returned).
    + intros s _. apply provisionRest_holds. exact I.
    + auto.
    + intros restfulError s _. unfold_js. cases; exact I.
Qed.

(** X10: [getOrCreateAnonymousProfile] never throws, whatever the page has
    installed and whatever the remote answers on any transport.  It returns
    [null], [undefined] or an id; a returned id is a non-empty string, and
    the storage slot holds exactly that id when the call returns. *)
Theorem getOrCreateAnonymousProfile_returns_what_is_stored W s :
  exists v,
    fst (getOrCreateAnonymousProfile W s) = Return v /\
    match v with
    | JNull | JUndefined => True
    | JStr id =>
        usable id = true /\
        anon_profile_id (snd (getOrCreateAnonymousProfile W s)) = Some id
    | _ => False
    end.
Proof.
  pose proof (getOrCreateAnonymousProfile_total W s) as Htot.
  pose proof (getOrCreateAnonymousProfile_holds W s I) as Hheld.
  destruct (returns_inv _ Htot) as [v Hv]. exists v. split; [exact Hv |].
  rewrite Hv in Hheld. simpl in Hheld.
  destruct v as [| | b | n | id]; first [exact I | exact Hheld].
Qed.

(** ** Provisioning once *)

Lemma getOrCreateAnonymousProfile_first W s new :
  anon_profile_id s = None ->
  accepts W new ->
  hasEnhancedOperation W = true \/ supabaseClient W = true ->
  fst (getOrCreateAnonymousProfile W s) = Return (JStr new) /\
  anon_profile_id (snd (getOrCreateAnonymousProfile W s)) = Some new /\
  calls (snd (getOrCreateAnonymousProfile W s)) =
    (calls s ++ [Create (verifying_transport W) WithExpiresAt])%list.
Proof.
  intros Hslot (Hop & Hsdk & _) Hcan.
  unfold getOrCreateAnonymousProfile, restFallback, provisionStructured, verifyStored,
    verifying_transport, createEnhanced, createSdk, insertSdk.
  unfold_js. rewrite Hslot.
  destruct (hasEnhancedOperation W).
  - destruct (Hop (calls s)) as (r & Hr & Hok & Hid).
    simpl. rewrite Hr.
    repeat (first [rewrite Hok | rewrite Hid | progress simpl]).
    destruct (errorHandler W); simpl; auto.
  - destruct Hcan as [Hcan | Hc]; [discriminate |].
    destruct (Hsdk (calls s)) as (r & Hr & Herr & Hid).
    rewrite Hc. simpl. rewrite Hr.
    repeat (first [rewrite Herr | rewrite Hid | progress simpl]).
    destruct (errorHandler W); simpl; auto.
Qed.


Lemma serving_accepts u known made :
  usable made = true -> accepts (full_page (serving u known made)) made.
Proof.
  intros Hmade. unfold accepts, body_row, row_ident. simpl.
  repeat split; intros h; repeat eexists; simpl; rewrite ?Hmade; reflexivity.
Qed.


(** ** The shapes of a filter *)

(** X27: for an unauthenticated caller whose stored guest id the remote
    store confirms, [getUserQueryFilter(true)] returns
    [{ anon_profile_id: id }] and nothing else, and the slot still holds
    the id. *)
Theorem getUserQueryFilter_guest W s id :
  unauthenticated W s ->
  anon_profile_id s = Some id ->
  usable id = true ->
  verifies_existing W id ->
  fst (getUserQueryFilter W true s) = Return {["anon_profile_id" := JStr id]} /\
  anon_profile_id (snd (getUserQueryFilter W true s)) = Some id.
Proof.
  intros Hno Hslot Husable Hver.
  destruct (getCurrentUserId_unauthenticated W s Hno) as (v & Hv & Hfalsy).
  pose proof (getCurrentUserId_slot W s) as Hkept.
  unfold getUserQueryFilter, bind.
  destruct (getCurrentUserId W s) as [[userId | e] s1]; simpl in *; [| discriminate].
  injection Hv as ->. rewrite Hfalsy.
  assert (anon_profile_id s1 = Some id) as Hslot1 by congruence.
  destruct (getOrCreateAnonymousProfile_hit W s1 id Hslot1 Husable Hver) as (Hhit & Hafter & _).
  destruct (getOrCreateAnonymousProfile W s1) as [[anonProfileId | e] s2]; simpl in *;
    [| discriminate].
  injection Hhit as ->. simpl. unfold usable in Husable. rewrite Husable. simpl.
  split; [reflexivity | exact Hafter].
Qed.

Lemma getUserQueryFilter_guest_witness :
  fst (getUserQueryFilter (full_page (serving None ["g-1"] "g-2")) true (fresh (Some "g-1"))) =
    Return {["anon_profile_id" := JStr "g-1"]} /\
  anon_profile_id (snd (getUserQueryFilter (full_page (serving None ["g-1"] "g-2")) true
                          (fresh (Some "g-1")))) = Some "g-1".
Proof.
  apply (getUserQueryFilter_guest (full_page (serving None ["g-1"] "g-2"))
           (fresh (Some "g-1")) "g-1").
  - intros u (_ & _ & ms & _ & Hget). discriminate Hget.
  - reflexivity.
  - reflexivity.
  - apply serving_verifies.
Defined.

Lemma guest_filter_shapes W s :
  exists filter,
    fst ((anonProfileId <- getOrCreateAnonymousProfile W ;;
          if truthy anonProfileId then ret {["anon_profile_id" := anonProfileId]}
          else ret no_user_filter) s) = Return filter /\
    ((exists id, usable id = true /\ filter = {["anon_profile_id" := JStr id]}) \/
     filter = no_user_filter).
Proof.
  pose proof (getOrCreateAnonymousProfile_total W s) as Htot.
  pose proof (getOrCreateAnonymousProfile_holds W s I) as Hheld.
  unfold bind.
  destruct (getOrCreateAnonymousProfile W s) as [[v | e] s2]; simpl in *; [| contradiction].
  destruct v as [| | b | n | id]; simpl in *; try contradiction;
    try (eexists; split; [reflexivity |]; right; reflexivity).
  destruct Hheld as [Hid _]. unfold usable in Hid. rewrite Hid.
  eexists. split; [reflexivity |]. left. exists id. auto.
Qed.

(** X28: [getUserQueryFilter] never throws, and what it returns is one of
    three objects: [{ user_id: u }] with a non-empty [u],
    [{ anon_profile_id: id }] with a non-empty [id] (only when
    [allowAnonymous] is [true]), or the filter
    [{ user_id: 'no-user', anon_profile_id: 'no-user' }] that matches
    nothing.  It never names a real user and a real guest together. *)
Theorem getUserQueryFilter_shapes W s allowAnonymous :
  exists filter,
    fst (getUserQueryFilter W allowAnonymous s) = Return filter /\
    ((exists u, usable u = true /\ filter = {["user_id" := JStr u]}) \/
     (exists id, usable id = true /\ allowAnonymous = true /\
                 filter = {["anon_profile_id" := JStr id]}) \/
     filter = no_user_filter).
Proof.
  assert (forall s1,
            exists filter,
              fst ((if allowAnonymous then
                      anonProfileId <- getOrCreateAnonymousProfile W ;;
                      if truthy anonProfileId then ret {["anon_profile_id" := anonProfileId]}
                      else ret no_user_filter
                    else ret no_user_filter) s1) = Return filter /\
              ((exists id, usable id = true /\ allowAnonymous = true /\
                           filter = {["anon_profile_id" := JStr id]}) \/
               filter = no_user_filter)) as Hguest.
  { intros s1. destruct allowAnonymous.
    - destruct (guest_filter_shapes W s1) as (filter & Hrun & [(id & Hid & Hf) | Hf]);
        exists filter; (split; [exact Hrun |]); [left; exists id | right]; auto.
    - eexists. split; [reflexivity | right; reflexivity]. }
  unfold getUserQueryFilter, bind.
  destruct (getCurrentUserId_value W s) as [H | [u H]];
    destruct (getCurrentUserId W s) as [[userId | e] s1]; simpl in H; try discriminate;
    injection H as ->; simpl.
  - destruct (Hguest s1) as (filter & Hrun & Hshape).
    exists filter. split; [exact Hrun | right; exact Hshape].
  - destruct (negb (String.eqb u "")) eqn:Hu.
    + eexists. split; [reflexivity |]. left. exists u. split; [exact Hu | reflexivity].
    + destruct (Hguest s1) as (filter & Hrun & Hshape).
      exists filter. split; [exact Hrun | right; exact Hshape].
Qed.

(** ** How many calls one provisioning issues *)

Ltac spent_leaf :=
  simpl in *; unfold spent, checked, verification_due, given in *; simpl in *;
  rewrite ?length_app in *; simpl in *;
  repeat match goal with
         | H : anon_profile_id _ = _ |- _ => rewrite H in *; simpl in *
         | H : usable _ = _ |- _ => rewrite H in *; simpl in *
         end;
  try lia.

Lemma verifyStored_spent W o n :
  hoare (fun s => anon_profile_id s = o /\ (length (calls s) <= n)%nat)
    (verifyStored W o) (checked (S n)).
Proof. intros s [Hs Hn]. unfold verifyStored. unfold_js. cases; spent_leaf. Qed.

Lemma createEnhanced_spent W n :
  hoare (fun s => (length (calls s) + verification_due s <= n)%nat)
    (createEnhanced W) (spent present (3 + n)).
Proof. intros s Hn. unfold createEnhanced. unfold_js. cases; spent_leaf. Qed.

Lemma createSdk_spent W n :
  hoare (fun s => (length (calls s) + verification_due s <= n)%nat)
    (createSdk W) (spent is_id (3 + n)).
Proof. intros s Hn. unfold createSdk, insertSdk. unfold_js. cases; spent_leaf. Qed.

Lemma verifyRest_spent W o n :
  hoare (fun s => anon_profile_id s = o /\ (length (calls s) + verification_due s <= n)%nat)
    (verifyRest W o) (fun _ s => (length (calls s) <= n)%nat).
Proof. intros s [Hs Hn]. unfold verifyRest, evictIf404. unfold_js. cases; spent_leaf. Qed.

Lemma createViaNetwork_spent W shapes n :
  hoare (fun s => (length (calls s) <= n)%nat)
    (createViaNetwork W shapes) (fun _ s => (length (calls s) <= length shapes + n)%nat).
Proof.
  revert n. induction shapes as [| sh rest IH]; intros n; [intros s Hs; exact Hs |].
  cbn [createViaNetwork].
  eapply hoare_bind with (Q := fun _ s => (length (calls s) <= S n)%nat).
  - intros s Hs. unfold_js. cases; spent_leaf.
  - intros [id |]; [intros s Hs; simpl; lia |].
    intros s Hs. specialize (IH (S n) s Hs). simpl in *. lia.
  - intros e s Hs. simpl. lia.
Qed.

Lemma createViaFetch_spent W shapes n :
  hoare (fun s => (length (calls s) <= n)%nat)
    (createViaFetch W shapes) (fun _ s => (length (calls s) <= length shapes + n)%nat).
Proof.
  revert n. induction shapes as [| sh rest IH]; intros n; [intros s Hs; exact Hs |].
  cbn [createViaFetch].
  eapply hoare_bind with (Q := fun _ s => (length (calls s) <= S n)%nat).
  - intros s Hs. unfold_js. cases; spent_leaf.
  - intros [id |]; [intros s Hs; simpl; lia |].
    intros s Hs. specialize (IH (S n) s Hs). simpl in *. lia.
  - intros e s Hs. simpl. lia.
Qed.

Lemma provisionStructured_spent W n :
  hoare (fun s => (length (calls s) <= n)%nat)
    (provisionStructured W) (spent is_id (7 + n)).
Proof.
  unfold provisionStructured.
  eapply hoare_bind with
    (Q := fun c s => match c with
                     | Return o => anon_profile_id s = o /\ (length (calls s) <= n)%nat
                     | Throw _ => False
                     end).
  - intros s Hs. split; [reflexivity | exact Hs].
  - intros o. eapply hoare_bind with (Q := checked (S n)).
    + apply verifyStored_spent.
    + intros [id |]; [intros s Hs; spent_leaf |].
      eapply hoare_bind with (Q := spent present (3 + S n)).
      * destruct (hasEnhancedOperation W).
        -- apply createEnhanced_spent.
        -- intros s Hs. spent_leaf.
      * intros [id |]; [intros s Hs; spent_leaf |].
        eapply hoare_weaken; [apply (createSdk_spent W (3 + S n)) | |].
        -- intros s Hs. exact Hs.
        -- intros [v | e] s Hs; simpl in *; [destruct (is_id v) |]; lia.
      * intros e s Hs. simpl in *. lia.
    + intros e s Hs. unfold checked in Hs. unfold spent, verification_due.
      destruct (given (anon_profile_id s)); lia.
  - intros e s [].
Qed.

Lemma provisionRest_spent W n :
  hoare (fun s => (length (calls s) + verification_due s <= n)%nat)
    (provisionRest W) (fun _ s => (length (calls s) <= 3 + n)%nat).
Proof.
  unfold provisionRest.
  eapply hoare_bind with
    (Q := fun _ s => (length (calls s) + verification_due s <= n)%nat).
  - intros s Hs. exact Hs.
  - intros _.
    eapply hoare_bind with
      (Q := fun c s => match c with
                       | Return o => anon_profile_id s = o /\
                                     (length (calls s) + verification_due s <= n)%nat
                       | Throw _ => False
                       end).
    + intros s Hs. split; [reflexivity | exact Hs].
    + intros o. eapply hoare_bind with (Q := fun _ s => (length (calls s) <= n)%nat).
      * apply verifyRest_spent.
      * intros [id |]; [intros s Hs; simpl; lia |].
        eapply hoare_bind with (Q := fun _ s => (length (calls s) <= 3 + n)%nat).
        -- destruct (hasEnhancedNetwork W);
             [apply (createViaNetwork_spent W profileDataOptions n)
             | apply (createViaFetch_spent W profileDataOptions n)].
        -- intros created s Hs. exact Hs.
        -- intros e s Hs. exact Hs.
      * intros e s Hs. simpl. lia.
    + intros e s [].
  - intros e s Hs. simpl. lia.
Qed.

Lemma getOrCreateAnonymousProfile_spent W n :
  hoare (fun s => (length (calls s) <= n)%nat)
    (getOrCreateAnonymousProfile W) (fun _ s => (length (calls s) <= 10 + n)%nat).
Proof.
  unfold getOrCreateAnonymousProfile.
  eapply hoare_try_catch with (Q := spent is_id (7 + n)).
  - apply provisionStructured_spent.
  - intros v s Hs. simpl in Hs. destruct (is_id v); lia.
  - intros error. unfold restFallback.
    eapply hoare_bind with
      (Q := fun _ s => (length (calls s) + verification_due s <= 7 + n)%nat).
    + intros s Hs. exact Hs.
    + intros _.
      eapply hoare_bind with
        (Q := fun _ s => (length (calls s) + verification_due s <= 7 + n)%nat).
      * intros s Hs. unfold logError, when. destruct (errorHandler W); exact Hs.
      * intros _. eapply hoare_try_catch with
          (Q := fun _ s => (length (calls s) <= 3 + (7 + n))%nat).
        -- apply provisionRest_spent.
        -- intros v s Hs. exact Hs.
        -- intros restfulError s Hs. unfold_js. cases; exact Hs.
      * intros e s Hs. simpl. lia.
    + intros e s Hs. simpl. lia.
Qed.

Ltac created_leaf :=
  simpl in *; unfold created_within, creations in *; simpl in *;
  rewrite ?filter_app, ?length_app in *; simpl in *; try lia.

Lemma verifyStored_created W o k :
  preserves (created_within k) (verifyStored W o).
Proof. intros s Hs. unfold verifyStored. unfold_js. cases; created_leaf. Qed.

Lemma verifyRest_created W o k :
  preserves (created_within k) (verifyRest W o).
Proof. intros s Hs. unfold verifyRest, evictIf404. unfold_js. cases; created_leaf. Qed.

Lemma createEnhanced_created W k :
  hoare (created_within k) (createEnhanced W) (fun _ => created_within (3 + k)).
Proof. intros s Hs. unfold createEnhanced. unfold_js. cases; created_leaf. Qed.

Lemma createSdk_created W k :
  hoare (created_within k) (createSdk W) (fun _ => created_within (3 + k)).
Proof. intros s Hs. unfold createSdk, insertSdk. unfold_js. cases; created_leaf. Qed.

Lemma createViaNetwork_created W shapes k :
  hoare (created_within k) (createViaNetwork W shapes)
    (fun _ => created_within (length shapes + k)).
Proof.
  revert k. induction shapes as [| sh rest IH]; intros k; [intros s Hs; exact Hs |].
  cbn [createViaNetwork].
  eapply hoare_bind with (Q := fun _ => created_within (S k)).
  - intros s Hs. unfold_js. cases; created_leaf.
  - intros [id |]; [intros s Hs; created_leaf |].
    intros s Hs. specialize (IH (S k) s Hs). created_leaf.
  - intros e s Hs. created_leaf.
Qed.

Lemma createViaFetch_created W shapes k :
  hoare (created_within k) (createViaFetch W shapes)
    (fun _ => created_within (length shapes + k)).
Proof.
  revert k. induction shapes as [| sh rest IH]; intros k; [intros s Hs; exact Hs |].
  cbn [createViaFetch].
  eapply hoare_bind with (Q := fun _ => created_within (S k)).
  - intros s Hs. unfold_js. cases; created_leaf.
  - intros [id |]; [intros s Hs; created_leaf |].
    intros s Hs. specialize (IH (S k) s Hs). created_leaf.
  - intros e s Hs. created_leaf.
Qed.

Lemma created_within_le j k s : (j <= k)%nat -> created_within j s -> created_within k s.
Proof. unfold created_within. lia. Qed.

Lemma provisionStructured_created W k :
  hoare (created_within k) (provisionStructured W) (fun _ => created_within (6 + k)).
Proof.
  unfold provisionStructured.
  eapply hoare_bind with (Q := fun _ => created_within k).
  - intros s Hs. exact Hs.
  - intros o. eapply hoare_bind with (Q := fun _ => created_within k).
    + apply verifyStored_created.
    + intros [id |]; [intros s Hs; apply (created_within_le k); [lia | exact Hs] |].
      eapply hoare_bind with (Q := fun _ => created_within (3 + k)).
      * destruct (hasEnhancedOperation W); [apply createEnhanced_created |].
        intros s Hs. apply (created_within_le k); [lia | exact Hs].
      * intros [id |]; [intros s Hs; apply (created_within_le (3 + k)); [lia | exact Hs] |].
        apply (createSdk_created W (3 + k)).
      * intros e s Hs. apply (created_within_le (3 + k)); [lia | exact Hs].
    + intros e s Hs. apply (created_within_le k); [lia | exact Hs].
  - intros e s Hs. apply (created_within_le k); [lia | exact Hs].
Qed.

Lemma provisionRest_created W k :
  hoare (created_within k) (provisionRest W) (fun _ => created_within (3 + k)).
Proof.
  unfold provisionRest.
  eapply hoare_bind with (Q := fun _ => created_within k).
  - intros s Hs. exact Hs.
  - intros _. eapply hoare_bind with (Q := fun _ => created_within k).
    + intros s Hs. exact Hs.
    + intros o. eapply hoare_bind with (Q := fun _ => created_within k).
      * apply verifyRest_created.
      * intros [id |]; [intros s Hs; apply (created_within_le k); [lia | exact Hs] |].
        eapply hoare_bind with (Q := fun _ => created_within (3 + k)).
        -- destruct (hasEnhancedNetwork W);
             [apply (createViaNetwork_created W profileDataOptions k)
             | apply (createViaFetch_created W profileDataOptions k)].
        -- intros created s Hs. exact Hs.
        -- intros e s Hs. exact Hs.
      * intros e s Hs. apply (created_within_le k); [lia | exact Hs].
    + intros e s Hs. apply (created_within_le k); [lia | exact Hs].
  - intros e s Hs. apply (created_within_le k); [lia | exact Hs].
Qed.

Lemma getOrCreateAnonymousProfile_created W k :
  hoare (created_within k) (getOrCreateAnonymousProfile W)
    (fun _ => created_within (9 + k)).
Proof.
  unfold getOrCreateAnonymousProfile.
  eapply hoare_try_catch with (Q := fun _ => created_within (6 + k)).
  - apply provisionStructured_created.
  - intros v s Hs. apply (created_within_le (6 + k)); [lia | exact Hs].
  - intros error. unfold restFallback.
    eapply hoare_bind with (Q := fun _ => created_within (6 + k)).
    + intros s Hs. exact Hs.
    + intros _. eapply hoare_bind with (Q := fun _ => created_within (6 + k)).
      * intros s Hs. unfold logError, when. destruct (errorHandler W); exact Hs.
      * intros _. eapply hoare_try_catch with (Q := fun _ => created_within (3 + (6 + k))).
        -- apply provisionRest_created.
        -- intros v s Hs. exact Hs.
        -- intros restfulError s Hs. unfold_js. cases; exact Hs.
      * intros e s Hs. apply (created_within_le (6 + k)); [lia | exact Hs].
    + intros e s Hs. apply (created_within_le (6 + k)); [lia | exact Hs].
Qed.

(** X12: one call of [getOrCreateAnonymousProfile] issues at most ten remote
    calls, of which at most nine are creations, whatever the page has
    installed and whatever the remote answers; and there is a page on which
    it does issue ten, nine of them creations. *)
Theorem getOrCreateAnonymousProfile_call_budget :
  (forall W s,
     (length (issued (getOrCreateAnonymousProfile W) s) <= 10)%nat /\
     (creations (snd (getOrCreateAnonymousProfile W s)) <= 9 + creations s)%nat) /\
  (exists W s,
     length (issued (getOrCreateAnonymousProfile W) s) = 10%nat /\
     creations (snd (getOrCreateAnonymousProfile W s)) = (9 + creations s)%nat).
Proof.
  split.
  - intros W s. split.
    + pose proof (getOrCreateAnonymousProfile_spent W (length (calls s)) s (le_n _)) as H.
      simpl in H. unfold issued. rewrite length_drop. lia.
    + apply (getOrCreateAnonymousProfile_created W (creations s) s). unfold created_within. lia.
  - exists (full_page rejecting), (fresh (Some "g-0")). split; vm_compute; reflexivity.
Qed.

(** ** An unreachable store *)

Section Outage.

Variable W : Window.
Hypothesis Hout : unreachable_store W.

(** Rewrite the next call to the store with the error it throws. *)
Ltac outage_step :=
  let e := fresh "e" in
  let He := fresh "He" in
  match goal with
  | |- context [enhancedSupabaseOperation (remote W) ?h ?c] =>
      destruct (proj1 Hout h c) as [e He]; rewrite He
  | |- context [from_anonymous_profiles (remote W) ?h ?c] =>
      destruct (proj1 (proj2 Hout) h c) as [e He]; rewrite He
  | |- context [enhancedNetworkOperation (remote W) ?h ?c] =>
      destruct (proj1 (proj2 (proj2 Hout)) h c) as [e He]; rewrite He
  | |- context [fetch (remote W) ?h ?c] =>
      destruct (proj2 (proj2 (proj2 Hout)) h c) as [e He]; rewrite He
  end.

Ltac outage :=
  repeat first
    [ progress simpl
    | outage_step
    | match goal with
      | |- context [match ?x with _ => _ end] =>
          lazymatch x with
          | context [match _ with _ => _ end] => fail
          | context [remote W] => fail
          | _ => destruct x eqn:?
          end
      end ].

Lemma provisionStructured_outage s :
  exists e s1, provisionStructured W s = (Throw e, s1) /\
               anon_profile_id s1 = anon_profile_id s.
Proof.
  unfold provisionStructured, verifyStored, createEnhanced, createSdk, insertSdk.
  unfold_js. outage; eauto.
Qed.

Lemma provisionRest_outage s :
  exists e s1, provisionRest W s = (Throw e, s1) /\
               anon_profile_id s1 = anon_profile_id s.
Proof.
  unfold provisionRest, verifyRest, profileDataOptions.
  cbn [createViaNetwork createViaFetch is_last].
  unfold_js. outage; eauto.
Qed.

Lemma getOrCreateAnonymousProfile_outage s :
  fst (getOrCreateAnonymousProfile W s) = Return JNull /\
  anon_profile_id (snd (getOrCreateAnonymousProfile W s)) = anon_profile_id s.
Proof.
  unfold getOrCreateAnonymousProfile.
  destruct (provisionStructured_outage s) as (e & s1 & H1 & Hs1).
  rewrite (try_catch_throw _ _ _ _ _ H1). unfold restFallback.
  rewrite bind_log.
  destruct (logError_keeps W "AUTH_ANON_PROFILE_SUPABASE_OPERATION_FAILED" e high
              (fun st => anon_profile_id st = anon_profile_id s)
              (snd (log LevelError "Supabase anonymous profile operation failed:" s1)))
    as (s2 & Hlog & Hs2); [intros st entry Hst; exact Hst | exact Hs1 |].
  rewrite (bind_return _ _ _ _ _ Hlog).
  destruct (provisionRest_outage s2) as (e' & s3 & H3 & Hs3).
  rewrite (try_catch_throw _ _ _ _ _ H3).
  unfold_js. destruct (errorHandler W); simpl; split; congruence.
Qed.

End Outage.


(** X13: when the record store cannot be reached on any transport (every
    call throws), [getOrCreateAnonymousProfile] returns [null] without
    throwing and leaves the storage slot as it found it: an outage never
    loses a stored guest id. *)
Theorem outage_keeps_the_guest_id W s :
  unreachable_store W ->
  fst (getOrCreateAnonymousProfile W s) = Return JNull /\
  anon_profile_id (snd (getOrCreateAnonymousProfile W s)) = anon_profile_id s.
Proof. intros Hout. apply getOrCreateAnonymousProfile_outage, Hout. Qed.

Lemma outage_keeps_the_guest_id_witness :
  fst (getOrCreateAnonymousProfile (full_page silent) (fresh (Some "g-1"))) = Return JNull /\
  anon_profile_id (snd (getOrCreateAnonymousProfile (full_page silent) (fresh (Some "g-1")))) =
    Some "g-1".
Proof.
  apply (outage_keeps_the_guest_id (full_page silent) (fresh (Some "g-1"))).
  repeat split; intros h c; exists unreachable; reflexivity.
Defined.

(** ** What sign-out reports *)

(** X14: with the error handler installed, [signOut] hands it exactly two
    records.  When the remote sign-out raises an error (a throwing wrapper,
    a throwing or rejecting call, or the 5000 ms timer) they are
    [AUTH_SIGN_OUT_ERROR] at medium severity and then
    [AUTH_ANON_PROFILE_CLEARED]; in every other case, also when the answer
    itself reports a failure and when there is no client, they are
    [AUTH_ANON_PROFILE_CLEARED] and then [AUTH_SIGN_OUT_SUCCESS]. *)
Theorem signOut_reports W s :
  errorHandler W = true ->
  handled (snd (signOut W s)) =
    (handled s ++
     match sign_out_raises W s with
     | Some e => [LoggedError "AUTH_SIGN_OUT_ERROR" e medium;
                  LoggedInfo "AUTH_ANON_PROFILE_CLEARED"]
     | None => [LoggedInfo "AUTH_ANON_PROFILE_CLEARED";
                LoggedInfo "AUTH_SIGN_OUT_SUCCESS"]
     end)%list.
Proof.
  intros Hh. unfold sign_out_raises, signOut, clearAnonymousProfile. unfold_js.
  rewrite Hh. cases; rewrite <- ?app_assoc; reflexivity.
Qed.

Lemma signOut_reports_witness :
  handled (snd (signOut (full_page refusing) (fresh None))) =
    [LoggedInfo "AUTH_ANON_PROFILE_CLEARED"; LoggedInfo "AUTH_SIGN_OUT_SUCCESS"].
Proof.
  apply (signOut_reports (full_page refusing) (fresh None)). reflexivity.
Defined.


(** * The console loggers *)

Lemma or_one_positive R name n : or_one (read R name) = Num n -> 1 <= n.
Proof.
  unfold read, LOG_LEVELS.
  repeat match goal with
         | |- context [String.eqb name ?l] => destruct (String.eqb name l)
         end; simpl; try (intros [= <-]; lia).
  destruct (inherited R name); simpl; [discriminate | intros [= <-]; lia].
Qed.

Lemma read_own R name n : LOG_LEVELS name = Some n -> read R name = Num n.
Proof. unfold read. intros ->. reflexivity. Qed.

(** X15: the console manager passes every ['ERROR'] message on to the native
    [console.error], at every level it can be set to, ['SILENT'] included:
    the level is read as [logLevels[level] || 1], which turns the 0 of
    ['SILENT'] into the 1 of ['ERROR'].  (The one exception is a level name
    that the table inherits from [Object.prototype].) *)
Theorem errors_are_never_silenced R m line :
  read R (ConsoleManager.logLevel m) <> Member (ConsoleManager.logLevel m) ->
  ConsoleManager.log R m "ERROR" line = ConsoleManager.write ConsoleError line m.
Proof.
  intros Hlevel. unfold ConsoleManager.log, ConsoleManager.shouldLog.
  change (or_one (read R "ERROR")) with (Num 1).
  destruct (or_one (read R (ConsoleManager.logLevel m))) as [n | name |] eqn:Hn.
  - apply or_one_positive in Hn. simpl.
    destruct (1 <=? n) eqn:Hle; [reflexivity | apply Z.leb_gt in Hle; lia].
  - exfalso. apply Hlevel. unfold read in *.
    destruct (LOG_LEVELS (ConsoleManager.logLevel m)) as [k |]; simpl in Hn.
    + destruct (k =? 0); discriminate.
    + destruct (inherited R (ConsoleManager.logLevel m)); [reflexivity | discriminate].
  - unfold read in Hn. destruct (LOG_LEVELS (ConsoleManager.logLevel m)) as [k |]; simpl in Hn.
    + destruct (k =? 0); discriminate.
    + destruct (inherited R (ConsoleManager.logLevel m)); discriminate.
Qed.

Lemma errors_are_never_silenced_witness :
  ConsoleManager.log browser (ConsoleManager.mk "SILENT" []) "ERROR" "boom" =
    ConsoleManager.write ConsoleError "boom" (ConsoleManager.mk "SILENT" []).
Proof.
  apply (errors_are_never_silenced browser (ConsoleManager.mk "SILENT" []) "boom").
  discriminate.
Defined.

(** X16: after [enableProductionMode()] the manager reports the level
    ['SILENT'] but filters every message level exactly as it does at
    ['ERROR']. *)
Theorem production_mode_is_error_mode R m level :
  toUpperCase R "SILENT" = "SILENT" ->
  ConsoleManager.getLogLevel (ConsoleManager.enableProductionMode R m) = "SILENT" /\
  ConsoleManager.shouldLog R (ConsoleManager.enableProductionMode R m) level =
    ConsoleManager.shouldLog R (ConsoleManager.mk "ERROR" []) level.
Proof.
  intros Hup. unfold ConsoleManager.enableProductionMode, ConsoleManager.setLogLevel.
  rewrite Hup. simpl. split; reflexivity.
Qed.

Lemma production_mode_is_error_mode_witness :
  ConsoleManager.getLogLevel
    (ConsoleManager.enableProductionMode browser (ConsoleManager.mk "DEBUG" [])) = "SILENT" /\
  ConsoleManager.shouldLog browser
    (ConsoleManager.enableProductionMode browser (ConsoleManager.mk "DEBUG" [])) "ERROR" =
    ConsoleManager.shouldLog browser (ConsoleManager.mk "ERROR" []) "ERROR".
Proof.
  apply (production_mode_is_error_mode browser (ConsoleManager.mk "DEBUG" []) "ERROR").
  reflexivity.
Defined.

(** X17: when the URL carries a [loglevel] or [debug] parameter whose
    upper-cased value is not a level of the table, such as [?debug=true], the
    manager built for that page filters every message level exactly as at
    ['ERROR'], on localhost too. *)
Theorem unknown_url_level_is_error_mode R loc native v level :
  or_else (param loc "loglevel") (param loc "debug") = Some v ->
  usable v = true ->
  read R (toUpperCase R v) = Undefined ->
  ConsoleManager.shouldLog R (ConsoleManager.constructor R loc native) level =
    ConsoleManager.shouldLog R (ConsoleManager.mk "ERROR" []) level.
Proof.
  intros Hurl Hv Hread.
  unfold ConsoleManager.constructor, ConsoleManager.getLogLevelFromEnv.
  rewrite Hurl. simpl. rewrite Hv.
  assert (forall out l,
            ConsoleManager.shouldLog R
              {| ConsoleManager.logLevel :=
                   if usable (toUpperCase R v) then toUpperCase R v else "ERROR";
                 ConsoleManager.originalConsole := out |} l =
            ConsoleManager.shouldLog R (ConsoleManager.mk "ERROR" []) l) as Hsame.
  { intros out l. unfold ConsoleManager.shouldLog. simpl.
    destruct (usable (toUpperCase R v)); [rewrite Hread |]; reflexivity. }
  match goal with |- context [if ?c then _ else _] =>
    lazymatch c with ConsoleManager.shouldLog _ _ _ => destruct c end end;
    apply Hsame.
Qed.

Lemma unknown_url_level_is_error_mode_witness :
  ConsoleManager.shouldLog browser (ConsoleManager.constructor browser debug_true []) "DEBUG" =
    ConsoleManager.shouldLog browser (ConsoleManager.mk "ERROR" []) "DEBUG".
Proof.
  apply (unknown_url_level_is_error_mode browser debug_true [] "true" "DEBUG");
    reflexivity.
Defined.

(** X18: the five levels are ordered: a message that the manager passes on
    at one level of the table is passed on at every level of the table that
    ranks at least as high. *)
Theorem raising_the_level_hides_nothing R a b i j native level :
  LOG_LEVELS a = Some i ->
  LOG_LEVELS b = Some j ->
  i <= j ->
  ConsoleManager.shouldLog R (ConsoleManager.mk a native) level = true ->
  ConsoleManager.shouldLog R (ConsoleManager.mk b native) level = true.
Proof.
  intros Ha Hb Hij. unfold ConsoleManager.shouldLog. simpl.
  rewrite (read_own R a i Ha), (read_own R b j Hb).
  destruct (or_one (read R level)) as [n | name |]; simpl; try discriminate.
  - destruct (i =? 0) eqn:Hi, (j =? 0) eqn:Hj; simpl; intros H;
      apply Z.leb_le in H; apply Z.leb_le; lia.
  - destruct (i =? 0), (j =? 0); discriminate.
Qed.

Lemma raising_the_level_hides_nothing_witness :
  ConsoleManager.shouldLog browser (ConsoleManager.mk "INFO" []) "WARN" = true.
Proof.
  apply (raising_the_level_hides_nothing browser "WARN" "INFO" 2 3 [] "WARN");
    first [reflexivity | lia].
Defined.

Lemma constructor_level R loc native :
  inherited R "" = false ->
  or_one (read R (ConsoleManager.logLevel (ConsoleManager.constructor R loc native))) =
    SimpleLogger.currentLogLevel R loc.
Proof.
  intros Hempty.
  assert (or_one (read R (if usable (ConsoleManager.getLogLevelFromEnv R loc)
                          then ConsoleManager.getLogLevelFromEnv R loc else "ERROR")) =
          SimpleLogger.currentLogLevel R loc) as Hlevel.
  { unfold SimpleLogger.currentLogLevel.
    change (SimpleLogger.getLogLevel R loc) with (ConsoleManager.getLogLevelFromEnv R loc).
    destruct (usable (ConsoleManager.getLogLevelFromEnv R loc)) eqn:Hu; [reflexivity |].
    unfold usable in Hu. apply negb_false_iff, String.eqb_eq in Hu. rewrite Hu.
    unfold read. simpl. rewrite Hempty. reflexivity. }
  unfold ConsoleManager.constructor.
  match goal with |- context [if ?c then _ else _] =>
    lazymatch c with ConsoleManager.shouldLog _ _ _ => destruct c end end;
    exact Hlevel.
Qed.

(** X19: on the same page, the [shouldLog] of simple-logger.js and that of
    the console manager give the same answer for every message level that
    the table knows.  For a level name that is unknown the simple logger
    answers [false], while the manager treats the message as an ['ERROR']
    message. *)
Theorem loggers_agree_on_known_levels R loc native level :
  inherited R "" = false ->
  SimpleLogger.shouldLog R loc level =
    match read R level with
    | Undefined => false
    | _ => ConsoleManager.shouldLog R (ConsoleManager.constructor R loc native) level
    end /\
  (read R level = Undefined ->
   ConsoleManager.shouldLog R (ConsoleManager.constructor R loc native) level =
     ConsoleManager.shouldLog R (ConsoleManager.constructor R loc native) "ERROR").
Proof.
  intros Hempty. unfold SimpleLogger.shouldLog, ConsoleManager.shouldLog.
  rewrite (constructor_level R loc native Hempty).
  pose proof (or_one_positive R (SimpleLogger.getLogLevel R loc)) as Hpos.
  fold (SimpleLogger.currentLogLevel R loc) in Hpos.
  split.
  - destruct (read R level) as [n | name |] eqn:Hread; simpl; try reflexivity.
    destruct (SimpleLogger.currentLogLevel R loc) as [c | name |].
    + specialize (Hpos c eq_refl).
      destruct (n =? 0) eqn:Hn; [| reflexivity].
      apply Z.eqb_eq in Hn. subst n. simpl.
      destruct (0 <=? c) eqn:H0, (1 <=? c) eqn:H1; try reflexivity;
        [apply Z.leb_gt in H1 | apply Z.leb_gt in H0]; lia.
    + destruct (n =? 0); reflexivity.
    + destruct (n =? 0); reflexivity.
  - intros ->. reflexivity.
Qed.

Lemma loggers_agree_on_known_levels_witness :
  SimpleLogger.shouldLog browser debug_true "VERBOSE" = false /\
  (read browser "VERBOSE" = Undefined ->
   ConsoleManager.shouldLog browser (ConsoleManager.constructor browser debug_true []) "VERBOSE" =
     ConsoleManager.shouldLog browser (ConsoleManager.constructor browser debug_true []) "ERROR").
Proof.
  apply (loggers_agree_on_known_levels browser debug_true [] "VERBOSE"). reflexivity.
Defined.

Lemma printed_eq {A} (m : M A) s l :
  console (snd (m s)) = (console s ++ l)%list -> printed m s = l.
Proof. intros H. unfold printed. rewrite H. apply drop_app_length. Qed.

(** X20: when the session lookup is not answered within the limit, nothing
    that [getCurrentUserId] writes gets through a console manager whose
    level filters ['DEBUG'] messages: the timeout leaves the native console
    untouched. *)
Theorem timeout_is_invisible_below_debug R m W s p :
  supabaseClient W = true ->
  getUser (remote W) (calls s) = Return p ->
  answers_within AUTH_TIMEOUT_MS p = false ->
  ConsoleManager.shouldLog R m "DEBUG" = false ->
  pass_on R m (printed (getCurrentUserId W) s) = m.
Proof.
  intros Hc Hget Hlate Hdebug.
  rewrite (printed_eq _ s [(LevelDebug, "Authentication timeout - using anonymous mode")]).
  - simpl. unfold ConsoleManager.log. rewrite Hdebug. reflexivity.
  - unfold getCurrentUserId. unfold_js. rewrite Hc. simpl. rewrite Hget. simpl.
    rewrite (race_unanswered _ _ _ Hlate). simpl.
    destruct (errorHandler W && negb (authTimeoutLogged s)); reflexivity.
Qed.

Lemma timeout_is_invisible_below_debug_witness :
  pass_on browser (ConsoleManager.mk "INFO" [])
    (printed (getCurrentUserId (full_page silent)) (fresh None)) =
    ConsoleManager.mk "INFO" [].
Proof.
  apply (timeout_is_invisible_below_debug browser (ConsoleManager.mk "INFO" [])
           (full_page silent) (fresh None) Pending); reflexivity.
Defined.

(** * The sign-in modal *)

Section Modal.

Import SimpleAuthModal.

Variable trim : string -> string.

Lemma react_open_flag m ev :
  isOpen m = negb (hidden m) -> isOpen (react trim m ev) = negb (hidden (react trim m ev)).
Proof.
  intros Hm. destruct ev as [cb | event cb | e p | | | | answer]; simpl; try exact Hm;
    try reflexivity.
  - unfold on. destruct (String.eqb event "login"); exact Hm.
  - destruct (isOpen m) eqn:Ho; [reflexivity | rewrite Ho; exact Hm].
  - unfold handleSubmit_request.
    destruct (negb (usable (trim (email m))) || negb (usable (password m))); exact Hm.
  - unfold handleSubmit_settle.
    destruct answer as [[[user |] [error |]] | error]; simpl; first [exact Hm | reflexivity].
Qed.

(** X21: whatever happens to the modal (calls of [open], [close] and [on],
    typing, the close button, the Escape key, submissions and their
    answers, in any order), its [isOpen] field says [true] exactly when the
    dialog does not carry the class [hidden]. *)
Theorem open_flag_matches_the_page events :
  isOpen (after trim events) = negb (hidden (after trim events)).
Proof.
  unfold after.
  assert (forall m, isOpen m = negb (hidden m) ->
                    isOpen (fold_left (react trim) events m) =
                      negb (hidden (fold_left (react trim) events m))) as H.
  { induction events as [| ev events IH]; intros m Hm; simpl; [exact Hm |].
    apply IH, react_open_flag, Hm. }
  apply H. reflexivity.
Qed.

(** X22: when both fields are filled in and the sign-in answers with a user
    and no error, [handleSubmit] calls every registered callback once with
    that user, in the order of registration, and then closes the modal: no
    callback is left registered, the dialog is hidden, the form is empty and
    the button is no longer loading. *)
Theorem sign_in_notifies_every_callback_once signIn m user :
  usable (trim (email m)) = true ->
  usable (password m) = true ->
  signIn (trim (email m)) (password m) = Return (mkSignInReply (Some user) None) ->
  handleSubmit trim signIn m =
    {| isOpen := false; callbacks := []; hidden := true; email := ""; password := "";
       errorText := errorText m; errorHidden := true; loading := false;
       notified := (notified m ++ map (fun callback => (callback, user)) (callbacks m))%list |}.
Proof.
  intros He Hp Hin. unfold handleSubmit, handleSubmit_request.
  rewrite He, Hp. simpl. rewrite Hin. reflexivity.
Qed.

Lemma filter_length_app {A} (P : A -> Prop) `{forall x, Decision (P x)} (l k : list A) :
  length (filter P (l ++ k)%list) = (length (filter P l) + length (filter P k))%nat.
Proof. rewrite filter_app, length_app. reflexivity. Qed.

Lemma called_notify callback m user :
  called callback (notify m user) = (called callback m + waiting callback m)%nat.
Proof.
  unfold called, waiting, notify. simpl. rewrite filter_length_app. f_equal.
  induction (callbacks m) as [| cb cbs IH]; [reflexivity |].
  simpl. rewrite !filter_cons. simpl.
  destruct (decide (Nat.eqb cb callback = true)); simpl; rewrite IH; reflexivity.
Qed.

Lemma waiting_snoc callback (cbs : list Callback) cb :
  length (filter (fun c => Nat.eqb c callback = true) (cbs ++ [cb])%list) =
    (length (filter (fun c => Nat.eqb c callback = true) cbs) +
     (if Nat.eqb cb callback then 1 else 0))%nat.
Proof.
  rewrite filter_app, length_app. f_equal. rewrite filter_cons, filter_nil.
  destruct (decide (Nat.eqb cb callback = true)) as [Heq | Hne].
  - rewrite Heq. reflexivity.
  - apply not_true_is_false in Hne. rewrite Hne. reflexivity.
Qed.

Lemma react_counts callback m ev :
  (called callback (react trim m ev) + waiting callback (react trim m ev) <=
   called callback m + waiting callback m + (if registers callback ev then 1 else 0))%nat.
Proof.
  destruct ev as [[cb |] | event cb | e p | | | | answer]; simpl;
    unfold called, waiting in *; simpl; try lia.
  - rewrite waiting_snoc. lia.
  - unfold on. destruct (String.eqb event "login"); simpl; [| lia].
    rewrite waiting_snoc. lia.
  - destruct (isOpen m); simpl; lia.
  - unfold handleSubmit_request.
    destruct (negb (usable (trim (email m))) || negb (usable (password m))); simpl; lia.
  - unfold handleSubmit_settle.
    destruct answer as [[[user |] [error |]] | error]; simpl; try lia.
    pose proof (called_notify callback m user) as Hn.
    unfold called, waiting, notify in Hn. simpl in Hn. rewrite Hn. lia.
Qed.

Lemma registered_cons callback ev events :
  registered callback (ev :: events) =
    ((if registers callback ev then 1 else 0) + registered callback events)%nat.
Proof.
  unfold registered. rewrite filter_cons.
  destruct (decide (registers callback ev = true)) as [-> | Hne]; [reflexivity |].
  apply not_true_is_false in Hne. rewrite Hne. reflexivity.
Qed.

(** X23: in any history of the modal, a callback has been called, and is
    still waiting to be called, at most as often as it was registered with
    [open] or [on('login', ...)]: no registration is ever notified twice. *)
Theorem no_callback_is_called_more_often_than_registered events callback :
  (called callback (after trim events) + waiting callback (after trim events) <=
   registered callback events)%nat.
Proof.
  unfold after.
  assert (forall m,
            (called callback (fold_left (react trim) events m) +
             waiting callback (fold_left (react trim) events m) <=
             called callback m + waiting callback m + registered callback events)%nat) as H.
  { induction events as [| ev events IH]; intros m; [simpl; unfold registered; simpl; lia |].
    simpl. rewrite registered_cons. specialize (IH (react trim m ev)).
    pose proof (react_counts callback m ev). lia. }
  specialize (H constructor).
  change (called callback constructor) with 0%nat in H.
  change (waiting callback constructor) with 0%nat in H. lia.
Qed.

(** X24: when the modal is closed while a sign-in is awaited, the answer,
    whatever it is, calls no callback; the Escape key has this effect
    exactly when the modal is open. *)
Theorem closing_cancels_the_notification m answer :
  notified (handleSubmit_settle (close m) answer) = notified m /\
  notified (handleSubmit_settle (react trim m Escape) answer) =
    (if isOpen m then notified m else notified (handleSubmit_settle m answer)).
Proof.
  split.
  - unfold handleSubmit_settle. destruct answer as [[[user |] [error |]] | error]; simpl;
      rewrite ?app_nil_r; reflexivity.
  - simpl. destruct (isOpen m); [| reflexivity].
    unfold handleSubmit_settle. destruct answer as [[[user |] [error |]] | error]; simpl;
      rewrite ?app_nil_r; reflexivity.
Qed.

Lemma getErrorMessage_usable error : usable (getErrorMessage error) = true.
Proof.
  unfold getErrorMessage. destruct (usable (message error)) eqn:Hm; [| reflexivity].
  repeat match goal with
         | |- context [if ?c then _ else _] => destruct c; [reflexivity |]
         end.
  exact Hm.
Qed.

(** X25: when both fields are filled in and the sign-in fails (it rejects,
    answers with an error, or answers without a user), [handleSubmit] calls
    no callback and keeps them registered, leaves the dialog and the form as
    they are, shows the text of [getErrorMessage], which is never empty, and
    ends the loading state. *)
Theorem failed_sign_in_leaves_the_modal_ready signIn m error :
  usable (trim (email m)) = true ->
  usable (password m) = true ->
  sign_in_error (signIn (trim (email m)) (password m)) = Some error ->
  handleSubmit trim signIn m =
    {| isOpen := isOpen m; callbacks := callbacks m; hidden := hidden m;
       email := email m; password := password m;
       errorText := getErrorMessage error; errorHidden := false; loading := false;
       notified := notified m |} /\
  usable (getErrorMessage error) = true.
Proof.
  intros He Hp Hin. split; [| apply getErrorMessage_usable].
  unfold handleSubmit, handleSubmit_request. rewrite He, Hp. simpl.
  unfold handleSubmit_settle.
  destruct (signIn (trim (email m)) (password m)) as [[[user |] [err |]] | err];
    simpl in Hin; try discriminate Hin; injection Hin as <-; reflexivity.
Qed.

(** X26: when the email is empty after trimming or the password is empty,
    [handleSubmit] returns before any sign-in request: it only shows
    ['Please enter both email and password'], and the loading state is not
    entered. *)
Theorem incomplete_form_sends_no_request m :
  usable (trim (email m)) = false \/ usable (password m) = false ->
  handleSubmit_request trim m =
    (showError m "Please enter both email and password", None).
Proof.
  intros H. unfold handleSubmit_request.
  destruct H as [-> | ->]; simpl; rewrite ?orb_true_r; reflexivity.
Qed.

End Modal.

Lemma sign_in_notifies_every_callback_once_witness :
  SimpleAuthModal.handleSubmit strip
    (fun _ _ => Return (SimpleAuthModal.mkSignInReply (Some "u-1") None))
    (SimpleAuthModal.input (SimpleAuthModal.open SimpleAuthModal.constructor (Some 7%nat))
       " coach@example.org " "secret") =
    {| SimpleAuthModal.isOpen := false; SimpleAuthModal.callbacks := [];
       SimpleAuthModal.hidden := true; SimpleAuthModal.email := "";
       SimpleAuthModal.password := ""; SimpleAuthModal.errorText := "";
       SimpleAuthModal.errorHidden := true; SimpleAuthModal.loading := false;
       SimpleAuthModal.notified := [(7%nat, "u-1")] |}.
Proof.
  apply (sign_in_notifies_every_callback_once strip
           (fun _ _ => Return (SimpleAuthModal.mkSignInReply (Some "u-1") None))
           (SimpleAuthModal.input
              (SimpleAuthModal.open SimpleAuthModal.constructor (Some 7%nat))
              " coach@example.org " "secret") "u-1"); reflexivity.
Defined.

Lemma failed_sign_in_leaves_the_modal_ready_witness :
  SimpleAuthModal.handleSubmit strip
    (fun _ _ => Return (SimpleAuthModal.mkSignInReply None
                          (Some (mkError "Invalid login credentials"))))
    (SimpleAuthModal.input (SimpleAuthModal.open SimpleAuthModal.constructor (Some 7%nat))
       "coach@example.org" "wrong") =
    {| SimpleAuthModal.isOpen := true; SimpleAuthModal.callbacks := [7%nat];
       SimpleAuthModal.hidden := false; SimpleAuthModal.email := "coach@example.org";
       SimpleAuthModal.password := "wrong";
       SimpleAuthModal.errorText := "Invalid email or password";
       SimpleAuthModal.errorHidden := false; SimpleAuthModal.loading := false;
       SimpleAuthModal.notified := [] |} /\
  usable (SimpleAuthModal.getErrorMessage (mkError "Invalid login credentials")) = true.
Proof.
  apply (failed_sign_in_leaves_the_modal_ready strip
           (fun _ _ => Return (SimpleAuthModal.mkSignInReply None
                                 (Some (mkError "Invalid login credentials"))))
           (SimpleAuthModal.input
              (SimpleAuthModal.open SimpleAuthModal.constructor (Some 7%nat))
              "coach@example.org" "wrong")
           (mkError "Invalid login credentials")); reflexivity.
Defined.

Lemma incomplete_form_sends_no_request_witness :
  SimpleAuthModal.handleSubmit_request strip
    (SimpleAuthModal.input SimpleAuthModal.constructor "   " "secret") =
    (SimpleAuthModal.showError
       (SimpleAuthModal.input SimpleAuthModal.constructor "   " "secret")
       "Please enter both email and password", None).
Proof.
  apply (incomplete_form_sends_no_request strip
           (SimpleAuthModal.input SimpleAuthModal.constructor "   " "secret")).
  left. reflexivity.
Defined.
